(** * Calico CNI plugin: the ADD/DELETE orchestration of [calico_cni.py]

    A shallow embedding of [src/calico_cni/calico_cni.py].  Python byte
    strings are [string]s, dictionaries with string keys are [gmap]s, and the
    methods of [CniPlugin] are functions in a state-and-exception monad over a
    model of the host the plugin runs on.  Log messages are left out: they
    reach neither standard output nor the exit code.

    The definitions come first: Python strings and paths, the regular
    expression of CNI_ARGS, values and exceptions, the host, the plugin, the
    predicates the statements use, and a concrete library and host for the
    examples.  The facts follow, the statement of each claim of the
    specification under a comment that names it. *)

From Stdlib Require Import ZArith Ascii String List Lia.
From stdpp Require Import base option list gmap strings fin_maps pretty.

#[local] Arguments String.append _ _ : simpl nomatch.

(** ** Python strings *)

Module PyStr.

Definition code (c : ascii) : nat := nat_of_ascii c.

Definition between (lo hi : nat) (c : ascii) : bool :=
  Nat.leb lo (code c) && Nat.leb (code c) hi.

(** The newline character. *)
Definition LF : ascii := ascii_of_nat 10.

(** [str.isspace] on one byte: tab, newline, vertical tab, form feed,
    carriage return and space. *)
Definition isspace (c : ascii) : bool :=
  between 9 13 c || Nat.eqb (code c) 32.

Definition is_empty (s : string) : bool :=
  match s with EmptyString => true | String _ _ => false end.

(** [s.lstrip()] *)
Fixpoint lstrip (s : string) : string :=
  match s with
  | EmptyString => EmptyString
  | String c s' => if isspace c then lstrip s' else s
  end.

(** [s.rstrip()] *)
Fixpoint rstrip (s : string) : string :=
  match s with
  | EmptyString => EmptyString
  | String c s' =>
      let r := rstrip s' in
      if isspace c && is_empty r then EmptyString else String c r
  end.

(** [s.strip()] *)
Definition strip (s : string) : string := rstrip (lstrip s).

(** [s.split(sep)] for a one-character separator: never returns the empty
    list, and keeps empty fields. *)
Fixpoint split (sep : ascii) (s : string) : list string :=
  match s with
  | EmptyString => [EmptyString]
  | String c s' =>
      if Ascii.eqb c sep then EmptyString :: split sep s'
      else match split sep s' with
           | [] => [String c EmptyString]
           | f :: fs => String c f :: fs
           end
  end.

(** [sep.join(fields)] *)
Fixpoint join (sep : string) (fields : list string) : string :=
  match fields with
  | [] => EmptyString
  | [f] => f
  | f :: fs => f +:+ sep +:+ join sep fs
  end.

(** [s.replace(c, "")] for a one-character [c]. *)
Fixpoint remove_char (c : ascii) (s : string) : string :=
  match s with
  | EmptyString => EmptyString
  | String c' s' =>
      if Ascii.eqb c' c then remove_char c s' else String c' (remove_char c s')
  end.

(** [s.startswith(p)] *)
Definition startswith (p s : string) : bool := String.prefix p s.

(** [s.endswith(c)] for one character. *)
Fixpoint endswith_char (c : ascii) (s : string) : bool :=
  match s with
  | EmptyString => false
  | String c' EmptyString => Ascii.eqb c' c
  | String _ s' => endswith_char c s'
  end.

(** Every character of [s] satisfies [p]. *)
Fixpoint all_chars (p : ascii -> bool) (s : string) : bool :=
  match s with
  | EmptyString => true
  | String c s' => p c && all_chars p s'
  end.

End PyStr.

(** ** The regular expression [CNI_ARGS_RE]

    [re.compile("([a-zA-Z0-9/\.\-\_ ]+)=([a-zA-Z0-9/\.\-\_ ]+)(?:;|$)")],
    written with the combinators of a backtracking matcher: a continuation
    receives what is left of the subject once its predecessor has matched, and
    a failing continuation makes the predecessor try its next alternative. *)

Module Re.

Section Matcher.
Context {A : Type}.

(** [[cls]+], greedy: having matched [acc], consume one more character of
    the class, prefer to go on consuming, and give characters back one by
    one while the continuation fails. *)
Fixpoint greedy_plus (cls : ascii -> bool) (s acc : string)
    (k : string -> string -> option A) : option A :=
  match s with
  | EmptyString => None
  | String c s' =>
      if cls c then
        let acc' := acc +:+ String c EmptyString in
        match greedy_plus cls s' acc' k with
        | Some r => Some r
        | None => k acc' s'
        end
      else None
  end.

(** A literal character. *)
Definition lit (c : ascii) (s : string) (k : string -> option A) : option A :=
  match s with
  | String c' s' => if Ascii.eqb c' c then k s' else None
  | EmptyString => None
  end.

(** [$] without MULTILINE: the end of the subject, or just before a
    newline that is its last character.  Consumes nothing. *)
Definition dollar (s : string) (k : string -> option A) : option A :=
  match s with
  | EmptyString => k s
  | String c EmptyString => if Ascii.eqb c PyStr.LF then k s else None
  | _ => None
  end.

(** [a|b]: the left branch first. *)
Definition alt (a b : option A) : option A :=
  match a with Some r => Some r | None => b end.
End Matcher.

End Re.

(** The character class [[a-zA-Z0-9/\.\-\_ ]]. *)
Definition cni_arg_char (c : ascii) : bool :=
  PyStr.between 97 122 c || PyStr.between 65 90 c || PyStr.between 48 57 c
  || Nat.eqb (PyStr.code c) 47 || Nat.eqb (PyStr.code c) 46
  || Nat.eqb (PyStr.code c) 45 || Nat.eqb (PyStr.code c) 95
  || Nat.eqb (PyStr.code c) 32.

(** One attempt of [CNI_ARGS_RE] at the start of [s]: the two groups and the
    text after the match. *)
Definition CNI_ARGS_RE_match (s : string) : option (string * string * string) :=
  Re.greedy_plus cni_arg_char s "" (fun g1 r1 =>
    Re.lit "=" r1 (fun r2 =>
      Re.greedy_plus cni_arg_char r2 "" (fun g2 r3 =>
        Re.alt (Re.lit ";" r3 (fun r4 => Some (g1, g2, r4)))
               (Re.dollar r3 (fun r4 => Some (g1, g2, r4)))))).

(** [CNI_ARGS_RE.findall]: scan left to right; after a match resume where it
    ended, otherwise move one character on.  A match is never empty, so
    [fuel] beyond the length of the subject is never used up. *)
Fixpoint findall_from (fuel : nat) (s : string) : list (string * string) :=
  match fuel with
  | O => []
  | S fuel' =>
      match CNI_ARGS_RE_match s with
      | Some (g1, g2, rest) => (g1, g2) :: findall_from fuel' rest
      | None =>
          match s with
          | EmptyString => []
          | String _ s' => findall_from fuel' s'
          end
      end
  end.

Definition CNI_ARGS_RE_findall (s : string) : list (string * string) :=
  findall_from (S (String.length s)) s.

(** [CniPlugin.parse_cni_args] *)
Definition parse_cni_args (cni_args : string) : gmap string string :=
  foldl (fun args_to_return kv => <[PyStr.strip kv.1 := PyStr.strip kv.2]> args_to_return)
        ∅ (CNI_ARGS_RE_findall cni_args).

(** *** Definitions that describe the matcher *)

(** The longest prefix of [s] inside the class, and what follows it. *)
Fixpoint span (cls : ascii -> bool) (s : string) : string * string :=
  match s with
  | EmptyString => (EmptyString, EmptyString)
  | String c s' =>
      if cls c then (String c (span cls s').1, (span cls s').2)
      else (EmptyString, s)
  end.

Definition starts_in (cls : ascii -> bool) (s : string) : bool :=
  match s with EmptyString => false | String c _ => cls c end.

(** [CNI_ARGS_RE] at the start of [s], without backtracking. *)
Definition match_longest (s : string) : option (string * string * string) :=
  let g1 := (span cni_arg_char s).1 in
  if PyStr.is_empty g1 then None else
  match (span cni_arg_char s).2 with
  | String c r2 =>
      if Ascii.eqb c "=" then
        let g2 := (span cni_arg_char r2).1 in
        let r3 := (span cni_arg_char r2).2 in
        if PyStr.is_empty g2 then None else
        match r3 with
        | EmptyString => Some (g1, g2, r3)
        | String d r4 =>
            if Ascii.eqb d ";" then Some (g1, g2, r4)
            else if PyStr.is_empty r4 && Ascii.eqb d PyStr.LF then Some (g1, g2, r3)
            else None
        end
      else None
  | EmptyString => None
  end.

(** A KEY or a VALUE of the grammar: [[A-Za-z0-9/._- ]+]. *)
Definition token (s : string) : bool :=
  negb (PyStr.is_empty s) && PyStr.all_chars cni_arg_char s.

(** Any character but the equals sign. *)
Definition not_eq (c : ascii) : bool := negb (Ascii.eqb c "=").

(** At a separator, or at the end of the subject. *)
Definition at_boundary (s : string) : bool :=
  match s with
  | EmptyString => true
  | String c _ => Ascii.eqb c ";"
  end.

(** *** CNI_ARGS as a list of fragments

    The grammar of the specification, [(KEY=VALUE)(;KEY=VALUE)*], read as a
    list of fragments separated by semicolons.  A [Pair] is a KEY=VALUE of the
    grammar; [Junk] is text that holds no equals sign. *)

Inductive fragment :=
| Pair (key value : string)
| Junk (text : string).

Definition fragment_ok (f : fragment) : bool :=
  match f with
  | Pair k v => token k && token v
  | Junk t => PyStr.all_chars not_eq t
  end.

Definition render (f : fragment) : string :=
  match f with
  | Pair k v => k +:+ "=" +:+ v
  | Junk t => t
  end.

Definition render_all (fs : list fragment) : string :=
  PyStr.join ";" (map render fs).

(** The KEY and VALUE of every [Pair], in order. *)
Fixpoint captured (fs : list fragment) : list (string * string) :=
  match fs with
  | [] => []
  | Pair k v :: fs' => (k, v) :: captured fs'
  | Junk _ :: fs' => captured fs'
  end.

(** A string of the grammar has one fragment at least, and no [Junk]. *)
Definition is_pair (f : fragment) : bool :=
  match f with Pair _ _ => true | Junk _ => false end.

Definition well_formed (fs : list fragment) : bool :=
  negb (Nat.eqb (List.length fs) 0) && forallb is_pair fs && forallb fragment_ok fs.

Definition stripped (ps : list (string * string)) : list (string * string) :=
  map (fun kv => (PyStr.strip kv.1, PyStr.strip kv.2)) ps.

(** Neither the first nor the last character is white space. *)
Fixpoint ends_with_space (s : string) : bool :=
  match s with
  | EmptyString => false
  | String c EmptyString => PyStr.isspace c
  | String _ s' => ends_with_space s'
  end.

Definition trimmed (s : string) : bool :=
  negb (starts_in PyStr.isspace s) && negb (ends_with_space s).

Definition insert_stripped (m : gmap string string) (kv : string * string) :=
  <[PyStr.strip kv.1 := PyStr.strip kv.2]> m.

(** A fragment that is a KEY=VALUE of the grammar, with its KEY and VALUE:
    two tokens around one equals sign. *)
Definition as_pair (text : string) : option (string * string) :=
  match PyStr.split "=" text with
  | [k; v] => if token k && token v then Some (k, v) else None
  | _ => None
  end.

(** The well-formed KEY=VALUE fragments of a CNI_ARGS string, in order. *)
Definition well_formed_pairs (cni_args : string) : list (string * string) :=
  omap as_pair (PyStr.split ";" cni_args).


(** ** POSIX paths ([posixpath]) *)

Module OsPath.

(** [os.path.join(a, b)] *)
Definition join (a b : string) : string :=
  if PyStr.startswith "/" b then b
  else if PyStr.is_empty a || PyStr.endswith_char "/" a then a +:+ b
  else a +:+ "/" +:+ b.

(** [os.path.isabs] *)
Definition isabs (path : string) : bool := PyStr.startswith "/" path.

(** The loop body of [normpath]; [new_comps] is kept newest first. *)
Definition normpath_step (initial_slashes : nat) (new_comps : list string)
    (comp : string) : list string :=
  if String.eqb comp "" || String.eqb comp "." then new_comps
  else if negb (String.eqb comp "..")
          || (Nat.eqb initial_slashes 0 && Nat.eqb (List.length new_comps) 0)
          || match new_comps with
             | top :: _ => String.eqb top ".."
             | [] => false
             end
       then comp :: new_comps
       else match new_comps with
            | _ :: popped => popped
            | [] => new_comps
            end.

Fixpoint slashes (n : nat) : string :=
  match n with
  | O => ""
  | S n' => String "/" (slashes n')
  end.

(** [os.path.normpath] *)
Definition normpath (path : string) : string :=
  if PyStr.is_empty path then "." else
  let initial_slashes :=
    if PyStr.startswith "/" path then
      if PyStr.startswith "//" path && negb (PyStr.startswith "///" path)
      then 2%nat else 1%nat
    else 0%nat in
  let comps := PyStr.split "/" path in
  let new_comps := foldl (normpath_step initial_slashes) [] comps in
  let path' := slashes initial_slashes +:+ PyStr.join "/" (reverse new_comps) in
  if PyStr.is_empty path' then "." else path'.

(** [os.path.abspath], with [os.getcwd()] given. *)
Definition abspath (cwd path : string) : string :=
  if isabs path then normpath path else normpath (join cwd path).

End OsPath.

(** ** Python values and exceptions *)

#[local] Set Warnings "-register-all".

(** What [json.loads] returns: [None], booleans, integers, floats (kept as
    their text), strings, lists and dictionaries. *)
Inductive json :=
| JNull
| JBool (b : bool)
| JInt (n : Z)
| JFloat (repr : string)
| JString (s : string)
| JList (items : list json)
| JDict (items : list (string * json)).

(** The exceptions the plugin distinguishes; [OtherError] stands for any
    class that no [except] clause of the plugin names (OSError,
    CalledProcessError, ...).  [SystemExit] is kept apart, see [result]. *)
Inductive pyerr :=
| KeyError (key : string)
| ValueError
| AddrFormatError
| MultipleEndpointsMatch
| TypeError
| AttributeError
| AssertionError
| OtherError (name : string).

(** How a call ends: it returns, it raises, or it calls [sys.exit(code)]. *)
Inductive result (A : Type) :=
| Ok (a : A)
| Raise (e : pyerr)
| Exit (code : Z).

Arguments Ok {A} a.
Arguments Raise {A} e.
Arguments Exit {A} code.

Fixpoint assoc {A} (key : string) (items : list (string * A)) : option A :=
  match items with
  | [] => None
  | (k, v) :: rest => if String.eqb k key then Some v else assoc key rest
  end.

(** [o[key]] for a string [key]. *)
Definition getitem (o : json) (key : string) : result json :=
  match o with
  | JDict items =>
      match assoc key items with
      | Some v => Ok v
      | None => Raise (KeyError key)
      end
  | _ => Raise TypeError
  end.

(** [env[key]] *)
Definition env_get (env : gmap string string) (key : string) : result string :=
  match env !! key with
  | Some v => Ok v
  | None => Raise (KeyError key)
  end.

(** Pure code that may raise. *)
Definition rbind {A B} (r : result A) (k : A -> result B) : result B :=
  match r with
  | Ok a => k a
  | Raise e => Raise e
  | Exit c => Exit c
  end.

Definition of_sum {A} (r : pyerr + A) : result A :=
  match r with
  | inl e => Raise e
  | inr a => Ok a
  end.

(** An [IPNetwork] object of [netaddr]. *)
Record IPNetwork := { ip_cidr : string; ip_version : Z }.

(** The library functions and process-wide constants the plugin is run with.
    [json_loads] is [None] where [json.loads] raises ValueError;
    [IPNetwork_new] is [inl e] where the constructor raises [e]. *)
Class PyLib := {
  json_loads : string -> option json;
  json_dumps : json -> string;
  IPNetwork_new : json -> pyerr + IPNetwork;
  HOSTNAME : string;
  ORCHESTRATOR_ID : string;
}.

(** ** Constants *)

(** [constants.py] is not among the sources.  The names of the environment
    variables and of the two commands are those of the EnvContract table of
    the specification; [HOSTNAME] and [ORCHESTRATOR_ID] are parameters, see
    [PyLib]. *)

(** Modelled from the spec: the constant [CNI_COMMAND_ENV] of [constants.py],
    row CNI_COMMAND of the EnvContract table. *)
Definition CNI_COMMAND_ENV := "CNI_COMMAND".

(** Modelled from the spec: the constant [CNI_CONTAINERID_ENV] of
    [constants.py], row CNI_CONTAINERID of the EnvContract table. *)
Definition CNI_CONTAINERID_ENV := "CNI_CONTAINERID".

(** Modelled from the spec: the constant [CNI_NETNS_ENV] of [constants.py],
    row CNI_NETNS of the EnvContract table. *)
Definition CNI_NETNS_ENV := "CNI_NETNS".

(** Modelled from the spec: the constant [CNI_IFNAME_ENV] of [constants.py],
    row CNI_IFNAME of the EnvContract table. *)
Definition CNI_IFNAME_ENV := "CNI_IFNAME".

(** Modelled from the spec: the constant [CNI_ARGS_ENV] of [constants.py],
    row CNI_ARGS of the EnvContract table. *)
Definition CNI_ARGS_ENV := "CNI_ARGS".

(** Modelled from the spec: the constant [CNI_PATH_ENV] of [constants.py],
    row CNI_PATH of the EnvContract table. *)
Definition CNI_PATH_ENV := "CNI_PATH".

(** Modelled from the spec: the constant [CNI_CMD_ADD] of [constants.py],
    the value ADD of CNI_COMMAND. *)
Definition CNI_CMD_ADD := "ADD".

(** Modelled from the spec: the constant [CNI_CMD_DELETE] of [constants.py],
    the value DEL of CNI_COMMAND. *)
Definition CNI_CMD_DELETE := "DEL".

(** ** The host: collaborators of the plugin

    The IPAM child, the file system, Docker, the pycalico datastore client and
    the netns helpers live outside the plugin.  They are modelled by the
    interface of sections 4.2 to 4.6 of the specification: a state (endpoints
    per workload, veths on the host), the answers of the read-only services,
    and a [fault] table that makes a given operation raise instead of acting. *)

Record Endpoint := {
  ep_hostname : string;
  ep_orchestrator : string;
  ep_workload : string;
  ep_name : string;
  ep_mac : option string;
  ep_nets : list IPNetwork;
}.

Abbreviation workload_key := (string * string * string)%type.

Inductive Op :=
| OpDockerInspect | OpPopen
| OpCreateEndpoint | OpProvisionVeth | OpSetEndpoint | OpSetProfile
| OpGetEndpoint | OpRemoveVeth | OpRemoveWorkload | OpRemoveProfile.

Inductive Event :=
| EvDockerInspect (container_id : string)
| EvSpawn (path stdin : string)
| EvCreateEndpoint (key : workload_key) (nets : list IPNetwork)
| EvProvisionVeth (name netns_path interface : string)
| EvSetEndpoint (ep : Endpoint)
| EvSetProfile (profile : string) (ep : Endpoint)
| EvGetEndpoint (key : workload_key)
| EvRemoveVeth (name : string)
| EvRemoveWorkload (key : workload_key)
| EvRemoveProfile (profile : string)
| EvStdout (text : string).

Record World := {
  cwd : string;
  isfile : string -> bool;
  ipam_child : gmap string string -> string -> string -> Z * string;
  docker_host_mode : string -> bool;
  new_endpoint_name : string -> string;
  new_mac : string;
  fault : Op -> option pyerr;
  datastore : gmap workload_key (list Endpoint);
  veths : gset string;
  trace : list Event;
}.

Definition log (ev : Event) (w : World) : World :=
  {| cwd := cwd w; isfile := isfile w; ipam_child := ipam_child w;
     docker_host_mode := docker_host_mode w;
     new_endpoint_name := new_endpoint_name w; new_mac := new_mac w;
     fault := fault w; datastore := datastore w; veths := veths w;
     trace := trace w ++ [ev] |}.

Definition set_datastore (d : gmap workload_key (list Endpoint)) (w : World) : World :=
  {| cwd := cwd w; isfile := isfile w; ipam_child := ipam_child w;
     docker_host_mode := docker_host_mode w;
     new_endpoint_name := new_endpoint_name w; new_mac := new_mac w;
     fault := fault w; datastore := d; veths := veths w;
     trace := trace w |}.

Definition set_veths (v : gset string) (w : World) : World :=
  {| cwd := cwd w; isfile := isfile w; ipam_child := ipam_child w;
     docker_host_mode := docker_host_mode w;
     new_endpoint_name := new_endpoint_name w; new_mac := new_mac w;
     fault := fault w; datastore := datastore w; veths := v;
     trace := trace w |}.

(** The endpoints stored under a workload key. *)
Definition endpoints_under (w : World) (key : workload_key) : list Endpoint :=
  default [] (datastore w !! key).

(** What the plugin has written to standard output: [print] adds a newline. *)
Fixpoint stdout_of (evs : list Event) : string :=
  match evs with
  | [] => ""
  | EvStdout text :: rest => text +:+ String PyStr.LF "" +:+ stdout_of rest
  | _ :: rest => stdout_of rest
  end.

Definition is_spawn (ev : Event) : bool :=
  match ev with EvSpawn _ _ => true | _ => false end.

(** How many times the IPAM child was started. *)
Definition spawn_count (evs : list Event) : nat :=
  List.length (List.filter is_spawn evs).

(** ** The monad of plugin code: state of the host, exceptions, [sys.exit] *)

Definition M (A : Type) : Type := World -> result A * World.

Definition ret {A} (a : A) : M A := fun w => (Ok a, w).

Definition bind {A B} (m : M A) (k : A -> M B) : M B :=
  fun w =>
    match m w with
    | (Ok a, w') => k a w'
    | (Raise e, w') => (Raise e, w')
    | (Exit c, w') => (Exit c, w')
    end.

Definition raise {A} (e : pyerr) : M A := fun w => (Raise e, w).

(** [sys.exit(code)] *)
Definition sys_exit {A} (code : Z) : M A := fun w => (Exit code, w).

Definition lift {A} (r : result A) : M A := fun w => (r, w).

(** [try: m  except ...: handler]; the handler answers [None] for the
    exceptions no clause names, which go on propagating.  SystemExit is not an
    [Exception] such clauses could name. *)
Definition try_except {A} (m : M A) (handler : pyerr -> option (M A)) : M A :=
  fun w =>
    match m w with
    | (Raise e, w') =>
        match handler e with
        | Some h => h w'
        | None => (Raise e, w')
        end
    | other => other
    end.

Notation "x <- m ;; k" := (bind m (fun x => k))
  (at level 100, m at next level, right associativity).
Notation "m ;;; k" := (bind m (fun _ => k))
  (at level 100, right associativity).

(** A call to a collaborator: it is recorded, then either the fault table
    makes it raise or it acts. *)
Definition call {A} (op : Op) (ev : Event) (act : M A) : M A :=
  fun w =>
    let w1 := log ev w in
    match fault w1 op with
    | Some e => (Raise e, w1)
    | None => act w1
    end.

Section Collaborators.
Context `{PyLib}.

(** [Popen(plugin_path, ...)] then [p.communicate(stdin)]: the child runs in
    the environment of the plugin. *)
Definition popen_communicate (env : gmap string string) (plugin_path stdin : string)
    : M (Z * string) :=
  call OpPopen (EvSpawn plugin_path stdin)
       (fun w => (Ok (ipam_child w env plugin_path stdin), w)).

(** [DatastoreClient.create_endpoint]: the endpoint of the data model, created
    under its workload key with the interface name the datastore assigns. *)
Definition create_endpoint (hostname orchestrator_id workload_id : string)
    (ip_list : list IPNetwork) : M Endpoint :=
  let key := (hostname, orchestrator_id, workload_id) in
  call OpCreateEndpoint (EvCreateEndpoint key ip_list)
       (fun w =>
          let ep := {| ep_hostname := hostname; ep_orchestrator := orchestrator_id;
                       ep_workload := workload_id;
                       ep_name := new_endpoint_name w workload_id;
                       ep_mac := None; ep_nets := ip_list |} in
          (Ok ep, set_datastore (<[key := endpoints_under w key ++ [ep]]> (datastore w)) w)).

Definition ep_key (ep : Endpoint) : workload_key :=
  (ep_hostname ep, ep_orchestrator ep, ep_workload ep).

Definition replace_endpoint (ep : Endpoint) (eps : list Endpoint) : list Endpoint :=
  if existsb (fun e => String.eqb (ep_name e) (ep_name ep)) eps
  then map (fun e => if String.eqb (ep_name e) (ep_name ep) then ep else e) eps
  else eps ++ [ep].

(** [DatastoreClient.set_endpoint]: an idempotent update of the stored
    endpoint. *)
Definition set_endpoint (ep : Endpoint) : M unit :=
  call OpSetEndpoint (EvSetEndpoint ep)
       (fun w =>
          (Ok tt, set_datastore
                    (<[ep_key ep := replace_endpoint ep (endpoints_under w (ep_key ep))]>
                       (datastore w)) w)).

(** [DatastoreClient.get_endpoint]: KeyError when nothing matches,
    MultipleEndpointsMatch when several do. *)
Definition get_endpoint (hostname orchestrator_id workload_id : string) : M Endpoint :=
  let key := (hostname, orchestrator_id, workload_id) in
  call OpGetEndpoint (EvGetEndpoint key)
       (fun w =>
          match endpoints_under w key with
          | [] => (Raise (KeyError workload_id), w)
          | [ep] => (Ok ep, w)
          | _ :: _ :: _ => (Raise MultipleEndpointsMatch, w)
          end).

(** [DatastoreClient.remove_workload]: KeyError when the workload is unknown. *)
Definition remove_workload (hostname orchestrator_id workload_id : string) : M unit :=
  let key := (hostname, orchestrator_id, workload_id) in
  call OpRemoveWorkload (EvRemoveWorkload key)
       (fun w =>
          match datastore w !! key with
          | None => (Raise (KeyError workload_id), w)
          | Some _ => (Ok tt, set_datastore (delete key (datastore w)) w)
          end).

(** [endpoint.provision_veth(Namespace(netns_path), interface)]: returns the
    MAC address of the container side. *)
Definition provision_veth (ep : Endpoint) (netns_path interface : string) : M string :=
  call OpProvisionVeth (EvProvisionVeth (ep_name ep) netns_path interface)
       (fun w => (Ok (new_mac w), set_veths ({[ep_name ep]} ∪ veths w) w)).

(** [netns.remove_veth(name)]: whether there was such a veth. *)
Definition remove_veth (name : string) : M bool :=
  call OpRemoveVeth (EvRemoveVeth name)
       (fun w => (Ok (bool_decide (name ∈ veths w)), set_veths (veths w ∖ {[name]}) w)).

End Collaborators.

(** ** Container engines and policy drivers *)

Inductive ContainerEngine := DefaultEngine | DockerEngine.

Inductive PolicyDriver :=
| DefaultPolicyDriver (profile_name : string)
| KubernetesDefaultPolicyDriver.

(** Modelled from the spec: [container_engines.py] is not among the sources.
    Section 4.5: the default probe answers false unconditionally, the
    Docker-aware one asks the Docker runtime whether the network mode of the
    container is [host]. *)
Definition uses_host_networking (engine : ContainerEngine) (container_id : string)
    : M bool :=
  match engine with
  | DefaultEngine => ret false
  | DockerEngine =>
      call OpDockerInspect (EvDockerInspect container_id)
           (fun w => (Ok (docker_host_mode w container_id), w))
  end.

(** The characters of a network name, [[A-Za-z0-9._-]]. *)
Definition network_name_char (c : ascii) : bool :=
  PyStr.between 97 122 c || PyStr.between 65 90 c || PyStr.between 48 57 c
  || Nat.eqb (PyStr.code c) 46 || Nat.eqb (PyStr.code c) 95
  || Nat.eqb (PyStr.code c) 45.

(** Modelled from the spec: [policy_drivers.py] is not among the sources.
    Section 4.6: construction of the per-network driver fails (ValueError in
    the plugin's [except] clause) if the network name does not match
    [[A-Za-z0-9._-]+]. *)
Definition DefaultPolicyDriver_new (network_name : json) : result PolicyDriver :=
  match network_name with
  | JString name =>
      if negb (PyStr.is_empty name) && PyStr.all_chars network_name_char name
      then Ok (DefaultPolicyDriver name)
      else Raise ValueError
  | _ => Raise ValueError
  end.

(** Modelled from the spec: section 4.6, the per-network driver attaches the
    profile named after the network; the orchestrator default does nothing. *)
Definition set_profile (driver : PolicyDriver) (ep : Endpoint) : M unit :=
  match driver with
  | DefaultPolicyDriver name => call OpSetProfile (EvSetProfile name ep) (ret tt)
  | KubernetesDefaultPolicyDriver => ret tt
  end.

(** Modelled from the spec: section 4.6, as [set_profile]. *)
Definition remove_profile (driver : PolicyDriver) : M unit :=
  match driver with
  | DefaultPolicyDriver name => call OpRemoveProfile (EvRemoveProfile name) (ret tt)
  | KubernetesDefaultPolicyDriver => ret tt
  end.

(** ** The plugin: [class CniPlugin] *)

Record CniPlugin := {
  network_config : json;
  env : gmap string string;
  command : string;
  container_id : string;
  cni_netns : string;
  interface : string;
  cni_args : gmap string string;
  cni_path : string;
  network_name : json;
  ipam_result : json;
  policy_driver : PolicyDriver;
  container_engine : ContainerEngine;
}.

(** [self.ipam_result = r] *)
Definition set_ipam_result (r : json) (self : CniPlugin) : CniPlugin :=
  {| network_config := network_config self; env := env self;
     command := command self; container_id := container_id self;
     cni_netns := cni_netns self; interface := interface self;
     cni_args := cni_args self; cni_path := cni_path self;
     network_name := network_name self; ipam_result := r;
     policy_driver := policy_driver self;
     container_engine := container_engine self |}.

(** [endpoint.mac = mac] *)
Definition set_mac (mac : string) (ep : Endpoint) : Endpoint :=
  {| ep_hostname := ep_hostname ep; ep_orchestrator := ep_orchestrator ep;
     ep_workload := ep_workload ep; ep_name := ep_name ep;
     ep_mac := Some mac; ep_nets := ep_nets ep |}.

Section Plugin.
Context `{PyLib}.

(** [CniPlugin._get_container_engine], from [self.cni_args]. *)
Definition _get_container_engine (cni_args : gmap string string) : ContainerEngine :=
  if bool_decide (is_Some (cni_args !! "K8S_POD_NAME"))
  then DockerEngine
  else DefaultEngine.

(** [CniPlugin._get_policy_driver], from [self.cni_args] and
    [self.network_name]. *)
Definition _get_policy_driver (cni_args : gmap string string) (network_name : json)
    : result PolicyDriver :=
  match cni_args !! "K8S_POD_NAME" with
  | None =>
      match DefaultPolicyDriver_new network_name with
      | Raise ValueError => Exit 1
      | driver => driver
      end
  | Some _ => Ok KubernetesDefaultPolicyDriver
  end.

(** [CniPlugin.__init__].  Creating the [DatastoreClient] and the log
    messages are left out. *)
Definition CniPlugin_init (network_config : json) (env : gmap string string)
    : result CniPlugin :=
  rbind (env_get env CNI_COMMAND_ENV) (fun command =>
  rbind (env_get env CNI_CONTAINERID_ENV) (fun container_id =>
  rbind (env_get env CNI_NETNS_ENV) (fun cni_netns =>
  rbind (env_get env CNI_IFNAME_ENV) (fun interface =>
  rbind (env_get env CNI_ARGS_ENV) (fun args =>
  let cni_args := parse_cni_args args in
  rbind (env_get env CNI_PATH_ENV) (fun cni_path =>
  rbind (getitem network_config "name") (fun network_name =>
  rbind (_get_policy_driver cni_args network_name) (fun policy_driver =>
  Ok {| network_config := network_config; env := env; command := command;
        container_id := container_id; cni_netns := cni_netns;
        interface := interface; cni_args := cni_args; cni_path := cni_path;
        network_name := network_name; ipam_result := JNull;
        policy_driver := policy_driver;
        container_engine := _get_container_engine cni_args |})))))))).

(** The loop of [_find_ipam_plugin] over the directories of CNI_PATH. *)
Fixpoint find_in_path (w : World) (plugin_type : string) (paths : list string)
    : string :=
  match paths with
  | [] => ""
  | path :: rest =>
      let temp_path := OsPath.abspath (cwd w) (OsPath.join path plugin_type) in
      if isfile w temp_path then temp_path
      else find_in_path w plugin_type rest
  end.

(** [CniPlugin._find_ipam_plugin]; [os.path.join] needs a string. *)
Definition _find_ipam_plugin (self : CniPlugin) : M string :=
  ipam <- lift (getitem (network_config self) "ipam") ;;
  plugin_type <- lift (getitem ipam "type") ;;
  match plugin_type with
  | JString plugin_type =>
      fun w => (Ok (find_in_path w plugin_type (PyStr.split ":" (cni_path self))), w)
  | _ => raise AttributeError
  end.

(** [CniPlugin._call_ipam_plugin] *)
Definition _call_ipam_plugin (self : CniPlugin) : M (Z * string) :=
  plugin_path <- _find_ipam_plugin self ;;
  if PyStr.is_empty plugin_path then sys_exit 1
  else popen_communicate (env self) plugin_path (json_dumps (network_config self)).

(** [CniPlugin._assign_ip]; returns the plugin with [ipam_result] set. *)
Definition _assign_ip (self : CniPlugin) : M (CniPlugin * IPNetwork) :=
  r <- _call_ipam_plugin self ;;
  if negb (Z.eqb r.1 0) then sys_exit r.1
  else
    match json_loads r.2 with
    | None => sys_exit 1
    | Some doc =>
        let self := set_ipam_result doc self in
        assigned_ip <-
          try_except
            (lift (rbind (getitem (ipam_result self) "ip4") (fun ip4 =>
                   rbind (getitem ip4 "ip") (fun ip => of_sum (IPNetwork_new ip)))))
            (fun e =>
               match e with
               | KeyError _ => Some (sys_exit 1)
               | AddrFormatError | ValueError => Some (sys_exit 1)
               | _ => None
               end) ;;
        ret (self, assigned_ip)
    end.

(** [CniPlugin._release_ip] *)
Definition _release_ip (self : CniPlugin) : M unit :=
  _call_ipam_plugin self ;;; ret tt.

(** [CniPlugin._create_endpoint] *)
Definition _create_endpoint (self : CniPlugin) (assigned_ip : IPNetwork) : M Endpoint :=
  try_except
    (create_endpoint HOSTNAME ORCHESTRATOR_ID (container_id self) [assigned_ip])
    (fun e =>
       match e with
       | AddrFormatError => Some (sys_exit 1)
       | KeyError _ => Some (sys_exit 1)
       | _ => None
       end).

(** [CniPlugin._remove_endpoint] *)
Definition _remove_endpoint (self : CniPlugin) : M unit :=
  try_except
    (remove_workload HOSTNAME ORCHESTRATOR_ID (container_id self))
    (fun e =>
       match e with
       | KeyError _ => Some (ret tt)
       | _ => None
       end).

(** [CniPlugin._provision_veth] *)
Definition _provision_veth (self : CniPlugin) (endpoint : Endpoint) : M Endpoint :=
  fun w =>
    let netns_path := OsPath.abspath (cwd w) (OsPath.join (cwd w) (cni_netns self)) in
    (mac <- provision_veth endpoint netns_path (interface self) ;;
     let endpoint := set_mac mac endpoint in
     set_endpoint endpoint ;;;
     ret endpoint) w.

(** [CniPlugin._get_endpoint]; [None] is Python's [None]. *)
Definition _get_endpoint (self : CniPlugin) : M (option Endpoint) :=
  try_except
    (endpoint <- get_endpoint HOSTNAME ORCHESTRATOR_ID (container_id self) ;;
     ret (Some endpoint))
    (fun e =>
       match e with
       | KeyError _ => Some (ret None)
       | MultipleEndpointsMatch => Some (sys_exit 1)
       | _ => None
       end).

(** [print(dump)] *)
Definition print (dump : string) : M unit :=
  fun w => (Ok tt, log (EvStdout dump) w).

(** [CniPlugin.add] *)
Definition add (self : CniPlugin) : M unit :=
  host <- uses_host_networking (container_engine self) (container_id self) ;;
  if host then sys_exit 0
  else
    r <- _assign_ip self ;;
    let self := r.1 in
    let assigned_ip := r.2 in
    endpoint <- _create_endpoint self assigned_ip ;;
    endpoint <- _provision_veth self endpoint ;;
    set_profile (policy_driver self) endpoint ;;;
    let dump := json_dumps (ipam_result self) in
    print dump.

(** [CniPlugin.delete] *)
Definition delete (self : CniPlugin) : M unit :=
  _release_ip self ;;;
  endpoint <- _get_endpoint self ;;
  match endpoint with
  | None => sys_exit 0
  | Some endpoint =>
      remove_veth (ep_name endpoint) ;;;
      _remove_endpoint self ;;;
      remove_profile (policy_driver self)
  end.

(** [CniPlugin._execute] *)
Definition _execute (self : CniPlugin) : M unit :=
  if String.eqb (command self) CNI_CMD_ADD then add self
  else if negb (String.eqb (command self) CNI_CMD_DELETE) then raise AssertionError
  else delete self.

(** [CniPlugin.execute]: the return code of the plugin. *)
Definition execute (self : CniPlugin) (w : World) : Z * World :=
  match _execute self w with
  | (Ok _, w') => (0%Z, w')
  | (Exit code, w') => (code, w')
  | (Raise _, w') => (1%Z, w')
  end.

(** The status of a process that ends in [sys.exit(code)]: the low eight bits
    of [code], as [exit] keeps them. *)
Definition exit_status (code : Z) : Z := (code mod 256)%Z.

(** [main]: the status the process exits with.  [sys.exit(plugin.execute())]
    and a [sys.exit] of the constructor end it with the status of their
    argument; an exception that reaches the top level ends the interpreter
    with status 1; logging is left out. *)
Definition main (stdin : string) (environ : gmap string string) (w : World)
    : Z * World :=
  let config_raw := PyStr.remove_char PyStr.LF stdin in
  match json_loads config_raw with
  | None => (1%Z, w)
  | Some (JDict items) =>
      match CniPlugin_init (JDict items) environ with
      | Ok plugin => (exit_status (execute plugin w).1, (execute plugin w).2)
      | Exit code => (exit_status code, w)
      | Raise _ => (1%Z, w)
      end
  | Some _ => (1%Z, w)
  end.

End Plugin.

(** ** Predicates used to state the facts *)

Section Statements.
Context `{PyLib}.

(** The codes a computation can exit with all satisfy [S]. *)
Definition exits_in {A} (S : Z -> Prop) (m : M A) : Prop :=
  forall w, match (m w).1 with Exit c => S c | _ => True end.

(** [w'] is [w] after events that start no IPAM child and print nothing. *)
Definition silent_step (w w' : World) : Prop :=
  exists evs, trace w' = trace w ++ evs
              /\ stdout_of evs = "" /\ spawn_count evs = 0%nat.

Definition silent {A} (m : M A) : Prop := forall w, silent_step w (m w).2.

(** What follows a successful [_assign_ip] in [add]. *)
Definition add_steps (self : CniPlugin) (assigned_ip : IPNetwork) : M unit :=
  endpoint <- _create_endpoint self assigned_ip ;;
  endpoint <- _provision_veth self endpoint ;;
  set_profile (policy_driver self) endpoint ;;;
  print (json_dumps (ipam_result self)).

(** The steps of [add] between the IPAM child and [print]. *)
Definition add_effects (self : CniPlugin) (assigned_ip : IPNetwork) : M unit :=
  endpoint <- _create_endpoint self assigned_ip ;;
  endpoint <- _provision_veth self endpoint ;;
  set_profile (policy_driver self) endpoint.

(** The plugin stopped because the IPAM child it started for an ADD returned
    a code other than zero: [r] is what [execute] returned. *)
Definition ipam_failure (self : CniPlugin) (w : World) (r : Z * World) : Prop :=
  command self = CNI_CMD_ADD
  /\ exists w1 plugin_path out,
       uses_host_networking (container_engine self) (container_id self) w = (Ok false, w1)
       /\ (_find_ipam_plugin self w1).1 = Ok plugin_path
       /\ PyStr.is_empty plugin_path = false
       /\ fault w1 OpPopen = None
       /\ ipam_child w1 (env self) plugin_path (json_dumps (network_config self))
          = (r.1, out)
       /\ r.1 <> 0%Z
       /\ r.2 = log (EvSpawn plugin_path (json_dumps (network_config self))) w1.

(** [_execute] ran to its end, or called [sys.exit(0)]. *)
Definition succeeded {A} (r : result A) : Prop :=
  match r with
  | Ok _ => True
  | Exit code => code = 0%Z
  | Raise _ => False
  end.

(** No fault, or one the DELETE path takes for "not found". *)
Definition none_or_not_found (f : option pyerr) : Prop :=
  match f with
  | None | Some (KeyError _) => True
  | Some _ => False
  end.

(** The variables [CniPlugin.__init__] reads, in the order it reads them. *)
Definition required_env : list string :=
  [CNI_COMMAND_ENV; CNI_CONTAINERID_ENV; CNI_NETNS_ENV; CNI_IFNAME_ENV;
   CNI_ARGS_ENV; CNI_PATH_ENV].

(** The EnvContract table of the specification: CNI_COMMAND is ADD or DEL,
    CNI_CONTAINERID and CNI_PATH are required, CNI_NETNS and CNI_IFNAME are
    required on ADD, CNI_ARGS is optional. *)
Definition EnvContract (environ : gmap string string) : bool :=
  match environ !! CNI_COMMAND_ENV with
  | Some cmd =>
      (String.eqb cmd CNI_CMD_ADD || String.eqb cmd CNI_CMD_DELETE)
      && bool_decide (is_Some (environ !! CNI_CONTAINERID_ENV))
      && bool_decide (is_Some (environ !! CNI_PATH_ENV))
      && (negb (String.eqb cmd CNI_CMD_ADD)
          || bool_decide (is_Some (environ !! CNI_NETNS_ENV))
             && bool_decide (is_Some (environ !! CNI_IFNAME_ENV)))
  | None => false
  end.

(** The path [_find_ipam_plugin] tests for the directory [dir]. *)
Definition probe (w : World) (plugin_type dir : string) : string :=
  OsPath.abspath (cwd w) (OsPath.join dir plugin_type).

End Statements.

(** ** What one invocation may do to the host *)

Section Steps.
Context `{PyLib}.

(** The key of the workload of this plugin in the datastore. *)
Definition own_key (self : CniPlugin) : workload_key :=
  (HOSTNAME, ORCHESTRATOR_ID, container_id self).

(** The calls [add] makes, with what it hands to them. *)
Definition add_event (self : CniPlugin) (w : World) (ev : Event) : Prop :=
  match ev with
  | EvDockerInspect c => c = container_id self
  | EvSpawn path stdin =>
      isfile w path = true /\ stdin = json_dumps (network_config self)
  | EvCreateEndpoint key nets => key = own_key self /\ List.length nets = 1%nat
  | EvProvisionVeth _ _ iface => iface = interface self
  | EvSetEndpoint ep => ep_key ep = own_key self /\ is_Some (ep_mac ep)
  | EvSetProfile name _ => policy_driver self = DefaultPolicyDriver name
  | EvStdout _ => True
  | EvGetEndpoint _ | EvRemoveVeth _ | EvRemoveWorkload _ | EvRemoveProfile _ => False
  end.

(** One step of an ADD: a call is recorded, the endpoints stored under the
    key of the workload are replaced by as many or more, or a veth appears. *)
Inductive add_step (self : CniPlugin) (w : World) : World -> Prop :=
| add_call ev :
    add_event self w ev -> add_step self w (log ev w)
| add_store eps :
    (List.length (endpoints_under w (own_key self)) <= List.length eps)%nat ->
    add_step self w (set_datastore (<[own_key self := eps]> (datastore w)) w)
| add_veth name :
    add_step self w (set_veths ({[name]} ∪ veths w) w).

(** The calls [delete] makes, with what it hands to them. *)
Definition del_event (self : CniPlugin) (w : World) (ev : Event) : Prop :=
  match ev with
  | EvSpawn path stdin =>
      isfile w path = true /\ stdin = json_dumps (network_config self)
  | EvGetEndpoint key | EvRemoveWorkload key => key = own_key self
  | EvRemoveVeth _ => True
  | EvRemoveProfile name => policy_driver self = DefaultPolicyDriver name
  | EvDockerInspect _ | EvCreateEndpoint _ _ | EvProvisionVeth _ _ _
  | EvSetEndpoint _ | EvSetProfile _ _ | EvStdout _ => False
  end.

(** One step of a DELETE: a call is recorded, the workload is forgotten, or a
    veth disappears. *)
Inductive del_step (self : CniPlugin) (w : World) : World -> Prop :=
| del_call ev :
    del_event self w ev -> del_step self w (log ev w)
| del_forget :
    del_step self w (set_datastore (base.delete (own_key self) (datastore w)) w)
| del_veth name :
    del_step self w (set_veths (veths w ∖ {[name]}) w).

(** [m] moves the host along [R], and returns values in [Q] only. *)
Definition ensures {A} (R : World -> World -> Prop) (Q : A -> Prop) (m : M A) : Prop :=
  forall w, R w (m w).2 /\ match (m w).1 with Ok a => Q a | _ => True end.

(** The services of the host answer in [w'] as they do in [w]. *)
Definition same_host (w w' : World) : Prop :=
  cwd w' = cwd w /\ isfile w' = isfile w /\ ipam_child w' = ipam_child w
  /\ docker_host_mode w' = docker_host_mode w
  /\ new_endpoint_name w' = new_endpoint_name w /\ new_mac w' = new_mac w
  /\ fault w' = fault w.

(** The endpoint [create_endpoint] returns to an ADD. *)
Definition created_endpoint (self : CniPlugin) (w : World) (net : IPNetwork) : Endpoint :=
  {| ep_hostname := HOSTNAME; ep_orchestrator := ORCHESTRATOR_ID;
     ep_workload := container_id self;
     ep_name := new_endpoint_name w (container_id self);
     ep_mac := None; ep_nets := [net] |}.

(** The same endpoint with the MAC address [provision_veth] returns. *)
Definition added_endpoint (self : CniPlugin) (w : World) (net : IPNetwork) : Endpoint :=
  set_mac (new_mac w) (created_endpoint self w net).

(** The network namespace handed to [provision_veth]. *)
Definition netns_path (self : CniPlugin) (w : World) : string :=
  OsPath.abspath (cwd w) (OsPath.join (cwd w) (cni_netns self)).

(** An ADD got as far as an address: the engine probe answered that the
    container does not use host networking and left the host as [w1], the
    IPAM binary [plugin_path] was found and started, it returned code 0 and
    the document [doc], whose [ip4.ip] reads as the network [net]. *)
Definition address_assigned (self : CniPlugin) (w w1 : World) (plugin_path : string)
    (doc : json) (net : IPNetwork) : Prop :=
  command self = CNI_CMD_ADD
  /\ uses_host_networking (container_engine self) (container_id self) w = (Ok false, w1)
  /\ (_find_ipam_plugin self w).1 = Ok plugin_path
  /\ PyStr.is_empty plugin_path = false
  /\ fault w OpPopen = None
  /\ exists out ip4 ip,
       ipam_child w (env self) plugin_path (json_dumps (network_config self))
       = (0%Z, out)
       /\ json_loads out = Some doc
       /\ getitem doc "ip4" = Ok ip4
       /\ getitem ip4 "ip" = Ok ip
       /\ IPNetwork_new ip = inr net.

(** A DELETE got as far as the endpoint lookup: the IPAM binary
    [plugin_path] was found and started. *)
Definition release_attempted (self : CniPlugin) (w : World) (plugin_path : string)
    : Prop :=
  command self = CNI_CMD_DELETE
  /\ (_find_ipam_plugin self w).1 = Ok plugin_path
  /\ PyStr.is_empty plugin_path = false
  /\ fault w OpPopen = None.

(** [<dir>/<ipam.type>], the path the specification probes for a directory
    of CNI_PATH. *)
Definition spec_probe (dir plugin_type : string) : string :=
  dir +:+ "/" +:+ plugin_type.

(** A directory of CNI_PATH that is not empty and is written without a
    final slash. *)
Definition plain_dir (dir : string) : bool :=
  negb (PyStr.is_empty dir) && negb (PyStr.endswith_char "/" dir).

(** The configuration on standard input is a JSON object, and [plugin] is
    what the constructor makes of it and of the environment. *)
Definition constructed (stdin : string) (environ : gmap string string)
    (plugin : CniPlugin) : Prop :=
  exists items,
    json_loads (PyStr.remove_char PyStr.LF stdin) = Some (JDict items)
    /\ CniPlugin_init (JDict items) environ = Ok plugin.

(** The return codes [Popen] reports: the exit status of the child, or minus
    the number of the signal that killed it. *)
Definition popen_codes (w : World) : Prop :=
  forall env plugin_path stdin,
    (-256 < (ipam_child w env plugin_path stdin).1 < 256)%Z.

(** The call to the policy driver, if the driver makes one. *)
Definition profile_events (self : CniPlugin) (ev : string -> Event) : list Event :=
  match policy_driver self with
  | DefaultPolicyDriver name => [ev name]
  | KubernetesDefaultPolicyDriver => []
  end.

End Steps.

(** ** A concrete library and host, to run the plugin on examples

    [json] for documents made of objects, arrays, strings of printable ASCII
    with the short escapes, integers, [true], [false] and [null]; floats and
    [\u] escapes are outside this model of the library ([json_loads] answers
    [None] on them).  Dictionaries keep the order of the document.
    [IPNetwork] for dotted-quad IPv4 addresses with an optional prefix
    length, and for text no reading of [netaddr] accepts; the abbreviated
    addresses [netaddr] expands are outside this model. *)

Module PyJson.

Definition DQ : ascii := ascii_of_nat 34.
Definition BS : ascii := ascii_of_nat 92.

(** Write a document with apostrophes where it has quotation marks. *)
Fixpoint dq (s : string) : string :=
  match s with
  | EmptyString => EmptyString
  | String c s' => String (if Ascii.eqb c "'" then DQ else c) (dq s')
  end.

Definition is_ws (c : ascii) : bool :=
  Nat.eqb (PyStr.code c) 32 || Nat.eqb (PyStr.code c) 9
  || Nat.eqb (PyStr.code c) 10 || Nat.eqb (PyStr.code c) 13.

Fixpoint skip_ws (s : string) : string :=
  match s with
  | EmptyString => EmptyString
  | String c s' => if is_ws c then skip_ws s' else s
  end.

Definition unescape (e : ascii) : option ascii :=
  if Ascii.eqb e DQ then Some DQ
  else if Ascii.eqb e BS then Some BS
  else if Ascii.eqb e "/" then Some "/"%char
  else if Ascii.eqb e "b" then Some (ascii_of_nat 8)
  else if Ascii.eqb e "f" then Some (ascii_of_nat 12)
  else if Ascii.eqb e "n" then Some (ascii_of_nat 10)
  else if Ascii.eqb e "r" then Some (ascii_of_nat 13)
  else if Ascii.eqb e "t" then Some (ascii_of_nat 9)
  else None.

(** The body of a string, after its opening quotation mark. *)
Fixpoint scan_string (s acc : string) : option (string * string) :=
  match s with
  | EmptyString => None
  | String c s' =>
      if Ascii.eqb c DQ then Some (acc, s')
      else if Ascii.eqb c BS then
        match s' with
        | String e s'' =>
            match unescape e with
            | Some x => scan_string s'' (acc +:+ String x "")
            | None => None
            end
        | EmptyString => None
        end
      else if Nat.ltb (PyStr.code c) 32 then None
      else scan_string s' (acc +:+ String c "")
  end.

Definition is_digit (c : ascii) : bool := PyStr.between 48 57 c.

Fixpoint digits_value (acc : Z) (s : string) : Z :=
  match s with
  | EmptyString => acc
  | String c s' => digits_value (acc * 10 + Z.of_nat (PyStr.code c - 48)) s'
  end.

Definition float_mark (c : ascii) : bool :=
  Ascii.eqb c "." || Ascii.eqb c "e" || Ascii.eqb c "E".

Definition scan_number (s : string) : option (Z * string) :=
  let neg := starts_in (fun c => Ascii.eqb c "-") s in
  let s1 := if neg then match s with String _ r => r | EmptyString => s end else s in
  let finish (v : Z) (rest : string) :=
    if starts_in float_mark rest then None
    else Some (if neg then (- v)%Z else v, rest) in
  match s1 with
  | String c r =>
      if Ascii.eqb c "0" then finish 0%Z r
      else if is_digit c then
        finish (digits_value 0 (span is_digit s1).1) (span is_digit s1).2
      else None
  | EmptyString => None
  end.

Fixpoint dict_set (k : string) (v : json) (items : list (string * json))
    : list (string * json) :=
  match items with
  | [] => [(k, v)]
  | (k', v') :: rest =>
      if String.eqb k' k then (k, v) :: rest else (k', v') :: dict_set k v rest
  end.

Definition drop_prefix (p s : string) : option string :=
  if String.prefix p s
  then Some (String.substring (String.length p) (String.length s - String.length p) s)
  else None.

Fixpoint scan_value (fuel : nat) (s : string) : option (json * string) :=
  match fuel with
  | O => None
  | S fuel =>
      match skip_ws s with
      | EmptyString => None
      | String c r =>
          if Ascii.eqb c DQ then
            match scan_string r "" with
            | Some (x, rest) => Some (JString x, rest)
            | None => None
            end
          else if Ascii.eqb c "{" then
            match skip_ws r with
            | String "}" rest => Some (JDict [], rest)
            | r' => scan_members fuel r' []
            end
          else if Ascii.eqb c "[" then
            match skip_ws r with
            | String "]" rest => Some (JList [], rest)
            | r' => scan_items fuel r' []
            end
          else
            match drop_prefix "true" (String c r), drop_prefix "false" (String c r),
                  drop_prefix "null" (String c r) with
            | Some rest, _, _ => Some (JBool true, rest)
            | _, Some rest, _ => Some (JBool false, rest)
            | _, _, Some rest => Some (JNull, rest)
            | _, _, _ =>
                match scan_number (String c r) with
                | Some (n, rest) => Some (JInt n, rest)
                | None => None
                end
            end
      end
  end
with scan_members (fuel : nat) (s : string) (acc : list (string * json))
    : option (json * string) :=
  match fuel with
  | O => None
  | S fuel =>
      match s with
      | String c r =>
          if Ascii.eqb c DQ then
            match scan_string r "" with
            | Some (k, r1) =>
                match skip_ws r1 with
                | String ":" r2 =>
                    match scan_value fuel r2 with
                    | Some (v, r3) =>
                        match skip_ws r3 with
                        | String "," r4 => scan_members fuel (skip_ws r4) (dict_set k v acc)
                        | String "}" r4 => Some (JDict (dict_set k v acc), r4)
                        | _ => None
                        end
                    | None => None
                    end
                | _ => None
                end
            | None => None
            end
          else None
      | EmptyString => None
      end
  end
with scan_items (fuel : nat) (s : string) (acc : list json)
    : option (json * string) :=
  match fuel with
  | O => None
  | S fuel =>
      match scan_value fuel s with
      | Some (v, r1) =>
          match skip_ws r1 with
          | String "," r2 => scan_items fuel r2 (acc ++ [v])
          | String "]" r2 => Some (JList (acc ++ [v]), r2)
          | _ => None
          end
      | None => None
      end
  end.

(** [json.loads] *)
Definition loads (s : string) : option json :=
  match scan_value (S (String.length s)) s with
  | Some (v, rest) => if PyStr.is_empty (skip_ws rest) then Some v else None
  | None => None
  end.

Definition hex_digit (n : nat) : ascii :=
  if Nat.ltb n 10 then ascii_of_nat (48 + n) else ascii_of_nat (87 + n).

Definition escape_char (c : ascii) : string :=
  let n := PyStr.code c in
  if Ascii.eqb c DQ then String BS (String DQ "")
  else if Ascii.eqb c BS then String BS (String BS "")
  else if Nat.eqb n 10 then String BS "n"
  else if Nat.eqb n 13 then String BS "r"
  else if Nat.eqb n 9 then String BS "t"
  else if Nat.eqb n 8 then String BS "b"
  else if Nat.eqb n 12 then String BS "f"
  else if PyStr.between 32 126 c then String c ""
  else String BS ("u00" +:+ String (hex_digit (n / 16)) (String (hex_digit (n mod 16)) "")).

Fixpoint escape (s : string) : string :=
  match s with
  | EmptyString => EmptyString
  | String c s' => escape_char c +:+ escape s'
  end.

Definition quote (s : string) : string :=
  String DQ (escape s +:+ String DQ "").

(** [json.dumps] with its default separators. *)
Fixpoint dumps (v : json) : string :=
  match v with
  | JNull => "null"
  | JBool true => "true"
  | JBool false => "false"
  | JInt n => pretty n
  | JFloat r => r
  | JString s => quote s
  | JList items => "[" +:+ PyStr.join ", " (map dumps items) +:+ "]"
  | JDict items =>
      "{" +:+ PyStr.join ", " (map (fun '(k, x) => quote k +:+ ": " +:+ dumps x) items)
      +:+ "}"
  end.

Definition decimal (s : string) : option Z :=
  if negb (PyStr.is_empty s) && PyStr.all_chars is_digit s
  then Some (digits_value 0 s) else None.

Definition octet_ok (s : string) : bool :=
  match decimal s with
  | Some n => Z.leb n 255
  | None => false
  end.

(** [IPNetwork(v)] *)
Definition ipnetwork (v : json) : pyerr + IPNetwork :=
  match v with
  | JString s =>
      match PyStr.split "/" s with
      | [addr] =>
          if Nat.eqb (List.length (PyStr.split "." addr)) 4
             && forallb octet_ok (PyStr.split "." addr)
          then inr {| ip_cidr := addr +:+ "/32"; ip_version := 4 |}
          else inl AddrFormatError
      | [addr; prefix] =>
          if Nat.eqb (List.length (PyStr.split "." addr)) 4
             && forallb octet_ok (PyStr.split "." addr)
             && match decimal prefix with Some n => Z.leb n 32 | None => false end
          then inr {| ip_cidr := s; ip_version := 4 |}
          else inl AddrFormatError
      | _ => inl AddrFormatError
      end
  | _ => inl AddrFormatError
  end.

End PyJson.

Module Example.

#[export] Instance py_lib : PyLib := {|
  json_loads := PyJson.loads;
  json_dumps := PyJson.dumps;
  IPNetwork_new := PyJson.ipnetwork;
  HOSTNAME := "node1";
  ORCHESTRATOR_ID := "cni";
|}.

(** Scenario 1 of the specification. *)
Definition config_text : string :=
  PyJson.dq "{'name':'net1','type':'x','ipam':{'type':'host-local'}}".

Definition ipam_text : string := PyJson.dq "{'ip4':{'ip':'10.0.0.5/24'}}".

(** What [json.loads] and [IPNetwork] make of [ipam_text]. *)
Definition ipam_doc : json := JDict [("ip4", JDict [("ip", JString "10.0.0.5/24")])].

Definition ipam_net : IPNetwork := {| ip_cidr := "10.0.0.5/24"; ip_version := 4 |}.

Definition environ (cmd args : string) : gmap string string :=
  <[CNI_COMMAND_ENV := cmd]> (<[CNI_CONTAINERID_ENV := "abc"]>
  (<[CNI_NETNS_ENV := "./ns1"]> (<[CNI_IFNAME_ENV := "eth0"]>
  (<[CNI_ARGS_ENV := args]> (<[CNI_PATH_ENV := "/opt/cni"]> ∅))))).

Definition host (ipam : Z * string) : World :=
  {| cwd := "/var/lib/rkt";
     isfile := fun path => String.eqb path "/opt/cni/host-local";
     ipam_child := fun _ _ _ => ipam;
     docker_host_mode := fun _ => false;
     new_endpoint_name := fun workload => "cali" +:+ workload;
     new_mac := "ee:ee:ee:ee:ee:ee";
     fault := fun _ => None;
     datastore := ∅;
     veths := ∅;
     trace := [] |}.

Definition config : json :=
  JDict [("name", JString "net1"); ("type", JString "x");
         ("ipam", JDict [("type", JString "host-local")])].

(** The plugin [CniPlugin(config, environ cmd args)]. *)
Definition plugin (cmd args : string) : CniPlugin :=
  {| network_config := config; env := environ cmd args; command := cmd;
     container_id := "abc"; cni_netns := "./ns1"; interface := "eth0";
     cni_args := parse_cni_args args; cni_path := "/opt/cni";
     network_name := JString "net1"; ipam_result := JNull;
     policy_driver :=
       if bool_decide (is_Some (parse_cni_args args !! "K8S_POD_NAME"))
       then KubernetesDefaultPolicyDriver else DefaultPolicyDriver "net1";
     container_engine := _get_container_engine (parse_cni_args args) |}.

Definition set_cni_path (path : string) (self : CniPlugin) : CniPlugin :=
  {| network_config := network_config self; env := env self;
     command := command self; container_id := container_id self;
     cni_netns := cni_netns self; interface := interface self;
     cni_args := cni_args self; cni_path := path;
     network_name := network_name self; ipam_result := ipam_result self;
     policy_driver := policy_driver self;
     container_engine := container_engine self |}.

Definition set_network_config (nc : json) (self : CniPlugin) : CniPlugin :=
  {| network_config := nc; env := env self;
     command := command self; container_id := container_id self;
     cni_netns := cni_netns self; interface := interface self;
     cni_args := cni_args self; cni_path := cni_path self;
     network_name := network_name self; ipam_result := ipam_result self;
     policy_driver := policy_driver self;
     container_engine := container_engine self |}.

Definition set_isfile (f : string -> bool) (w : World) : World :=
  {| cwd := cwd w; isfile := f; ipam_child := ipam_child w;
     docker_host_mode := docker_host_mode w;
     new_endpoint_name := new_endpoint_name w; new_mac := new_mac w;
     fault := fault w; datastore := datastore w; veths := veths w;
     trace := trace w |}.

Definition set_docker_host_mode (f : string -> bool) (w : World) : World :=
  {| cwd := cwd w; isfile := isfile w; ipam_child := ipam_child w;
     docker_host_mode := f;
     new_endpoint_name := new_endpoint_name w; new_mac := new_mac w;
     fault := fault w; datastore := datastore w; veths := veths w;
     trace := trace w |}.

Definition set_fault (f : Op -> option pyerr) (w : World) : World :=
  {| cwd := cwd w; isfile := isfile w; ipam_child := ipam_child w;
     docker_host_mode := docker_host_mode w;
     new_endpoint_name := new_endpoint_name w; new_mac := new_mac w;
     fault := f; datastore := datastore w; veths := veths w;
     trace := trace w |}.

(** The fault table where [op] raises [e] and no other call fails. *)
Definition failing (op : Op) (e : pyerr) (op' : Op) : option pyerr :=
  match op, op' with
  | OpDockerInspect, OpDockerInspect | OpPopen, OpPopen
  | OpCreateEndpoint, OpCreateEndpoint | OpProvisionVeth, OpProvisionVeth
  | OpSetEndpoint, OpSetEndpoint | OpSetProfile, OpSetProfile
  | OpGetEndpoint, OpGetEndpoint | OpRemoveVeth, OpRemoveVeth
  | OpRemoveWorkload, OpRemoveWorkload | OpRemoveProfile, OpRemoveProfile => Some e
  | _, _ => None
  end.

Definition clear_trace (w : World) : World :=
  {| cwd := cwd w; isfile := isfile w; ipam_child := ipam_child w;
     docker_host_mode := docker_host_mode w;
     new_endpoint_name := new_endpoint_name w; new_mac := new_mac w;
     fault := fault w; datastore := datastore w; veths := veths w;
     trace := [] |}.

(** The host once container [abc] has been added: its endpoint is in the
    datastore and its veth on the host. *)
Definition networked_host : World :=
  clear_trace (main config_text (environ "ADD" "") (host (0%Z, ipam_text))).2.

End Example.

(** * Facts *)

(** *** Facts about the matcher *)

Section RegexFacts.

Lemma append_char_assoc (a : string) (c : ascii) (b : string) :
  (a +:+ String c EmptyString) +:+ b = a +:+ String c b.
Proof. induction a as [|x a IH]; [reflexivity | simpl; now rewrite IH]. Qed.

Lemma append_nil_r (a : string) : a +:+ "" = a.
Proof. induction a as [|x a IH]; [reflexivity | simpl; now rewrite IH]. Qed.

Lemma append_assoc (a b c : string) : (a +:+ b) +:+ c = a +:+ (b +:+ c).
Proof. induction a as [|x a IH]; [reflexivity | simpl; now rewrite IH]. Qed.

Lemma span_rest_not_in cls s : starts_in cls (span cls s).2 = false.
Proof.
  induction s as [|c s IH]; simpl; [reflexivity|].
  destruct (cls c) eqn:E; simpl; [exact IH | exact E].
Qed.

Lemma span_empty_prefix cls s :
  (span cls s).1 = "" -> (span cls s).2 = s /\ starts_in cls s = false.
Proof.
  destruct s as [|c s]; simpl; [auto|].
  destruct (cls c) eqn:E; simpl; [discriminate | auto].
Qed.

Lemma span_nonempty_prefix cls s :
  (span cls s).1 <> "" -> starts_in cls s = true.
Proof.
  destruct s as [|c s]; simpl; [congruence|].
  destruct (cls c); simpl; congruence.
Qed.

Lemma span_length cls s :
  String.length s = String.length (span cls s).1 + String.length (span cls s).2.
Proof.
  induction s as [|c s IH]; simpl; [reflexivity|].
  destruct (cls c); simpl; [now rewrite IH | reflexivity].
Qed.

(** A greedy [+] whose continuation cannot succeed in front of a character
    of the class never gives anything back: it takes the longest run. *)
Lemma greedy_plus_span {A} cls (k : string -> string -> option A) :
  (forall g r, starts_in cls r = true -> k g r = None) ->
  forall s acc,
    Re.greedy_plus cls s acc k =
    if PyStr.is_empty (span cls s).1 then None
    else k (acc +:+ (span cls s).1) (span cls s).2.
Proof.
  intros Hk. induction s as [|c s IH]; intros acc; simpl; [reflexivity|].
  destruct (cls c) eqn:Ec; simpl; [|reflexivity].
  rewrite IH. rewrite append_char_assoc.
  destruct (PyStr.is_empty (span cls s).1) eqn:Ee.
  - destruct (span cls s).1 eqn:Ep; [|discriminate].
    destruct (span_empty_prefix cls s Ep) as [-> _]. reflexivity.
  - destruct (k (acc +:+ String c (span cls s).1) (span cls s).2) eqn:Ek;
      [reflexivity|].
    apply Hk. apply span_nonempty_prefix.
    destruct (span cls s).1; [discriminate | congruence].
Qed.

Lemma CNI_ARGS_RE_match_longest s : CNI_ARGS_RE_match s = match_longest s.
Proof.
  unfold CNI_ARGS_RE_match, match_longest.
  rewrite greedy_plus_span.
  2:{ intros g [|c r]; simpl; [discriminate|]. intros Hc.
      destruct (Ascii.eqb_spec c "="); [subst; discriminate | reflexivity]. }
  destruct (PyStr.is_empty (span cni_arg_char s).1); [reflexivity|].
  simpl. destruct (span cni_arg_char s).2 as [|c r2]; simpl; [reflexivity|].
  destruct (Ascii.eqb c "="); [|reflexivity].
  rewrite greedy_plus_span.
  2:{ intros g [|d r]; simpl; [discriminate|]. intros Hd.
      destruct (Ascii.eqb_spec d ";"); [subst; discriminate|].
      destruct r; [|reflexivity].
      destruct (Ascii.eqb_spec d PyStr.LF); [subst; discriminate | reflexivity]. }
  destruct (PyStr.is_empty (span cni_arg_char r2).1); [reflexivity|].
  rewrite !append_nil_r || simpl.
  destruct (span cni_arg_char r2).2 as [|d r4]; simpl; [reflexivity|].
  destruct (Ascii.eqb d ";"); simpl; [reflexivity|].
  destruct r4; simpl; [|reflexivity].
  destruct (Ascii.eqb d PyStr.LF); reflexivity.
Qed.

Lemma match_longest_rest_shorter s g1 g2 rest :
  match_longest s = Some (g1, g2, rest) ->
  (String.length rest < String.length s)%nat.
Proof.
  unfold match_longest. intros H.
  pose proof (span_length cni_arg_char s) as L1.
  destruct (span cni_arg_char s).1 as [|x g] eqn:E1; simpl in H; [discriminate|].
  destruct (span cni_arg_char s).2 as [|c r2] eqn:E2; [discriminate|].
  destruct (Ascii.eqb c "="); [|discriminate].
  pose proof (span_length cni_arg_char r2) as L2.
  destruct (PyStr.is_empty (span cni_arg_char r2).1); [discriminate|].
  simpl in L1.
  destruct (span cni_arg_char r2).2 as [|d r4] eqn:E3.
  - inversion H; subst. simpl. lia.
  - destruct (Ascii.eqb d ";").
    + inversion H; subst. simpl in L2. lia.
    + destruct (PyStr.is_empty r4 && Ascii.eqb d PyStr.LF); [|discriminate].
      inversion H; subst. simpl in *. lia.
Qed.

(** Fuel beyond the length of the subject changes nothing. *)
Lemma findall_from_enough n : forall m s,
  (String.length s < n)%nat -> (String.length s < m)%nat ->
  findall_from n s = findall_from m s.
Proof.
  induction n as [|n IH]; intros m s Hn Hm; [lia|].
  destruct m as [|m]; [lia|]. simpl.
  destruct (CNI_ARGS_RE_match s) as [[[g1 g2] rest]|] eqn:E.
  - rewrite CNI_ARGS_RE_match_longest in E.
    apply match_longest_rest_shorter in E.
    f_equal. apply IH; lia.
  - destruct s as [|c s]; [reflexivity|]. simpl in *. apply IH; lia.
Qed.

(** The scanning loop of [findall], one step at a time. *)
Lemma CNI_ARGS_RE_findall_step s :
  CNI_ARGS_RE_findall s =
  match CNI_ARGS_RE_match s with
  | Some (g1, g2, rest) => (g1, g2) :: CNI_ARGS_RE_findall rest
  | None => match s with
            | EmptyString => []
            | String _ s' => CNI_ARGS_RE_findall s'
            end
  end.
Proof.
  unfold CNI_ARGS_RE_findall at 1. simpl.
  destruct (CNI_ARGS_RE_match s) as [[[g1 g2] rest]|] eqn:E.
  - rewrite CNI_ARGS_RE_match_longest in E.
    apply match_longest_rest_shorter in E.
    f_equal. apply findall_from_enough; lia.
  - destruct s as [|c s]; [reflexivity|]. reflexivity.
Qed.

Lemma span_run cls k tail :
  PyStr.all_chars cls k = true -> starts_in cls tail = false ->
  span cls (k +:+ tail) = (k, tail).
Proof.
  intros Hk Ht. induction k as [|c k IH]; simpl in *.
  - destruct tail as [|d tail]; [reflexivity|]. simpl in *. now rewrite Ht.
  - apply andb_prop in Hk as [Hc Hk]. rewrite Hc, (IH Hk). reflexivity.
Qed.

Lemma span_all cls k :
  PyStr.all_chars cls k = true -> span cls k = (k, "").
Proof.
  intros Hk. rewrite <- (append_nil_r k) at 1. now apply span_run.
Qed.

Lemma match_pair_semi k v rest :
  token k = true -> token v = true ->
  CNI_ARGS_RE_match (k +:+ "=" +:+ v +:+ ";" +:+ rest) = Some (k, v, rest).
Proof.
  unfold token. intros [Hk1 Hk2]%andb_prop [Hv1 Hv2]%andb_prop.
  rewrite CNI_ARGS_RE_match_longest. unfold match_longest.
  rewrite span_run by (trivial || reflexivity). simpl.
  destruct k; [discriminate|]. simpl.
  rewrite span_run by (trivial || reflexivity). simpl.
  destruct v; [discriminate|]. reflexivity.
Qed.

Lemma match_pair_end k v :
  token k = true -> token v = true ->
  CNI_ARGS_RE_match (k +:+ "=" +:+ v) = Some (k, v, "").
Proof.
  unfold token. intros [Hk1 Hk2]%andb_prop [Hv1 Hv2]%andb_prop.
  rewrite CNI_ARGS_RE_match_longest. unfold match_longest.
  rewrite span_run by (trivial || reflexivity). simpl.
  destruct k; [discriminate|]. simpl.
  rewrite span_all by trivial. simpl.
  destruct v; [discriminate|]. reflexivity.
Qed.

Lemma span_rest_no_eq text tail :
  PyStr.all_chars not_eq text = true -> at_boundary tail = true ->
  starts_in (fun c => Ascii.eqb c "=") (span cni_arg_char (text +:+ tail)).2 = false.
Proof.
  intros Ht Hb. induction text as [|c text IH]; simpl in *.
  - destruct tail as [|d tail]; [reflexivity|]. simpl in Hb.
    apply Ascii.eqb_eq in Hb. subst d. reflexivity.
  - apply andb_prop in Ht as [Hc Ht].
    destruct (cni_arg_char c); simpl; [auto|].
    unfold not_eq in Hc. now destruct (Ascii.eqb c "=").
Qed.

Lemma match_no_eq text tail :
  PyStr.all_chars not_eq text = true -> at_boundary tail = true ->
  CNI_ARGS_RE_match (text +:+ tail) = None.
Proof.
  intros Ht Hb. rewrite CNI_ARGS_RE_match_longest. unfold match_longest.
  pose proof (span_rest_no_eq text tail Ht Hb) as H.
  destruct (PyStr.is_empty _); [reflexivity|].
  destruct (span cni_arg_char (text +:+ tail)).2 as [|c r]; [reflexivity|].
  simpl in H. now rewrite H.
Qed.

Lemma findall_skip text tail :
  PyStr.all_chars not_eq text = true -> at_boundary tail = true ->
  CNI_ARGS_RE_findall (text +:+ tail) =
  match tail with
  | EmptyString => []
  | String _ rest => CNI_ARGS_RE_findall rest
  end.
Proof.
  intros Ht Hb. induction text as [|c text IH].
  - rewrite CNI_ARGS_RE_findall_step.
    rewrite (match_no_eq "" tail) by assumption. reflexivity.
  - rewrite CNI_ARGS_RE_findall_step.
    rewrite match_no_eq by assumption. simpl.
    simpl in Ht. apply andb_prop in Ht as [_ Ht]. auto.
Qed.

End RegexFacts.

Section ParseCniArgsFacts.

Lemma findall_fragments fs :
  forallb fragment_ok fs = true ->
  CNI_ARGS_RE_findall (render_all fs) = captured fs.
Proof.
  unfold render_all.
  induction fs as [|f fs IH]; intros Hok; [reflexivity|].
  simpl in Hok. apply andb_prop in Hok as [Hf Hfs].
  specialize (IH Hfs).
  destruct fs as [|g fs].
  - destruct f as [k v|t]; cbn [map render PyStr.join captured]; simpl in Hf.
    + apply andb_prop in Hf as [Hk Hv].
      rewrite CNI_ARGS_RE_findall_step, match_pair_end by assumption.
      reflexivity.
    + rewrite <- (append_nil_r t). now rewrite findall_skip.
  - change (PyStr.join ";" (map render (f :: g :: fs)))
      with (render f +:+ ";" +:+ PyStr.join ";" (map render (g :: fs))).
    destruct f as [k v|t]; cbn [render captured].
    + simpl in Hf. apply andb_prop in Hf as [Hk Hv].
      rewrite CNI_ARGS_RE_findall_step.
      rewrite !append_assoc. rewrite match_pair_semi by assumption.
      now rewrite IH.
    + rewrite findall_skip by (assumption || reflexivity). exact IH.
Qed.

Lemma parse_cni_args_list_to_map s :
  parse_cni_args s = list_to_map (reverse (stripped (CNI_ARGS_RE_findall s))).
Proof.
  unfold parse_cni_args.
  induction (CNI_ARGS_RE_findall s) as [|kv ps IH] using rev_ind; [reflexivity|].
  rewrite foldl_app. simpl. rewrite IH.
  unfold stripped. rewrite map_app, reverse_app. reflexivity.
Qed.

Lemma foldl_insert_other (key : string) ps : forall m : gmap string string,
  Forall (fun kv => PyStr.strip kv.1 <> key) ps ->
  foldl insert_stripped m ps !! key = m !! key.
Proof.
  induction ps as [|kv ps IH]; intros m Hps; [reflexivity|].
  inversion Hps as [|? ? Hkv Hrest]; subst. simpl.
  rewrite IH by assumption. unfold insert_stripped.
  now rewrite lookup_insert_ne.
Qed.

Lemma rstrip_end s : ends_with_space (PyStr.rstrip s) = false.
Proof.
  induction s as [|c s IH]; simpl; [reflexivity|].
  destruct (PyStr.isspace c && PyStr.is_empty (PyStr.rstrip s)) eqn:E;
    [reflexivity|].
  simpl. destruct (PyStr.rstrip s) as [|d r]; [|exact IH].
  simpl in E. now rewrite andb_true_r in E.
Qed.

Lemma lstrip_start s : starts_in PyStr.isspace (PyStr.lstrip s) = false.
Proof.
  induction s as [|c s IH]; simpl; [reflexivity|].
  destruct (PyStr.isspace c) eqn:E; [exact IH | simpl; exact E].
Qed.

Lemma rstrip_start s :
  starts_in PyStr.isspace s = false ->
  starts_in PyStr.isspace (PyStr.rstrip s) = false.
Proof.
  destruct s as [|c s]; simpl; [reflexivity|]. intros E. rewrite E. simpl. exact E.
Qed.

Lemma strip_trimmed s : trimmed (PyStr.strip s) = true.
Proof.
  unfold trimmed, PyStr.strip.
  rewrite rstrip_start by apply lstrip_start. now rewrite rstrip_end.
Qed.

Lemma foldl_insert_trimmed ps : forall (m : gmap string string) k v,
  (forall k v, m !! k = Some v -> trimmed k = true /\ trimmed v = true) ->
  foldl insert_stripped m ps !! k = Some v ->
  trimmed k = true /\ trimmed v = true.
Proof.
  induction ps as [|kv ps IH]; intros m k v Hm; simpl; [apply Hm|].
  apply IH. intros k' v'. unfold insert_stripped.
  destruct (decide (PyStr.strip kv.1 = k')) as [<-|Hne].
  - rewrite lookup_insert_eq. intros [= <-]. split; apply strip_trimmed.
  - rewrite lookup_insert_ne by assumption. apply Hm.
Qed.

Lemma foldl_insert_origin ps : forall (m : gmap string string) k v,
  foldl insert_stripped m ps !! k = Some v ->
  m !! k = Some v
  \/ exists g, g ∈ ps /\ k = PyStr.strip g.1 /\ v = PyStr.strip g.2.
Proof.
  induction ps as [|kv ps IH]; intros m k v Hl; simpl in Hl; [now left|].
  apply IH in Hl as [Hm | (g & Hg & Hk & Hv)].
  - unfold insert_stripped in Hm.
    destruct (decide (PyStr.strip kv.1 = k)) as [<-|Hne].
    + rewrite lookup_insert_eq in Hm. injection Hm as <-.
      right. exists kv. split; [left | auto].
    + rewrite lookup_insert_ne in Hm by assumption. now left.
  - right. exists g. split; [now right | auto].
Qed.

End ParseCniArgsFacts.

(** ** CNI_ARGS: claims C7 and C10 *)

Section CniArgsClaims.

(** C7, as the code has it: for a CNI_ARGS string made of fragments separated
    by semicolons, each a KEY=VALUE of the grammar or text without an equals
    sign, the groups [CNI_ARGS_RE] captures are the KEY and VALUE of each
    KEY=VALUE fragment, in order, the other fragments being skipped;
    [parse_cni_args] returns the mapping that binds each captured key, spaces
    around it stripped, to its stripped value; when the stripped keys are
    pairwise distinct the entries of the mapping are exactly the stripped
    captured groups; and the empty string yields the empty mapping. *)
Theorem parse_cni_args_fragments (fs : list fragment) :
  forallb fragment_ok fs = true ->
  CNI_ARGS_RE_findall (render_all fs) = captured fs
  /\ parse_cni_args (render_all fs)
     = list_to_map (reverse (stripped (captured fs)))
  /\ (NoDup (stripped (captured fs)).*1 ->
      map_to_list (parse_cni_args (render_all fs)) ≡ₚ stripped (captured fs))
  /\ parse_cni_args "" = ∅.
Proof.
  intros Hok. pose proof (findall_fragments fs Hok) as Hfind.
  split; [exact Hfind|]. split; [|split].
  - rewrite parse_cni_args_list_to_map. now rewrite Hfind.
  - intros Hnd. rewrite parse_cni_args_list_to_map, Hfind.
    rewrite map_to_list_to_map.
    + apply reverse_Permutation.
    + rewrite fmap_reverse, reverse_Permutation. exact Hnd.
  - reflexivity.
Qed.

Lemma parse_cni_args_fragments_witness :
  CNI_ARGS_RE_findall "FOO=BAR;junk; ABC = 123" = [("FOO", "BAR"); (" ABC ", " 123")]
  /\ parse_cni_args "FOO=BAR;junk; ABC = 123"
     = list_to_map [("ABC", "123"); ("FOO", "BAR")]
  /\ (NoDup ["FOO"; "ABC"] ->
      map_to_list (parse_cni_args "FOO=BAR;junk; ABC = 123")
      ≡ₚ [("FOO", "BAR"); ("ABC", "123")])
  /\ parse_cni_args "" = ∅.
Proof.
  apply (parse_cni_args_fragments [Pair "FOO" "BAR"; Junk "junk"; Pair " ABC " " 123"]).
  vm_compute. reflexivity.
Defined.

(** C7 as stated fails: a string of the grammar whose key starts with a space,
    and one that repeats a key, give a mapping whose entries are not the
    captured groups; and the fragment [A=B=C], which the grammar cannot parse,
    is not skipped but yields an entry. *)
Lemma parse_cni_args_entries_differ :
  (well_formed [Pair " A" "B"] = true
   /\ render_all [Pair " A" "B"] = " A=B"
   /\ CNI_ARGS_RE_findall " A=B" = [(" A", "B")]
   /\ map_to_list (parse_cni_args " A=B") = [("A", "B")]
   /\ ~ map_to_list (parse_cni_args " A=B") ≡ₚ CNI_ARGS_RE_findall " A=B")
  /\ (well_formed [Pair "A" "1"; Pair "A" "2"] = true
      /\ render_all [Pair "A" "1"; Pair "A" "2"] = "A=1;A=2"
      /\ CNI_ARGS_RE_findall "A=1;A=2" = [("A", "1"); ("A", "2")]
      /\ map_to_list (parse_cni_args "A=1;A=2") = [("A", "2")]
      /\ ~ map_to_list (parse_cni_args "A=1;A=2") ≡ₚ CNI_ARGS_RE_findall "A=1;A=2")
  /\ (PyStr.split ";" "x;A=B=C" = ["x"; "A=B=C"]
      /\ fragment_ok (Junk "A=B=C") = false
      /\ map_to_list (parse_cni_args "x;A=B=C") = [("B", "C")]).
Proof.
  repeat split; try (vm_compute; reflexivity).
  - intros HP. apply Permutation_singleton_r in HP. vm_compute in HP. discriminate.
  - intros HP. apply Permutation_length in HP. vm_compute in HP. discriminate.
Qed.

(** C10, as the code has it: whatever the CNI_ARGS string, a key is bound to
    the stripped value of the last pair of groups [CNI_ARGS_RE] captures whose
    key, once stripped, is this key; in a string made of KEY=VALUE fragments
    of the grammar and of fragments without equals sign these pairs are the
    KEY=VALUE fragments, so that the last fragment with the key decides; and
    every key and every value stored in the mapping, for any string at all,
    has no white space at either end. *)
Theorem parse_cni_args_last_wins (s : string)
    (before after : list (string * string)) (k v : string) :
  CNI_ARGS_RE_findall s = before ++ (k, v) :: after ->
  Forall (fun kv => PyStr.strip kv.1 <> PyStr.strip k) after ->
  parse_cni_args s !! PyStr.strip k = Some (PyStr.strip v)
  /\ (forall fs, forallb fragment_ok fs = true ->
        captured fs = before ++ (k, v) :: after ->
        parse_cni_args (render_all fs) !! PyStr.strip k = Some (PyStr.strip v))
  /\ (forall s k' v', parse_cni_args s !! k' = Some v' ->
        trimmed k' = true /\ trimmed v' = true
        /\ exists g, g ∈ CNI_ARGS_RE_findall s
                     /\ k' = PyStr.strip g.1 /\ v' = PyStr.strip g.2).
Proof.
  intros Hcap Hafter.
  assert (forall s', CNI_ARGS_RE_findall s' = before ++ (k, v) :: after ->
                     parse_cni_args s' !! PyStr.strip k = Some (PyStr.strip v)) as Hlast.
  { intros s' Hs'. unfold parse_cni_args. rewrite Hs', foldl_app. simpl.
    rewrite (foldl_insert_other (PyStr.strip k) after) by assumption.
    apply lookup_insert_eq. }
  split; [now apply Hlast|]. split.
  - intros fs Hok Hfs. apply Hlast. now rewrite (findall_fragments fs Hok).
  - intros s' k' v' Hl. unfold parse_cni_args in Hl.
    split; [|split].
    + eapply (foldl_insert_trimmed _ ∅ k' v'); [|exact Hl].
      intros ? ?. rewrite lookup_empty. discriminate.
    + eapply (foldl_insert_trimmed _ ∅ k' v'); [|exact Hl].
      intros ? ?. rewrite lookup_empty. discriminate.
    + apply foldl_insert_origin in Hl as [Hl | Hg]; [|exact Hg].
      rewrite lookup_empty in Hl. discriminate.
Qed.

Lemma parse_cni_args_last_wins_witness :
  parse_cni_args "A =1;B=2; A= 3 ;C=4" !! "A" = Some "3"
  /\ (forall fs, forallb fragment_ok fs = true ->
        captured fs = [("A ", "1"); ("B", "2")] ++ (" A", " 3 ") :: [("C", "4")] ->
        parse_cni_args (render_all fs) !! "A" = Some "3")
  /\ (forall s k' v', parse_cni_args s !! k' = Some v' ->
        trimmed k' = true /\ trimmed v' = true
        /\ exists g, g ∈ CNI_ARGS_RE_findall s
                     /\ k' = PyStr.strip g.1 /\ v' = PyStr.strip g.2).
Proof.
  apply (parse_cni_args_last_wins "A =1;B=2; A= 3 ;C=4"
           [("A ", "1"); ("B", "2")] [("C", "4")] " A" " 3 ").
  - reflexivity.
  - repeat constructor. vm_compute. discriminate.
Defined.

(** C10 as stated fails: in [A=1;A=2;x=A=3] the well-formed KEY=VALUE
    fragments with the key [A] are [A=1] and [A=2], the last being [A=2];
    the third fragment is not of the grammar, yet the expression captures
    [A=3] inside it and the key [A] is bound to 3. *)
Lemma parse_cni_args_last_fragment_loses :
  PyStr.split ";" "A=1;A=2;x=A=3" = ["A=1"; "A=2"; "x=A=3"]
  /\ as_pair "x=A=3" = None
  /\ well_formed_pairs "A=1;A=2;x=A=3" = [("A", "1"); ("A", "2")]
  /\ CNI_ARGS_RE_findall "A=1;A=2;x=A=3" = [("A", "1"); ("A", "2"); ("A", "3")]
  /\ parse_cni_args "A=1;A=2;x=A=3" !! "A" = Some "3".
Proof. repeat split; vm_compute; reflexivity. Qed.

End CniArgsClaims.

(** ** The orchestration *)

Section TraceFacts.

Lemma stdout_of_app evs evs' :
  stdout_of (evs ++ evs') = stdout_of evs +:+ stdout_of evs'.
Proof.
  induction evs as [|ev evs IH]; [reflexivity|].
  destruct ev; simpl; try exact IH.
  rewrite IH. now rewrite append_assoc.
Qed.

Lemma spawn_count_app evs evs' :
  spawn_count (evs ++ evs') = (spawn_count evs + spawn_count evs')%nat.
Proof.
  unfold spawn_count. now rewrite List.filter_app, List.length_app.
Qed.

End TraceFacts.

Section PluginFacts.
Context `{PyLib}.

(** The search for the IPAM binary reads the host and changes nothing. *)
Lemma _find_ipam_plugin_pure self w : (_find_ipam_plugin self w).2 = w.
Proof.
  unfold _find_ipam_plugin, bind, lift, raise.
  repeat case_match; simplify_eq/=; reflexivity.
Qed.

(** [_call_ipam_plugin], by cases on what the search returns. *)
Lemma _call_ipam_plugin_cases self w :
  _call_ipam_plugin self w =
  match (_find_ipam_plugin self w).1 with
  | Ok plugin_path =>
      if PyStr.is_empty plugin_path then (Exit 1%Z, w)
      else
        let w1 := log (EvSpawn plugin_path (json_dumps (network_config self))) w in
        match fault w OpPopen with
        | Some e => (Raise e, w1)
        | None =>
            (Ok (ipam_child w (env self) plugin_path (json_dumps (network_config self))), w1)
        end
  | Raise e => (Raise e, w)
  | Exit code => (Exit code, w)
  end.
Proof.
  unfold _call_ipam_plugin, bind.
  pose proof (_find_ipam_plugin_pure self w) as Hp.
  destruct (_find_ipam_plugin self w) as [[path|e|c] w0]; simpl in *; subst w0;
    try reflexivity.
  destruct (PyStr.is_empty path); reflexivity.
Qed.

(** *** Construction *)

Lemma _get_policy_driver_exit args name c :
  _get_policy_driver args name = Exit c -> c = 1%Z.
Proof.
  unfold _get_policy_driver, DefaultPolicyDriver_new.
  destruct (args !! "K8S_POD_NAME"); [discriminate|].
  destruct name; try (intros [= <-]; reflexivity).
  destruct (_ && _); [discriminate | intros [= <-]; reflexivity].
Qed.

Lemma rbind_exit {A B} (r : result A) (k : A -> result B) c :
  rbind r k = Exit c -> r = Exit c \/ exists a, r = Ok a /\ k a = Exit c.
Proof. destruct r; simpl; [eauto | discriminate | intros [= <-]; auto]. Qed.

Lemma env_get_no_exit environ key c : env_get environ key <> Exit c.
Proof. unfold env_get. destruct (environ !! key); discriminate. Qed.

Lemma getitem_no_exit o key c : getitem o key <> Exit c.
Proof. unfold getitem. repeat case_match; discriminate. Qed.

Ltac peel_rbind H :=
  apply rbind_exit in H as [H | (? & _ & H)];
  [first [now apply env_get_no_exit in H | now apply getitem_no_exit in H]|].

(** [CniPlugin.__init__] calls [sys.exit] with code 1 only. *)
Lemma CniPlugin_init_exit nc environ c :
  CniPlugin_init nc environ = Exit c -> c = 1%Z.
Proof.
  unfold CniPlugin_init. intros Hi.
  do 7 peel_rbind Hi.
  apply rbind_exit in Hi as [Hi | (? & _ & Hi)]; [|discriminate].
  now apply _get_policy_driver_exit in Hi.
Qed.

(** *** Which codes a computation can exit with *)

Lemma exits_in_ret {A} S (a : A) : exits_in S (ret a).
Proof. intros w. exact I. Qed.

Lemma exits_in_raise {A} S e : exits_in S (@raise A e).
Proof. intros w. exact I. Qed.

Lemma exits_in_sys_exit {A} (S : Z -> Prop) c : S c -> exits_in S (@sys_exit A c).
Proof. intros Hc w. exact Hc. Qed.

Lemma exits_in_bind {A B} S (m : M A) (k : A -> M B) :
  exits_in S m -> (forall a, exits_in S (k a)) -> exits_in S (bind m k).
Proof.
  intros Hm Hk w. unfold bind. specialize (Hm w).
  destruct (m w) as [[a|e|c] w']; simpl in *; [apply Hk | exact I | exact Hm].
Qed.

Lemma exits_in_try {A} S (m : M A) handler :
  exits_in S m -> (forall e h, handler e = Some h -> exits_in S h) ->
  exits_in S (try_except m handler).
Proof.
  intros Hm Hh w. unfold try_except. specialize (Hm w).
  destruct (m w) as [[a|e|c] w']; simpl in *; [exact I | | exact Hm].
  destruct (handler e) as [h|] eqn:E; [exact (Hh e h E w') | exact I].
Qed.

Lemma exits_in_call {A} S op ev (act : M A) :
  exits_in S act -> exits_in S (call op ev act).
Proof.
  intros Ha w. unfold call. destruct (fault (log ev w) op); [exact I | apply Ha].
Qed.

Lemma exits_in_pure {A} S (f : World -> result A * World) :
  (forall w, match (f w).1 with Exit _ => False | _ => True end) ->
  exits_in S f.
Proof. intros Hf w. specialize (Hf w). destruct (f w).1; tauto. Qed.

Lemma exits_in_lift {A} S (r : result A) :
  (forall c, r <> Exit c) -> exits_in S (lift r).
Proof. intros Hr w. unfold lift. simpl. destruct r; auto. now destruct (Hr code). Qed.

Ltac exits_step :=
  first
    [ apply exits_in_bind; [|intros ?]
    | apply exits_in_try; [|intros [] ? [= <-]]
    | apply exits_in_call
    | apply exits_in_ret
    | apply exits_in_raise
    | apply exits_in_sys_exit; auto ].

Lemma _find_ipam_plugin_exits S self : exits_in S (_find_ipam_plugin self).
Proof.
  unfold _find_ipam_plugin, lift.
  apply exits_in_bind; [|intros ipam].
  { apply exits_in_lift. intros c. apply getitem_no_exit. }
  apply exits_in_bind; [|intros ty].
  { apply exits_in_lift. intros c. apply getitem_no_exit. }
  destruct ty; try apply exits_in_raise.
  apply exits_in_pure. intros w. exact I.
Qed.

Lemma _call_ipam_plugin_exits (S : Z -> Prop) self :
  S 1%Z -> exits_in S (_call_ipam_plugin self).
Proof.
  intros H1. unfold _call_ipam_plugin.
  apply exits_in_bind; [apply _find_ipam_plugin_exits | intros path].
  destruct (PyStr.is_empty path); [now apply exits_in_sys_exit|].
  unfold popen_communicate. apply exits_in_call.
  apply exits_in_pure. intros w. exact I.
Qed.

Lemma delete_exits self :
  exits_in (fun c => c = 0%Z \/ c = 1%Z) (delete self).
Proof.
  unfold delete, _release_ip, _get_endpoint, _remove_endpoint, get_endpoint,
    remove_workload, remove_veth, remove_profile.
  apply exits_in_bind; [|intros _].
  { apply exits_in_bind; [apply _call_ipam_plugin_exits; auto | intros _; apply exits_in_ret]. }
  apply exits_in_bind; [|intros [ep|]].
  - apply exits_in_try; [|intros [] ? [= <-]]; repeat exits_step.
    apply exits_in_pure. intros w.
    destruct (endpoints_under _ _) as [|? [|? ?]]; exact I.
  - repeat exits_step.
    + apply exits_in_pure. intros w. exact I.
    + apply exits_in_pure. intros w. destruct (datastore w !! _); exact I.
    + destruct (policy_driver self); repeat exits_step.
  - apply exits_in_sys_exit. auto.
Qed.

Lemma _provision_veth_exits S self ep : exits_in S (_provision_veth self ep).
Proof.
  intros w. unfold _provision_veth. cbv zeta.
  refine (exits_in_bind S _ _ _ _ w); [|intros mac].
  - unfold provision_veth. apply exits_in_call. apply exits_in_pure. intros w0. exact I.
  - apply exits_in_bind; [|intros _; apply exits_in_ret].
    unfold set_endpoint. apply exits_in_call. apply exits_in_pure. intros w0. exact I.
Qed.

Lemma _create_endpoint_exits self ip :
  exits_in (fun c => c = 1%Z) (_create_endpoint self ip).
Proof.
  unfold _create_endpoint, create_endpoint.
  apply exits_in_try.
  - apply exits_in_call. apply exits_in_pure. intros w. exact I.
  - intros [] h [= <-]; now apply exits_in_sys_exit.
Qed.

Lemma set_profile_exits S driver ep : exits_in S (set_profile driver ep).
Proof. destruct driver; simpl; repeat exits_step. Qed.

Lemma print_exits S dump : exits_in S (print dump).
Proof. intros w. exact I. Qed.

Lemma add_steps_exits self ip : exits_in (fun c => c = 1%Z) (add_steps self ip).
Proof.
  unfold add_steps.
  apply exits_in_bind; [apply _create_endpoint_exits | intros ep].
  apply exits_in_bind; [apply _provision_veth_exits | intros ep'].
  apply exits_in_bind; [apply set_profile_exits | intros _].
  apply print_exits.
Qed.

Ltac run_plugin :=
  unfold execute, _execute, add, delete, _assign_ip, _release_ip, _create_endpoint,
    _remove_endpoint, _provision_veth, _get_endpoint, print, set_profile,
    remove_profile, uses_host_networking, create_endpoint, set_endpoint,
    get_endpoint, remove_workload, provision_veth, remove_veth, popen_communicate,
    try_except, call, bind, ret, raise, sys_exit, lift in *.

Lemma execute_codes self w :
  (execute self w).1 = 0%Z \/ (execute self w).1 = 1%Z
  \/ ipam_failure self w (execute self w).
Proof.
  unfold ipam_failure.
  unfold execute, _execute.
  destruct (String.eqb (command self) CNI_CMD_ADD) eqn:Ecmd.
  2:{ destruct (negb (String.eqb (command self) CNI_CMD_DELETE)); [simpl; auto|].
      pose proof (delete_exits self w) as Hd.
      destruct (delete self w) as [[a|e|c] w']; simpl in *; tauto. }
  apply String.eqb_eq in Ecmd.
  unfold add, bind.
  destruct (uses_host_networking _ _ w) as [[[|]|e|c] w1] eqn:Eh; simpl; auto.
  2:{ unfold uses_host_networking, call, ret in Eh.
      repeat case_match; simplify_eq/=. }
  unfold _assign_ip, bind. rewrite _call_ipam_plugin_cases.
  destruct ((_find_ipam_plugin self w1).1) as [path|e|c] eqn:Ef; simpl; auto.
  2:{ pose proof (_find_ipam_plugin_exits (fun _ => False) self w1) as Hx.
      now rewrite Ef in Hx. }
  destruct (PyStr.is_empty path) eqn:Ee; simpl; auto.
  destruct (fault w1 OpPopen) eqn:Efa; simpl; auto.
  destruct (ipam_child w1 (env self) path (json_dumps (network_config self)))
    as [rc out] eqn:Ei; simpl.
  destruct (Z.eqb_spec rc 0) as [->|Hrc]; simpl.
  2:{ right. right. split; [assumption|]. exists w1, path, out. auto 10. }
  destruct (json_loads out) as [doc|]; simpl; auto.
  unfold try_except, lift, sys_exit, ret.
  destruct (rbind _ _) as [ip|e|c] eqn:Eip; simpl.
  - pose proof (add_steps_exits (set_ipam_result doc self) ip
                  (log (EvSpawn path (json_dumps (network_config self))) w1)) as Hx.
    unfold add_steps in Hx.
    match goal with
    | |- context [match ?m with (r, w') => _ end] =>
        match type of Hx with context [?m'] => change m with m' end
    end.
    destruct (_ : result unit * World) as [[a|e|c] w']; simpl in *; auto.
  - destruct e; simpl; auto.
  - unfold rbind, of_sum in Eip.
    destruct (getitem doc "ip4") as [ip4| |] eqn:E4;
      [|discriminate | now apply getitem_no_exit in E4].
    destruct (getitem ip4 "ip") as [ip| |] eqn:E5;
      [|discriminate | now apply getitem_no_exit in E5].
    destruct (IPNetwork_new ip); discriminate.
Qed.

(** *** Computations that start no IPAM child and print nothing *)

Lemma silent_step_refl w : silent_step w w.
Proof. exists []. now rewrite app_nil_r. Qed.

Lemma silent_step_trans w1 w2 w3 :
  silent_step w1 w2 -> silent_step w2 w3 -> silent_step w1 w3.
Proof.
  intros (e1 & T1 & S1 & C1) (e2 & T2 & S2 & C2).
  exists (e1 ++ e2). rewrite T2, T1, <- app_assoc.
  rewrite stdout_of_app, spawn_count_app, S1, S2, C1, C2. auto.
Qed.

Lemma silent_step_same_trace w w' : trace w' = trace w -> silent_step w w'.
Proof. intros E. exists []. now rewrite app_nil_r. Qed.

Lemma silent_bind {A B} (m : M A) (k : A -> M B) :
  silent m -> (forall a, silent (k a)) -> silent (bind m k).
Proof.
  intros Hm Hk w. unfold bind. specialize (Hm w).
  destruct (m w) as [[a|e|c] w']; simpl in *; try exact Hm.
  eapply silent_step_trans; [exact Hm | apply Hk].
Qed.

Lemma silent_try {A} (m : M A) handler :
  silent m -> (forall e h, handler e = Some h -> silent h) ->
  silent (try_except m handler).
Proof.
  intros Hm Hh w. unfold try_except. specialize (Hm w).
  destruct (m w) as [[a|e|c] w']; simpl in *; try exact Hm.
  destruct (handler e) as [h|] eqn:E; [|exact Hm].
  eapply silent_step_trans; [exact Hm | exact (Hh e h E w')].
Qed.

Lemma silent_same_trace {A} (f : M A) :
  (forall w, trace (f w).2 = trace w) -> silent f.
Proof. intros Hf w. apply silent_step_same_trace, Hf. Qed.

Lemma silent_call {A} op ev (act : M A) :
  stdout_of [ev] = "" -> is_spawn ev = false ->
  (forall w, trace (act w).2 = trace w) ->
  silent (call op ev act).
Proof.
  intros Hs Hp Ha w. unfold call.
  assert (silent_step w (log ev w)) as Hlog.
  { exists [ev]. simpl. split; [reflexivity|]. split; [exact Hs|].
    unfold spawn_count. simpl. now rewrite Hp. }
  destruct (fault (log ev w) op); simpl; [exact Hlog|].
  eapply silent_step_trans; [exact Hlog|].
  apply silent_step_same_trace, Ha.
Qed.

Lemma _create_endpoint_silent self ip : silent (_create_endpoint self ip).
Proof.
  unfold _create_endpoint, create_endpoint. apply silent_try.
  - apply silent_call; reflexivity || (intros w; reflexivity).
  - intros [] h [= <-]; apply silent_same_trace; reflexivity.
Qed.

Lemma _provision_veth_silent self ep : silent (_provision_veth self ep).
Proof.
  intros w. unfold _provision_veth. cbv zeta.
  refine (silent_bind _ _ _ _ w); [|intros mac].
  - unfold provision_veth. apply silent_call; reflexivity || (intros w0; reflexivity).
  - apply silent_bind; [|intros _; apply silent_same_trace; reflexivity].
    unfold set_endpoint. apply silent_call; reflexivity || (intros w0; reflexivity).
Qed.

Lemma set_profile_silent driver ep : silent (set_profile driver ep).
Proof.
  destruct driver; simpl; [|apply silent_same_trace; reflexivity].
  apply silent_call; reflexivity || (intros w0; reflexivity).
Qed.

Lemma add_effects_silent self ip : silent (add_effects self ip).
Proof.
  unfold add_effects.
  apply silent_bind; [apply _create_endpoint_silent | intros ep].
  apply silent_bind; [apply _provision_veth_silent | intros ep'].
  apply set_profile_silent.
Qed.

Lemma add_steps_effects self ip w :
  add_steps self ip w =
  match add_effects self ip w with
  | (Ok _, w') => (Ok tt, log (EvStdout (json_dumps (ipam_result self))) w')
  | (Raise e, w') => (Raise e, w')
  | (Exit c, w') => (Exit c, w')
  end.
Proof.
  unfold add_steps, add_effects, bind, print.
  destruct (_create_endpoint self ip w) as [[ep|e|c] w1]; try reflexivity.
  destruct (_provision_veth self ep w1) as [[ep'|e|c] w2]; try reflexivity.
Qed.

(** [_assign_ip], by cases on how it ends. *)
Lemma _assign_ip_cases self w :
  match _assign_ip self w with
  | (Ok (self', assigned_ip), w') =>
      exists plugin_path out doc,
        (_find_ipam_plugin self w).1 = Ok plugin_path
        /\ PyStr.is_empty plugin_path = false
        /\ fault w OpPopen = None
        /\ ipam_child w (env self) plugin_path (json_dumps (network_config self))
           = (0%Z, out)
        /\ json_loads out = Some doc
        /\ self' = set_ipam_result doc self
        /\ w' = log (EvSpawn plugin_path (json_dumps (network_config self))) w
  | (Exit c, w') =>
      c <> 0%Z
      /\ (w' = w \/ exists plugin_path,
            (_find_ipam_plugin self w).1 = Ok plugin_path
            /\ w' = log (EvSpawn plugin_path (json_dumps (network_config self))) w)
  | (Raise _, w') =>
      w' = w \/ exists plugin_path,
            (_find_ipam_plugin self w).1 = Ok plugin_path
            /\ w' = log (EvSpawn plugin_path (json_dumps (network_config self))) w
  end.
Proof.
  unfold _assign_ip, bind. rewrite _call_ipam_plugin_cases.
  destruct ((_find_ipam_plugin self w).1) as [path|e|c] eqn:Ef; simpl; auto.
  2:{ pose proof (_find_ipam_plugin_exits (fun _ => False) self w) as Hx.
      now rewrite Ef in Hx. }
  destruct (PyStr.is_empty path) eqn:Ee; simpl; [split; [lia | auto]|].
  destruct (fault w OpPopen) eqn:Efa; simpl; [eauto|].
  destruct (ipam_child w (env self) path (json_dumps (network_config self)))
    as [rc out] eqn:Ei; simpl.
  destruct (Z.eqb_spec rc 0) as [->|Hrc]; simpl; [|eauto].
  destruct (json_loads out) as [doc|] eqn:Ej; simpl; [|split; [lia | eauto]].
  unfold try_except, lift, sys_exit, ret.
  destruct (rbind _ _) as [ip|e|c] eqn:Eip; simpl.
  - exists path, out, doc. auto 10.
  - destruct e; simpl; eauto; split; (lia || eauto).
  - unfold rbind, of_sum in Eip.
    destruct (getitem doc "ip4") as [ip4| |] eqn:E4;
      [|discriminate | now apply getitem_no_exit in E4].
    destruct (getitem ip4 "ip") as [ip| |] eqn:E5;
      [|discriminate | now apply getitem_no_exit in E5].
    destruct (IPNetwork_new ip); discriminate.
Qed.

End PluginFacts.

(** ** The ADD and DELETE paths: claims C1 to C4 and C6 *)

Section OrchestrationClaims.
Context `{PyLib}.

Lemma ipam_failure_execute self w r :
  ipam_failure self w r ->
  execute self w = r
  /\ stdout_of (trace r.2) = stdout_of (trace w)
  /\ datastore r.2 = datastore w /\ veths r.2 = veths w.
Proof.
  intros (Hcmd & w1 & path & out & Hh & Hf & He & Hfa & Hi & Hrc & Hw).
  destruct r as [rc w']. simpl in *. subst w'.
  assert (w1 = w \/ w1 = log (EvDockerInspect (container_id self)) w) as Hw1.
  { unfold uses_host_networking, call, ret in Hh.
    destruct (container_engine self); [left; congruence|].
    destruct (fault _ _); [discriminate|]. right. congruence. }
  split.
  - unfold execute, _execute. rewrite Hcmd. simpl.
    unfold add, bind. rewrite Hh.
    unfold _assign_ip, bind. rewrite _call_ipam_plugin_cases, Hf, He, Hfa. simpl.
    rewrite Hi. simpl.
    destruct (Z.eqb_spec rc 0); [contradiction | reflexivity].
  - destruct Hw1 as [-> | ->]; simpl; rewrite ?stdout_of_app; simpl;
      rewrite ?append_nil_r; auto.
Qed.

Lemma exit_status_small c :
  (-256 < c < 256)%Z ->
  (exit_status c = 0%Z <-> c = 0%Z)
  /\ (0 < c -> exit_status c = c)%Z
  /\ (c < 0 -> exit_status c = 256 + c)%Z.
Proof. unfold exit_status. intros Hc. Z.div_mod_to_equations. lia. Qed.

Lemma ipam_failure_code self w r :
  popen_codes w -> ipam_failure self w r -> (-256 < r.1 < 256)%Z.
Proof.
  intros Hcodes (_ & w1 & path & out & Hh & _ & _ & _ & Hi & _).
  assert (ipam_child w1 = ipam_child w) as Hw1.
  { unfold uses_host_networking, call, ret in Hh.
    destruct (container_engine self); [congruence|].
    destruct (fault _ _); [discriminate|]. now injection Hh as _ <-. }
  rewrite Hw1 in Hi.
  specialize (Hcodes (env self) path (json_dumps (network_config self))).
  now rewrite Hi in Hcodes.
Qed.

Lemma execute_code_range self w :
  popen_codes w -> (-256 < (execute self w).1 < 256)%Z.
Proof.
  intros Hcodes. destruct (execute_codes self w) as [-> | [-> | Hf]]; [lia | lia|].
  exact (ipam_failure_code self w _ Hcodes Hf).
Qed.

Lemma main_not_constructed stdin environ w :
  (forall plugin, ~ constructed stdin environ plugin) ->
  main stdin environ w = (1%Z, w).
Proof.
  intros Hnone. unfold main.
  destruct (json_loads _) as [[| | | | | |items]|] eqn:Ej; try reflexivity.
  destruct (CniPlugin_init (JDict items) environ) as [plugin|e|c] eqn:Ei.
  - destruct (Hnone plugin). now exists items.
  - reflexivity.
  - apply CniPlugin_init_exit in Ei. now subst c.
Qed.

Lemma main_constructed stdin environ plugin w :
  constructed stdin environ plugin ->
  main stdin environ w = (exit_status (execute plugin w).1, (execute plugin w).2).
Proof. intros (items & Hj & Hi). unfold main. now rewrite Hj, Hi. Qed.

Lemma constructed_unique stdin environ plugin plugin' :
  constructed stdin environ plugin -> constructed stdin environ plugin' ->
  plugin = plugin'.
Proof. intros (items & Hj & Hi) (items' & Hj' & Hi'). congruence. Qed.


Lemma silent_step_spawn_count w w' :
  silent_step w w' -> spawn_count (trace w') = spawn_count (trace w).
Proof.
  intros (evs & -> & _ & Hc). rewrite spawn_count_app, Hc. lia.
Qed.

Lemma uses_host_networking_silent engine container_id :
  silent (uses_host_networking engine container_id).
Proof.
  destruct engine; simpl; [apply silent_same_trace; reflexivity|].
  apply silent_call; reflexivity || (intros w; reflexivity).
Qed.

(** An ADD starts the IPAM child once at most: whatever happens after the
    child has assigned an address, no second run releases it. *)
Theorem add_starts_ipam_once (self : CniPlugin) (w : World) :
  command self = CNI_CMD_ADD ->
  (spawn_count (trace (execute self w).2) <= S (spawn_count (trace w)))%nat.
Proof.
  intros Hcmd. unfold execute, _execute. rewrite Hcmd. simpl.
  unfold add, bind.
  pose proof (uses_host_networking_silent (container_engine self)
                (container_id self) w) as Hp.
  apply silent_step_spawn_count in Hp.
  destruct (uses_host_networking _ _ w) as [[[|]|e|c] w1]; simpl in *; try lia.
  pose proof (_assign_ip_cases self w1) as Ha.
  assert (forall path,
            spawn_count (trace (log (EvSpawn path (json_dumps (network_config self))) w1))
            = S (spawn_count (trace w))) as Hlog.
  { intros path. simpl. rewrite spawn_count_app, Hp. unfold spawn_count. simpl. lia. }
  destruct (_assign_ip self w1) as [[[self' ip]|e|c] w2]; simpl.
  - destruct Ha as (path & out & doc & _ & _ & _ & _ & _ & -> & ->).
    change (spawn_count
              (trace (match add_steps (set_ipam_result doc self) ip
                              (log (EvSpawn path (json_dumps (network_config self))) w1)
                      with
                      | (Ok _, w') => (0%Z, w')
                      | (Raise _, w') => (1%Z, w')
                      | (Exit code, w') => (code, w')
                      end).2) <= S (spawn_count (trace w)))%nat.
    rewrite add_steps_effects.
    pose proof (add_effects_silent (set_ipam_result doc self) ip
                  (log (EvSpawn path (json_dumps (network_config self))) w1)) as Hs.
    apply silent_step_spawn_count in Hs. rewrite Hlog in Hs.
    destruct (add_effects _ _ _) as [[[]|e|c] w3]; simpl in *;
      rewrite ?spawn_count_app, Hs; unfold spawn_count; simpl; lia.
  - destruct Ha as [-> | (path & _ & ->)]; [lia | rewrite Hlog; lia].
  - destruct Ha as [_ [-> | (path & _ & ->)]]; [lia | rewrite Hlog; lia].
Qed.

(** The probe answers true only after asking Docker, which changes nothing
    on the host. *)
Lemma probe_reports_host engine container_id w w1 :
  uses_host_networking engine container_id w = (Ok true, w1) ->
  w1 = log (EvDockerInspect container_id) w.
Proof.
  unfold uses_host_networking, call, ret. intros Hh.
  destruct engine; [discriminate|].
  destruct (fault _ _); [discriminate|]. now injection Hh as _ <-.
Qed.

(** C6: when the engine probe of an ADD reports host networking, the plugin
    returns code 0 having done nothing but ask the probe: nothing is printed,
    the IPAM child is not started, and the datastore and the veths of the host
    are as they were. *)
Theorem add_host_networking (self : CniPlugin) (w w1 : World) :
  command self = CNI_CMD_ADD ->
  uses_host_networking (container_engine self) (container_id self) w = (Ok true, w1) ->
  execute self w = (0%Z, w1)
  /\ trace w1 = trace w ++ [EvDockerInspect (container_id self)]
  /\ stdout_of (trace w1) = stdout_of (trace w)
  /\ spawn_count (trace w1) = spawn_count (trace w)
  /\ datastore w1 = datastore w /\ veths w1 = veths w.
Proof.
  intros Hcmd Hh. split.
  - unfold execute, _execute. rewrite Hcmd. simpl.
    unfold add, bind. now rewrite Hh.
  - apply probe_reports_host in Hh as ->. simpl.
    rewrite stdout_of_app, spawn_count_app. simpl.
    rewrite append_nil_r. repeat split; auto.
Qed.

(** C3, as the code has it: an ADD that returns code 0 either stopped at
    the host-networking probe, having printed nothing, or printed exactly one
    line, after every other step: the document the IPAM child wrote, parsed by
    [json.loads] and written again by [json.dumps]. *)
Theorem add_success_stdout (self : CniPlugin) (w w' : World) :
  command self = CNI_CMD_ADD ->
  execute self w = (0%Z, w') ->
  (uses_host_networking (container_engine self) (container_id self) w = (Ok true, w')
   /\ stdout_of (trace w') = stdout_of (trace w))
  \/ exists w1 plugin_path out doc evs,
       uses_host_networking (container_engine self) (container_id self) w = (Ok false, w1)
       /\ (_find_ipam_plugin self w1).1 = Ok plugin_path
       /\ ipam_child w1 (env self) plugin_path (json_dumps (network_config self))
          = (0%Z, out)
       /\ json_loads out = Some doc
       /\ trace w' = trace w ++ evs ++ [EvStdout (json_dumps doc)]
       /\ stdout_of evs = ""
       /\ stdout_of (trace w')
          = stdout_of (trace w) +:+ json_dumps doc +:+ String PyStr.LF "".
Proof.
  intros Hcmd Hx.
  unfold execute, _execute in Hx. rewrite Hcmd in Hx. simpl in Hx.
  unfold add, bind in Hx.
  destruct (uses_host_networking _ _ w) as [[[|]|e|c] w1] eqn:Eh.
  - left. injection Hx as <-. split; [reflexivity|].
    apply probe_reports_host in Eh as ->. simpl.
    rewrite stdout_of_app. simpl. now rewrite append_nil_r.
  - right.
    assert (silent_step w w1) as Hw1.
    { unfold uses_host_networking, call, ret in Eh.
      destruct (container_engine self).
      - injection Eh as <-. apply silent_step_refl.
      - destruct (fault _ _); [discriminate|]. injection Eh as _ <-.
        exists [EvDockerInspect (container_id self)]. auto. }
    pose proof (_assign_ip_cases self w1) as Ha.
    destruct (_assign_ip self w1) as [[[self' ip]|e|c] w2]; simpl in Hx.
    + destruct Ha as (path & out & doc & Hf & He & Hfa & Hi & Hj & -> & ->).
      change (match add_steps (set_ipam_result doc self) ip
                      (log (EvSpawn path (json_dumps (network_config self))) w1)
              with
              | (Ok _, w'0) => (0%Z, w'0)
              | (Raise _, w'0) => (1%Z, w'0)
              | (Exit code, w'0) => (code, w'0)
              end = (0%Z, w')) in Hx.
      pose proof (add_steps_exits (set_ipam_result doc self) ip
                    (log (EvSpawn path (json_dumps (network_config self))) w1)) as Hex.
      rewrite add_steps_effects in Hx, Hex.
      pose proof (add_effects_silent (set_ipam_result doc self) ip
                    (log (EvSpawn path (json_dumps (network_config self))) w1)) as Hs.
      destruct (add_effects _ _ _) as [[[]|e|c] w3]; simpl in *;
        [|discriminate | congruence].
      injection Hx as <-.
      destruct Hw1 as (e1 & T1 & S1 & _). destruct Hs as (e3 & T3 & S3 & _).
      exists w1, path, out, doc,
        (e1 ++ EvSpawn path (json_dumps (network_config self)) :: e3).
      simpl in T3. simpl.
      assert (stdout_of (e1 ++ EvSpawn path (json_dumps (network_config self)) :: e3) = "")
        as Hq by (rewrite stdout_of_app; simpl; now rewrite S1, S3).
      repeat split; auto.
      * rewrite T3, T1, <- !app_assoc. reflexivity.
      * rewrite T3, T1, !stdout_of_app. simpl. rewrite S1, S3. simpl.
        now rewrite !append_nil_r.
    + discriminate.
    + destruct Ha as [Hc _]. congruence.
  - discriminate.
  - unfold uses_host_networking, call, ret in Eh.
    destruct (container_engine self); [discriminate|].
    destruct (fault _ _); discriminate.
Qed.

Ltac trace_facts :=
  simpl; rewrite ?spawn_count_app, ?stdout_of_app; simpl;
  rewrite ?append_nil_r; try (unfold spawn_count; simpl; lia); auto.

(** A DELETE whose endpoint lookup is ambiguous stops there with code 1. *)
Lemma delete_ambiguous self w plugin_path :
  let key := (HOSTNAME, ORCHESTRATOR_ID, container_id self) in
  command self = CNI_CMD_DELETE ->
  (_find_ipam_plugin self w).1 = Ok plugin_path ->
  PyStr.is_empty plugin_path = false ->
  fault w OpPopen = None ->
  fault w OpGetEndpoint = None ->
  (2 <= List.length (endpoints_under w key))%nat ->
  (execute self w).1 = 1%Z
  /\ spawn_count (trace (execute self w).2) = S (spawn_count (trace w))
  /\ datastore (execute self w).2 = datastore w
  /\ veths (execute self w).2 = veths w.
Proof.
  intros key Hcmd Hf He Hpo Hge Hlen.
  unfold execute, _execute. rewrite Hcmd. simpl.
  unfold delete, _release_ip, bind.
  rewrite _call_ipam_plugin_cases, Hf, He, Hpo. simpl.
  unfold _get_endpoint, get_endpoint, try_except, call, bind, ret, sys_exit. simpl.
  fold key. rewrite Hge.
  change (endpoints_under (log _ (log _ w)) key) with (endpoints_under w key).
  destruct (endpoints_under w key) as [|ep [|ep' eps]]; simpl in Hlen; try lia.
  simpl. repeat split; trace_facts.
Qed.

(** The outcome of a DELETE whose IPAM binary was found and started, and whose
    endpoint lookup is not ambiguous. *)
Lemma delete_completes self w plugin_path :
  let key := (HOSTNAME, ORCHESTRATOR_ID, container_id self) in
  command self = CNI_CMD_DELETE ->
  (_find_ipam_plugin self w).1 = Ok plugin_path ->
  PyStr.is_empty plugin_path = false ->
  fault w OpPopen = None ->
  none_or_not_found (fault w OpGetEndpoint) ->
  (List.length (endpoints_under w key) <= 1)%nat ->
  fault w OpRemoveVeth = None ->
  none_or_not_found (fault w OpRemoveWorkload) ->
  fault w OpRemoveProfile = None ->
  (execute self w).1 = 0%Z
  /\ spawn_count (trace (execute self w).2) = S (spawn_count (trace w))
  /\ stdout_of (trace (execute self w).2) = stdout_of (trace w)
  /\ (fault w OpGetEndpoint = None -> fault w OpRemoveWorkload = None ->
      endpoints_under (execute self w).2 key = []
      /\ forall ep, endpoints_under w key = [ep] ->
                    ep_name ep ∉ veths (execute self w).2).
Proof.
  intros key Hcmd Hf He Hpo Hge Hlen Hrv Hrw Hrp.
  unfold execute, _execute. rewrite Hcmd. simpl.
  unfold delete, _release_ip, bind.
  rewrite _call_ipam_plugin_cases, Hf, He, Hpo. simpl.
  unfold _get_endpoint, get_endpoint, try_except, call, bind, ret, sys_exit. simpl.
  fold key.
  destruct (fault w OpGetEndpoint) as [[]|] eqn:Ege; try contradiction; simpl.
  { repeat split; trace_facts; discriminate. }
  change (endpoints_under (log _ (log _ w)) key) with (endpoints_under w key).
  destruct (endpoints_under w key) as [|ep [|ep' eps]] eqn:Eeps; simpl in Hlen;
    [| |lia]; simpl.
  { repeat split; trace_facts. intros ep [=]. }
  unfold remove_veth, _remove_endpoint, remove_workload, try_except, call, bind,
    ret. simpl.
  rewrite Hrv. simpl. fold key.
  assert (datastore w !! key = Some [ep]) as Hds.
  { revert Eeps. unfold endpoints_under.
    destruct (datastore w !! key) as [l|]; simpl;
      [intros ->; reflexivity | discriminate]. }
  destruct (fault w OpRemoveWorkload) as [[]|] eqn:Erw; try contradiction; simpl.
  { unfold remove_profile, call, ret. destruct (policy_driver self); simpl;
      rewrite ?Hrp; repeat split; trace_facts; discriminate. }
  rewrite Hds. simpl.
  unfold remove_profile, call, ret.
  destruct (policy_driver self); simpl; rewrite ?Hrp; simpl;
    repeat split; trace_facts;
    try (unfold endpoints_under; simpl; now rewrite lookup_delete_eq);
    try (intros ? [= <-] [_ Hn]%elem_of_difference; apply Hn;
         now apply elem_of_singleton).
Qed.

(** A DELETE whose endpoint lookup raises anything but KeyError stops there
    with code 1. *)
Lemma delete_lookup_error self w plugin_path e :
  command self = CNI_CMD_DELETE ->
  (_find_ipam_plugin self w).1 = Ok plugin_path ->
  PyStr.is_empty plugin_path = false ->
  fault w OpPopen = None ->
  fault w OpGetEndpoint = Some e -> (forall k, e <> KeyError k) ->
  (execute self w).1 = 1%Z
  /\ spawn_count (trace (execute self w).2) = S (spawn_count (trace w))
  /\ datastore (execute self w).2 = datastore w
  /\ veths (execute self w).2 = veths w.
Proof.
  intros Hcmd Hf He Hpo Hge Hk.
  unfold execute, _execute. rewrite Hcmd. simpl.
  unfold delete, _release_ip, bind.
  rewrite _call_ipam_plugin_cases, Hf, He, Hpo. simpl.
  unfold _get_endpoint, get_endpoint, try_except, call, bind, ret, sys_exit. simpl.
  rewrite Hge.
  destruct e; try (now destruct (Hk key)); simpl; repeat split; trace_facts.
Qed.

(** A DELETE that found its endpoint and whose [remove_veth] raises, or
    whose [remove_workload] raises anything but KeyError, stops there with
    code 1 and the endpoint still stored. *)
Lemma delete_removal_error self w plugin_path ep e :
  let key := (HOSTNAME, ORCHESTRATOR_ID, container_id self) in
  command self = CNI_CMD_DELETE ->
  (_find_ipam_plugin self w).1 = Ok plugin_path ->
  PyStr.is_empty plugin_path = false ->
  fault w OpPopen = None ->
  fault w OpGetEndpoint = None ->
  endpoints_under w key = [ep] ->
  fault w OpRemoveVeth = Some e
  \/ (fault w OpRemoveVeth = None /\ fault w OpRemoveWorkload = Some e
      /\ forall k, e <> KeyError k) ->
  (execute self w).1 = 1%Z
  /\ endpoints_under (execute self w).2 key = [ep].
Proof.
  intros key Hcmd Hf He Hpo Hge Heps Hfail.
  unfold execute, _execute. rewrite Hcmd. simpl.
  unfold delete, _release_ip, bind.
  rewrite _call_ipam_plugin_cases, Hf, He, Hpo. simpl.
  unfold _get_endpoint, get_endpoint, try_except, call, bind, ret, sys_exit. simpl.
  fold key. rewrite Hge.
  change (endpoints_under (log _ (log _ w)) key) with (endpoints_under w key).
  rewrite Heps. simpl.
  unfold remove_veth, _remove_endpoint, remove_workload, try_except, call, bind,
    ret. simpl.
  destruct Hfail as [-> | (-> & Hrw & Hk)]; simpl; [now split|].
  fold key. rewrite Hrw.
  destruct e; try (now destruct (Hk key0)); simpl; now split.
Qed.

(** C2, as the code has it.  A DELETE returns 1 at once, having changed
    nothing, when no IPAM binary is found.  When the binary is found and
    started, it returns 1 after an ambiguous endpoint lookup, leaving
    datastore and veths as they were, and also when [get_endpoint] raises
    anything but KeyError; once the endpoint is found it returns 1, the
    endpoint still stored, when [remove_veth] raises or [remove_workload]
    raises anything but KeyError.  Otherwise, that is when [get_endpoint]
    and [remove_workload] answer or raise KeyError, the lookup is not
    ambiguous and neither [remove_veth] nor [remove_profile] raises, it
    returns 0 whatever the IPAM child returns, whether or not an endpoint is
    found: the IPAM child has then been started exactly once and nothing was
    printed, and, when neither datastore call was made to fail, no endpoint
    is left under the workload key and no veth with the name of the endpoint
    that was found is left on the host. *)
Theorem delete_tolerant (self : CniPlugin) (w : World) (plugin_path : string) :
  let key := (HOSTNAME, ORCHESTRATOR_ID, container_id self) in
  command self = CNI_CMD_DELETE ->
  (_find_ipam_plugin self w).1 = Ok plugin_path ->
  (PyStr.is_empty plugin_path = true -> execute self w = (1%Z, w))
  /\ (PyStr.is_empty plugin_path = false -> fault w OpPopen = None ->
      (fault w OpGetEndpoint = None ->
       (2 <= List.length (endpoints_under w key))%nat ->
       (execute self w).1 = 1%Z
       /\ spawn_count (trace (execute self w).2) = S (spawn_count (trace w))
       /\ datastore (execute self w).2 = datastore w
       /\ veths (execute self w).2 = veths w)
      /\ (none_or_not_found (fault w OpGetEndpoint) ->
          (List.length (endpoints_under w key) <= 1)%nat ->
          fault w OpRemoveVeth = None ->
          none_or_not_found (fault w OpRemoveWorkload) ->
          fault w OpRemoveProfile = None ->
          (execute self w).1 = 0%Z
          /\ spawn_count (trace (execute self w).2) = S (spawn_count (trace w))
          /\ stdout_of (trace (execute self w).2) = stdout_of (trace w)
          /\ (fault w OpGetEndpoint = None -> fault w OpRemoveWorkload = None ->
              endpoints_under (execute self w).2 key = []
              /\ forall ep, endpoints_under w key = [ep] ->
                            ep_name ep ∉ veths (execute self w).2))
      /\ (forall e, fault w OpGetEndpoint = Some e -> (forall k, e <> KeyError k) ->
          (execute self w).1 = 1%Z
          /\ spawn_count (trace (execute self w).2) = S (spawn_count (trace w))
          /\ datastore (execute self w).2 = datastore w
          /\ veths (execute self w).2 = veths w)
      /\ (forall e ep, fault w OpGetEndpoint = None ->
          endpoints_under w key = [ep] ->
          fault w OpRemoveVeth = Some e
          \/ (fault w OpRemoveVeth = None /\ fault w OpRemoveWorkload = Some e
              /\ forall k, e <> KeyError k) ->
          (execute self w).1 = 1%Z
          /\ endpoints_under (execute self w).2 key = [ep])).
Proof.
  intros key Hcmd Hf. split; [|intros He Hpo; split; [|split; [|split]]].
  - intros He. unfold execute, _execute. rewrite Hcmd. simpl.
    unfold delete, _release_ip, bind.
    now rewrite _call_ipam_plugin_cases, Hf, He.
  - intros Hge Hlen. now apply (delete_ambiguous self w plugin_path).
  - intros Hge Hlen Hrv Hrw Hrp. now apply (delete_completes self w plugin_path).
  - intros e Hge Hk. now apply (delete_lookup_error self w plugin_path e).
  - intros e ep Hge Heps Hfail.
    now apply (delete_removal_error self w plugin_path ep e).
Qed.

End OrchestrationClaims.

(** ** Construction and the search for the IPAM binary: claims C5, C8, C9 *)

Section ConstructionClaims.
Context `{PyLib}.

Lemma rbind_raise {A B} (r : result A) (k : A -> result B) e :
  rbind r k = Raise e -> r = Raise e \/ exists a, r = Ok a /\ k a = Raise e.
Proof. destruct r; simpl; [eauto | intros [= <-]; auto | discriminate]. Qed.

Lemma env_get_some environ key v :
  environ !! key = Some v -> env_get environ key = Ok v.
Proof. unfold env_get. now intros ->. Qed.

Lemma _get_policy_driver_raise args name e :
  _get_policy_driver args name = Raise e -> False.
Proof.
  unfold _get_policy_driver, DefaultPolicyDriver_new.
  destruct (args !! "K8S_POD_NAME"); [discriminate|].
  destruct name; try discriminate.
  destruct (_ && _); discriminate.
Qed.

(** C5, as the code has it: construction reads CNI_COMMAND, CNI_CONTAINERID,
    CNI_NETNS, CNI_IFNAME, CNI_ARGS and CNI_PATH whatever the command.  When
    all six are defined it does not fail for a missing variable, and it
    returns the plugin as soon as the network configuration has a name the
    policy driver accepts; when one of the six is missing it raises KeyError
    for a missing one. *)
Theorem CniPlugin_init_env (nc : json) (environ : gmap string string) :
  (Forall (fun v => is_Some (environ !! v)) required_env ->
   (forall v, v ∈ required_env -> CniPlugin_init nc environ <> Raise (KeyError v))
   /\ (forall args name driver,
         environ !! CNI_ARGS_ENV = Some args ->
         getitem nc "name" = Ok name ->
         _get_policy_driver (parse_cni_args args) name = Ok driver ->
         exists self, CniPlugin_init nc environ = Ok self
                      /\ environ !! CNI_COMMAND_ENV = Some (command self)
                      /\ cni_args self = parse_cni_args args
                      /\ policy_driver self = driver))
  /\ (forall v, v ∈ required_env -> environ !! v = None ->
        exists v', v' ∈ required_env /\ environ !! v' = None
                   /\ CniPlugin_init nc environ = Raise (KeyError v')).
Proof.
  split.
  - intros Hall. unfold required_env in Hall.
    repeat match goal with
           | Hx : Forall _ (_ :: _) |- _ =>
               let Hv := fresh "Hv" in
               apply Forall_cons in Hx as [[? Hv] Hx]
           end.
    unfold CniPlugin_init.
    rewrite (env_get_some _ _ _ Hv), (env_get_some _ _ _ Hv0),
      (env_get_some _ _ _ Hv1), (env_get_some _ _ _ Hv2),
      (env_get_some _ _ _ Hv3), (env_get_some _ _ _ Hv4). simpl.
    split.
    + intros v Hin Hr.
      apply rbind_raise in Hr as [Hr | (name & _ & Hr)].
      * unfold getitem in Hr. repeat case_match; simplify_eq.
        unfold required_env in Hin.
        repeat (apply elem_of_cons in Hin as [Hin | Hin]; [discriminate|]).
        now apply elem_of_nil in Hin.
      * apply rbind_raise in Hr as [Hr | (d & _ & Hr)]; [|discriminate].
        now apply _get_policy_driver_raise in Hr.
    + intros args name driver Ha Hn Hd.
      assert (x3 = args) as -> by congruence.
      rewrite Hn. simpl. rewrite Hd. simpl.
      eexists. split; [reflexivity|]. simpl. auto.
  - intros v Hin Hv. unfold CniPlugin_init, env_get.
    unfold required_env in *.
    destruct (environ !! CNI_COMMAND_ENV) eqn:E1;
      [|exists CNI_COMMAND_ENV; split; [repeat constructor | auto]].
    destruct (environ !! CNI_CONTAINERID_ENV) eqn:E2;
      [|exists CNI_CONTAINERID_ENV; split; [repeat constructor | auto]].
    destruct (environ !! CNI_NETNS_ENV) eqn:E3;
      [|exists CNI_NETNS_ENV; split; [repeat constructor | auto]].
    destruct (environ !! CNI_IFNAME_ENV) eqn:E4;
      [|exists CNI_IFNAME_ENV; split; [repeat constructor | auto]].
    destruct (environ !! CNI_ARGS_ENV) eqn:E5;
      [|exists CNI_ARGS_ENV; split; [repeat constructor | auto]].
    destruct (environ !! CNI_PATH_ENV) eqn:E6;
      [|exists CNI_PATH_ENV; split; [repeat constructor | auto]].
    exfalso.
    repeat (apply elem_of_cons in Hin as [-> | Hin]; [congruence|]).
    now apply elem_of_nil in Hin.
Qed.

Lemma rbind_ok {A B} (r : result A) (k : A -> result B) b :
  rbind r k = Ok b -> exists a, r = Ok a /\ k a = Ok b.
Proof. destruct r; simpl; [eauto | discriminate | discriminate]. Qed.

Lemma env_get_ok environ key v : env_get environ key = Ok v -> environ !! key = Some v.
Proof. unfold env_get. destruct (environ !! key); [congruence | discriminate]. Qed.

Lemma CniPlugin_init_ok nc environ self :
  CniPlugin_init nc environ = Ok self ->
  exists args,
    environ !! CNI_ARGS_ENV = Some args
    /\ cni_args self = parse_cni_args args
    /\ getitem nc "name" = Ok (network_name self)
    /\ _get_policy_driver (cni_args self) (network_name self) = Ok (policy_driver self)
    /\ container_engine self = _get_container_engine (cni_args self).
Proof.
  unfold CniPlugin_init. intros Hi.
  apply rbind_ok in Hi as (cmd & _ & Hi).
  apply rbind_ok in Hi as (cid & _ & Hi).
  apply rbind_ok in Hi as (netns & _ & Hi).
  apply rbind_ok in Hi as (ifname & _ & Hi).
  apply rbind_ok in Hi as (args & Ha%env_get_ok & Hi).
  apply rbind_ok in Hi as (path & _ & Hi).
  apply rbind_ok in Hi as (name & Hn & Hi).
  apply rbind_ok in Hi as (driver & Hd & Hi).
  injection Hi as <-. simpl. eauto 10.
Qed.

(** C9: in a plugin that has been constructed, [cni_args] is the parsed
    CNI_ARGS; it contains the key K8S_POD_NAME exactly when the policy driver
    is the Kubernetes default and the container engine is the Docker one;
    without the key, the policy driver is the per-network default, named
    after the network, and the container engine is the default one. *)
Theorem driver_and_engine_selection (nc : json) (environ : gmap string string)
    (self : CniPlugin) :
  CniPlugin_init nc environ = Ok self ->
  (exists args, environ !! CNI_ARGS_ENV = Some args
                /\ cni_args self = parse_cni_args args)
  /\ (is_Some (cni_args self !! "K8S_POD_NAME") <->
      policy_driver self = KubernetesDefaultPolicyDriver
      /\ container_engine self = DockerEngine)
  /\ (cni_args self !! "K8S_POD_NAME" = None ->
      (exists name, network_name self = JString name
                    /\ policy_driver self = DefaultPolicyDriver name)
      /\ container_engine self = DefaultEngine).
Proof.
  intros (args & Ha & Hc & Hn & Hd & He)%CniPlugin_init_ok.
  split; [eauto|].
  unfold _get_policy_driver, DefaultPolicyDriver_new in Hd.
  unfold _get_container_engine in He.
  destruct (cni_args self !! "K8S_POD_NAME") as [pod|] eqn:Ek.
  - rewrite bool_decide_eq_true_2 in He by eauto.
    injection Hd as <-. split; [|discriminate].
    split; [auto | eauto].
  - rewrite bool_decide_eq_false_2 in He by (intros [? [=]]).
    split.
    + split; [intros [? [=]]|]. intros [_ Hx]. congruence.
    + intros _. split; [|exact He].
      destruct (network_name self) as [| | | |name| |]; try discriminate.
      destruct (_ && _); [|discriminate]. injection Hd as <-. eauto.
Qed.

End ConstructionClaims.

Section FindIpamClaims.
Context `{PyLib}.

Lemma normpath_nonempty path : PyStr.is_empty (OsPath.normpath path) = false.
Proof.
  unfold OsPath.normpath.
  destruct (PyStr.is_empty path); [reflexivity|].
  cbv zeta.
  match goal with |- context [if PyStr.is_empty ?x then _ else _] =>
    destruct (PyStr.is_empty x) eqn:E end; [reflexivity | exact E].
Qed.

Lemma abspath_nonempty cwd path : PyStr.is_empty (OsPath.abspath cwd path) = false.
Proof. unfold OsPath.abspath. destruct (OsPath.isabs path); apply normpath_nonempty. Qed.

Lemma find_in_path_first w plugin_type dirs :
  (exists i dir,
      dirs !! i = Some dir
      /\ find_in_path w plugin_type dirs = probe w plugin_type dir
      /\ isfile w (probe w plugin_type dir) = true
      /\ forall j dir', (j < i)%nat -> dirs !! j = Some dir' ->
                        isfile w (probe w plugin_type dir') = false)
  \/ (find_in_path w plugin_type dirs = ""
      /\ Forall (fun dir => isfile w (probe w plugin_type dir) = false) dirs).
Proof.
  induction dirs as [|dir dirs IH]; simpl.
  - right. split; [reflexivity | constructor].
  - fold (probe w plugin_type dir).
    destruct (isfile w (probe w plugin_type dir)) eqn:Ef.
    + left. exists 0%nat, dir. repeat split; auto. intros j dir' Hj. lia.
    + destruct IH as [(i & d & Hi & Hfound & Hfile & Hbefore) | [Hnone Hall]].
      * left. exists (S i), d. repeat split; auto.
        intros [|j] dir' Hj Hl; simpl in Hl.
        -- now injection Hl as <-.
        -- apply (Hbefore j); [lia | exact Hl].
      * right. split; [exact Hnone | now constructor].
Qed.

Lemma find_in_path_same_files w w' plugin_type dirs :
  cwd w' = cwd w -> isfile w' = isfile w ->
  find_in_path w' plugin_type dirs = find_in_path w plugin_type dirs.
Proof.
  intros Hc Hf. induction dirs as [|dir dirs IH]; simpl; [reflexivity|].
  now rewrite Hc, Hf, IH.
Qed.

Lemma _find_ipam_plugin_same_files self w w' :
  cwd w' = cwd w -> isfile w' = isfile w ->
  (_find_ipam_plugin self w').1 = (_find_ipam_plugin self w).1.
Proof.
  intros Hc Hf. unfold _find_ipam_plugin, bind, lift, raise.
  destruct (getitem (network_config self) "ipam") as [ipam| |]; try reflexivity.
  destruct (getitem ipam "type") as [[]| |]; try reflexivity.
  simpl. f_equal. now apply find_in_path_same_files.
Qed.

(** The search, in terms of the paths the code tests. *)
Lemma find_ipam_plugin_by_probe (self : CniPlugin) (w : World)
    (ipam : json) (plugin_type : string) :
  getitem (network_config self) "ipam" = Ok ipam ->
  getitem ipam "type" = Ok (JString plugin_type) ->
  let dirs := PyStr.split ":" (cni_path self) in
  (exists i dir,
      dirs !! i = Some dir
      /\ isfile w (probe w plugin_type dir) = true
      /\ (forall j dir', (j < i)%nat -> dirs !! j = Some dir' ->
                         isfile w (probe w plugin_type dir') = false)
      /\ _find_ipam_plugin self w = (Ok (probe w plugin_type dir), w)
      /\ _call_ipam_plugin self w
         = popen_communicate (env self) (probe w plugin_type dir)
             (json_dumps (network_config self)) w)
  \/ (Forall (fun dir => isfile w (probe w plugin_type dir) = false) dirs
      /\ _find_ipam_plugin self w = (Ok "", w)
      /\ _call_ipam_plugin self w = (Exit 1%Z, w)
      /\ spawn_count (trace (execute self w).2) = spawn_count (trace w)
      /\ ((execute self w).1 = 1%Z
          \/ command self = CNI_CMD_ADD
             /\ exists w1, uses_host_networking (container_engine self)
                             (container_id self) w = (Ok true, w1))).
Proof.
  intros Hipam Htype dirs.
  assert (forall w0, _find_ipam_plugin self w0
                     = (Ok (find_in_path w0 plugin_type dirs), w0)) as Hfind.
  { intros w0. unfold _find_ipam_plugin, bind, lift. now rewrite Hipam, Htype. }
  destruct (find_in_path_first w plugin_type dirs)
    as [(i & dir & Hi & Hfound & Hfile & Hbefore) | [Hnone Hall]].
  - left. exists i, dir. rewrite Hfind, Hfound. repeat split; auto.
    rewrite _call_ipam_plugin_cases, Hfind, Hfound. cbn [fst].
    unfold probe at 1. rewrite abspath_nonempty. fold (probe w plugin_type dir).
    unfold popen_communicate, call. cbn [fault log].
    destruct (fault w OpPopen); reflexivity.
  - right. rewrite Hfind, Hnone.
    assert (forall w0, cwd w0 = cwd w -> isfile w0 = isfile w ->
                       _call_ipam_plugin self w0 = (Exit 1%Z, w0)) as Hcall.
    { intros w0 Hc Hf. rewrite _call_ipam_plugin_cases.
      rewrite (_find_ipam_plugin_same_files self w w0 Hc Hf), Hfind, Hnone.
      reflexivity. }
    repeat split; auto.
    + unfold execute, _execute.
      destruct (String.eqb (command self) CNI_CMD_ADD).
      * unfold add, bind.
        destruct (uses_host_networking _ _ w) as [[[|]|e|c] w1] eqn:Eh;
          unfold uses_host_networking, call, ret in Eh;
          destruct (container_engine self); simplify_eq/=;
          try (destruct (fault _ _); simplify_eq/=);
          try (unfold _assign_ip, bind; rewrite Hcall by reflexivity; simpl);
          rewrite ?spawn_count_app; simpl; try reflexivity;
          unfold spawn_count; simpl; lia.
      * destruct (negb _); [reflexivity|].
        unfold delete, _release_ip, bind. now rewrite Hcall.
    + unfold execute, _execute.
      destruct (String.eqb (command self) CNI_CMD_ADD) eqn:Ecmd.
      * apply String.eqb_eq in Ecmd. unfold add, bind.
        destruct (uses_host_networking _ _ w) as [[[|]|e|c] w1] eqn:Eh.
        -- right. eauto.
        -- left. unfold uses_host_networking, call, ret in Eh.
           destruct (container_engine self); simplify_eq/=;
             try (destruct (fault _ _); simplify_eq/=);
             unfold _assign_ip, bind; now rewrite Hcall.
        -- left. reflexivity.
        -- unfold uses_host_networking, call, ret in Eh.
           destruct (container_engine self); simplify_eq/=.
           destruct (fault _ _); simplify_eq/=.
      * left. destruct (negb _); [reflexivity|].
        unfold delete, _release_ip, bind. now rewrite Hcall.
Qed.

Lemma join_plain dir plugin_type :
  OsPath.isabs plugin_type = false -> plain_dir dir = true ->
  OsPath.join dir plugin_type = spec_probe dir plugin_type.
Proof.
  unfold OsPath.isabs, OsPath.join, plain_dir, spec_probe. intros -> Hd.
  apply andb_prop in Hd as [Hne Hsl].
  apply negb_true_iff in Hne. apply negb_true_iff in Hsl.
  now rewrite Hne, Hsl.
Qed.

Lemma host_networked_add self w w1 :
  command self = CNI_CMD_ADD ->
  uses_host_networking (container_engine self) (container_id self) w = (Ok true, w1) ->
  execute self w = (0%Z, w1).
Proof.
  intros Hcmd Hh. unfold execute, _execute. rewrite Hcmd. simpl.
  unfold add, bind. now rewrite Hh.
Qed.


End FindIpamClaims.

(** * Further properties of the plugin *)

(** ** CNI_ARGS, fragment by fragment *)

Section CniArgsMore.

Lemma span_before_stop cls a d b :
  cls d = false ->
  span cls (a +:+ String d b) = ((span cls a).1, (span cls a).2 +:+ String d b).
Proof.
  intros Hd. induction a as [|c a IH]; simpl.
  - now rewrite Hd.
  - destruct (cls c); [now rewrite IH | reflexivity].
Qed.

Lemma endswith_char_tail c x s :
  PyStr.endswith_char c (String x s) = false -> PyStr.endswith_char c s = false.
Proof. destruct s; [reflexivity | simpl; auto]. Qed.

Lemma endswith_char_span_rest c cls s :
  PyStr.endswith_char c s = false ->
  PyStr.endswith_char c (span cls s).2 = false.
Proof.
  induction s as [|x s IH]; [reflexivity|]. intros He. simpl span.
  destruct (cls x); [|exact He]. simpl. apply IH. now apply endswith_char_tail in He.
Qed.

Lemma findall_empty : CNI_ARGS_RE_findall "" = [].
Proof. reflexivity. Qed.

(** The scan does not see across a semicolon. *)
Lemma findall_semicolon_app b : forall n a,
  (String.length a <= n)%nat ->
  PyStr.endswith_char PyStr.LF a = false ->
  CNI_ARGS_RE_findall (a +:+ String ";" b)
  = CNI_ARGS_RE_findall a ++ CNI_ARGS_RE_findall b.
Proof.
  induction n as [|n IH]; intros a Hlen Hlf.
  { destruct a; [|simpl in Hlen; lia]. simpl.
    rewrite CNI_ARGS_RE_findall_step, CNI_ARGS_RE_match_longest. reflexivity. }
  assert (forall x a', a = String x a' ->
            CNI_ARGS_RE_findall (a' +:+ String ";" b)
            = CNI_ARGS_RE_findall a' ++ CNI_ARGS_RE_findall b) as Hskip.
  { intros x a' ->. apply IH; [simpl in Hlen; lia|].
    now apply endswith_char_tail in Hlf. }
  rewrite (CNI_ARGS_RE_findall_step (a +:+ String ";" b)),
    (CNI_ARGS_RE_findall_step a), !CNI_ARGS_RE_match_longest.
  unfold match_longest.
  rewrite span_before_stop by reflexivity. cbn [fst snd].
  pose proof (span_length cni_arg_char a) as L1.
  pose proof (endswith_char_span_rest PyStr.LF cni_arg_char a Hlf) as E1.
  destruct (PyStr.is_empty (span cni_arg_char a).1) eqn:Eg1.
  { destruct a as [|x a']; simpl; [reflexivity | eauto]. }
  destruct (span cni_arg_char a).2 as [|c r2] eqn:Er1.
  { simpl. destruct a as [|x a']; simpl; [|eauto].
    simpl in Eg1. discriminate. }
  simpl. destruct (Ascii.eqb c "=").
  2:{ destruct a as [|x a']; simpl; [|eauto]. simpl in Er1. discriminate. }
  rewrite span_before_stop by reflexivity. cbn [fst snd].
  pose proof (span_length cni_arg_char r2) as L2.
  assert (PyStr.endswith_char PyStr.LF r2 = false) as Hr2
    by now apply endswith_char_tail in E1.
  pose proof (endswith_char_span_rest PyStr.LF cni_arg_char r2 Hr2) as E2.
  destruct (PyStr.is_empty (span cni_arg_char r2).1) eqn:Eg2.
  { destruct a as [|x a']; simpl; [|eauto]. simpl in Er1. discriminate. }
  destruct (span cni_arg_char r2).2 as [|d r4] eqn:Er3.
  - simpl. reflexivity.
  - simpl. destruct (Ascii.eqb d ";") eqn:Ed.
    + simpl. f_equal. apply IH.
      * simpl in L1, L2. lia.
      * now apply endswith_char_tail in E2.
    + destruct r4 as [|y r5].
      * simpl in E2. simpl. rewrite E2. simpl.
        destruct a as [|x a']; simpl; [|eauto]. simpl in Er1. discriminate.
      * simpl. destruct a as [|x a']; simpl; [|eauto]. simpl in Er1. discriminate.
Qed.

Lemma foldl_insert_union ps : forall m : gmap string string,
  foldl insert_stripped m ps = foldl insert_stripped ∅ ps ∪ m.
Proof.
  induction ps as [|kv ps IH] using rev_ind; intros m.
  - simpl. now rewrite (left_id_L ∅ (∪)).
  - rewrite !foldl_app. simpl. unfold insert_stripped at 1 3.
    rewrite IH. now rewrite insert_union_l.
Qed.

(** X2.  A CNI_ARGS string is read fragment by fragment: when [a] does not
    end with a newline, the groups captured in [a;b] are those of [a]
    followed by those of [b], and the mapping of [a;b] is the mapping of [b]
    completed by the mapping of [a], the bindings of [b] taking precedence. *)
Theorem cni_args_semicolon_compose (a b : string) :
  PyStr.endswith_char PyStr.LF a = false ->
  CNI_ARGS_RE_findall (a +:+ String ";" b)
  = CNI_ARGS_RE_findall a ++ CNI_ARGS_RE_findall b
  /\ parse_cni_args (a +:+ String ";" b) = parse_cni_args b ∪ parse_cni_args a.
Proof.
  intros Hlf.
  pose proof (findall_semicolon_app b (String.length a) a (le_n _) Hlf) as Hf.
  split; [exact Hf|].
  unfold parse_cni_args. rewrite Hf, foldl_app.
  apply (foldl_insert_union (CNI_ARGS_RE_findall b)).
Qed.

Lemma span_prefix_all cls s : PyStr.all_chars cls (span cls s).1 = true.
Proof.
  induction s as [|c s IH]; simpl; [reflexivity|].
  destruct (cls c) eqn:E; simpl; [now rewrite E | reflexivity].
Qed.

Lemma match_longest_tokens s g1 g2 rest :
  match_longest s = Some (g1, g2, rest) -> token g1 = true /\ token g2 = true.
Proof.
  unfold match_longest, token. intros Hm.
  pose proof (span_prefix_all cni_arg_char s) as A1.
  destruct (PyStr.is_empty (span cni_arg_char s).1) eqn:E1; [discriminate|].
  destruct (span cni_arg_char s).2 as [|c r2]; [discriminate|].
  destruct (Ascii.eqb c "="); [|discriminate].
  pose proof (span_prefix_all cni_arg_char r2) as A2.
  destruct (PyStr.is_empty (span cni_arg_char r2).1) eqn:E2; [discriminate|].
  assert (g1 = (span cni_arg_char s).1 /\ g2 = (span cni_arg_char r2).1) as [-> ->].
  { destruct (span cni_arg_char r2).2 as [|d r4]; [now inversion Hm|].
    destruct (Ascii.eqb d ";"); [now inversion Hm|].
    destruct (_ && _); [now inversion Hm | discriminate]. }
  now rewrite E1, E2, A1, A2.
Qed.

Lemma findall_tokens n : forall s g,
  (String.length s <= n)%nat -> g ∈ CNI_ARGS_RE_findall s ->
  token g.1 = true /\ token g.2 = true.
Proof.
  induction n as [|n IH]; intros s g Hlen; rewrite CNI_ARGS_RE_findall_step.
  - destruct s; [|simpl in Hlen; lia].
    rewrite CNI_ARGS_RE_match_longest. simpl. now intros ?%elem_of_nil.
  - rewrite CNI_ARGS_RE_match_longest.
    destruct (match_longest s) as [[[g1 g2] rest]|] eqn:Em.
    + intros [-> | Hin]%elem_of_cons.
      * exact (match_longest_tokens s g1 g2 rest Em).
      * apply match_longest_rest_shorter in Em. apply (IH rest); [lia | exact Hin].
    + destruct s as [|c s]; [now intros ?%elem_of_nil|].
      apply IH. simpl in Hlen. lia.
Qed.

Lemma all_chars_lstrip p s :
  PyStr.all_chars p s = true -> PyStr.all_chars p (PyStr.lstrip s) = true.
Proof.
  induction s as [|c s IH]; simpl; [auto|]. intros Hs.
  destruct (PyStr.isspace c); [|exact Hs].
  apply andb_prop in Hs as [_ Hs]. auto.
Qed.

Lemma all_chars_rstrip p s :
  PyStr.all_chars p s = true -> PyStr.all_chars p (PyStr.rstrip s) = true.
Proof.
  induction s as [|c s IH]; simpl; [auto|]. intros [Hc Hs]%andb_prop.
  destruct (_ && _); [reflexivity|]. simpl. now rewrite Hc, IH.
Qed.

Lemma all_chars_strip p s :
  PyStr.all_chars p s = true -> PyStr.all_chars p (PyStr.strip s) = true.
Proof. intros Hs. now apply all_chars_rstrip, all_chars_lstrip. Qed.

(** X3.  Whatever the CNI_ARGS string, each group the expression captures is
    a non-empty run of characters of the class, and each key and each value
    that [parse_cni_args] stores is made of characters of the class only: no
    equals sign, semicolon or newline ever reaches the mapping. *)
Theorem parse_cni_args_charset (s : string) :
  (forall g, g ∈ CNI_ARGS_RE_findall s -> token g.1 = true /\ token g.2 = true)
  /\ (forall k v, parse_cni_args s !! k = Some v ->
        PyStr.all_chars cni_arg_char k = true
        /\ PyStr.all_chars cni_arg_char v = true).
Proof.
  assert (forall g, g ∈ CNI_ARGS_RE_findall s -> token g.1 = true /\ token g.2 = true)
    as Htok by (intros g; apply (findall_tokens (String.length s)); lia).
  split; [exact Htok|].
  intros k v Hl. unfold parse_cni_args in Hl.
  apply (foldl_insert_origin (CNI_ARGS_RE_findall s) ∅) in Hl
    as [Hl | (g & Hg & -> & ->)]; [now rewrite lookup_empty in Hl|].
  destruct (Htok g Hg) as [[_ H1]%andb_prop [_ H2]%andb_prop].
  split; now apply all_chars_strip.
Qed.

Lemma foldl_insert_keeps ps : forall (m : gmap string string) k,
  is_Some (m !! k) -> is_Some (foldl insert_stripped m ps !! k).
Proof.
  induction ps as [|kv ps IH]; intros m k Hk; [exact Hk|].
  simpl. apply IH. unfold insert_stripped. apply lookup_insert_is_Some.
  destruct (decide (PyStr.strip kv.1 = k)); auto.
Qed.

Lemma foldl_insert_bound ps : forall (m : gmap string string) g,
  g ∈ ps -> is_Some (foldl insert_stripped m ps !! PyStr.strip g.1).
Proof.
  induction ps as [|kv ps IH]; intros m g; [now intros ?%elem_of_nil|].
  intros [-> | Hin]%elem_of_cons; simpl; [|now apply IH].
  apply foldl_insert_keeps. unfold insert_stripped.
  rewrite lookup_insert_eq. eauto.
Qed.

Lemma parse_cni_args_is_Some s k :
  is_Some (parse_cni_args s !! k)
  <-> exists g, g ∈ CNI_ARGS_RE_findall s /\ PyStr.strip g.1 = k.
Proof.
  unfold parse_cni_args. split.
  - intros [v Hl].
    apply (foldl_insert_origin (CNI_ARGS_RE_findall s) ∅) in Hl
      as [Hl | (g & Hg & -> & _)]; [now rewrite lookup_empty in Hl | eauto].
  - intros (g & Hg & <-). now apply (foldl_insert_bound (CNI_ARGS_RE_findall s) ∅).
Qed.

(** X4.  The Docker-aware engine and the Kubernetes policy driver are chosen
    exactly when some key captured from CNI_ARGS is K8S_POD_NAME once the
    spaces around it are stripped, whatever its value; the network name is
    then not validated.  Otherwise the driver is the per-network one, and a
    name it refuses ends the construction with [sys.exit(1)]. *)
Theorem k8s_pod_name_selects (s : string) (name : json) :
  let named := exists g, g ∈ CNI_ARGS_RE_findall s
                         /\ PyStr.strip g.1 = "K8S_POD_NAME" in
  (named <-> _get_container_engine (parse_cni_args s) = DockerEngine)
  /\ (named <-> _get_policy_driver (parse_cni_args s) name
                = Ok KubernetesDefaultPolicyDriver)
  /\ (~ named ->
      _get_container_engine (parse_cni_args s) = DefaultEngine
      /\ (_get_policy_driver (parse_cni_args s) name = Exit 1%Z
          \/ exists text, name = JString text
               /\ _get_policy_driver (parse_cni_args s) name
                  = Ok (DefaultPolicyDriver text))).
Proof.
  intros named.
  pose proof (parse_cni_args_is_Some s "K8S_POD_NAME") as Hk. fold named in Hk.
  unfold _get_container_engine, _get_policy_driver, DefaultPolicyDriver_new.
  destruct (parse_cni_args s !! "K8S_POD_NAME") as [pod|] eqn:E.
  - assert named as Hn by (apply Hk; eauto).
    rewrite bool_decide_eq_true_2 by eauto.
    split; [tauto|]. split; [tauto|]. intros Hnot. contradiction.
  - assert (~ named) as Hn by (intros [? [=]]%Hk).
    rewrite bool_decide_eq_false_2 by (intros [? [=]]).
    split; [split; [contradiction | discriminate]|].
    split.
    + split; [contradiction|].
      destruct name; try discriminate. destruct (_ && _); discriminate.
    + intros _. split; [reflexivity|].
      destruct name; auto. destruct (_ && _); eauto.
Qed.

End CniArgsMore.

(** ** What an invocation does to the host, step by step *)

Section HostSteps.
Context `{PyLib}.

(** *** Rules for [ensures] *)

Lemma ensures_ret {A} R `{!Reflexive R} (Q : A -> Prop) a :
  Q a -> ensures R Q (ret a).
Proof. intros Ha w. split; [reflexivity | exact Ha]. Qed.

Lemma ensures_raise {A} R `{!Reflexive R} (Q : A -> Prop) e :
  ensures R Q (raise e).
Proof. intros w. split; [reflexivity | exact I]. Qed.

Lemma ensures_sys_exit {A} R `{!Reflexive R} (Q : A -> Prop) code :
  ensures R Q (sys_exit code).
Proof. intros w. split; [reflexivity | exact I]. Qed.

Lemma ensures_lift {A} R `{!Reflexive R} (Q : A -> Prop) r :
  (forall a, r = Ok a -> Q a) -> ensures R Q (lift r).
Proof. intros Hr w. split; [reflexivity|]. simpl. destruct r; auto. Qed.

Lemma ensures_bind {A B} R `{!Transitive R} (Q : A -> Prop) (Q' : B -> Prop)
    (m : M A) (k : A -> M B) :
  ensures R Q m -> (forall a, Q a -> ensures R Q' (k a)) -> ensures R Q' (bind m k).
Proof.
  intros Hm Hk w. unfold bind. destruct (Hm w) as [HR HQ].
  destruct (m w) as [[a|e|c] w']; simpl in *; auto.
  destruct (Hk a HQ w') as [HR' HQ']. split; [now transitivity w' | exact HQ'].
Qed.

Lemma ensures_try {A} R `{!Transitive R} (Q : A -> Prop) (m : M A) handler :
  ensures R Q m -> (forall e h, handler e = Some h -> ensures R Q h) ->
  ensures R Q (try_except m handler).
Proof.
  intros Hm Hh w. unfold try_except. destruct (Hm w) as [HR HQ].
  destruct (m w) as [[a|e|c] w']; simpl in *; auto.
  destruct (handler e) as [h|] eqn:E; [|auto].
  destruct (Hh e h E w') as [HR' HQ']. split; [now transitivity w' | exact HQ'].
Qed.

Lemma ensures_call {A} R `{!Transitive R} (Q : A -> Prop) op ev (act : M A) :
  (forall w, R w (log ev w)) -> ensures R Q act -> ensures R Q (call op ev act).
Proof.
  intros Hlog Ha w. unfold call.
  destruct (fault (log ev w) op); simpl; [split; [apply Hlog | exact I]|].
  destruct (Ha (log ev w)) as [HR HQ].
  split; [transitivity (log ev w); [apply Hlog | exact HR] | exact HQ].
Qed.

Lemma ensures_mono {A} (R R' : World -> World -> Prop) (Q Q' : A -> Prop) (m : M A) :
  (forall w w', R w w' -> R' w w') -> (forall a, Q a -> Q' a) ->
  ensures R Q m -> ensures R' Q' m.
Proof.
  intros HR HQ Hm w. destruct (Hm w) as [H1 H2]. split; [auto|].
  destruct (m w).1; auto.
Qed.

(** *** The search for the IPAM binary *)

Lemma find_in_path_isfile w plugin_type dirs :
  PyStr.is_empty (find_in_path w plugin_type dirs) = false ->
  isfile w (find_in_path w plugin_type dirs) = true.
Proof.
  induction dirs as [|dir dirs IH]; simpl; [discriminate|].
  destruct (isfile w (OsPath.abspath (cwd w) (OsPath.join dir plugin_type))) eqn:E;
    [intros _; exact E | exact IH].
Qed.

Lemma _find_ipam_plugin_isfile self w plugin_path :
  (_find_ipam_plugin self w).1 = Ok plugin_path ->
  PyStr.is_empty plugin_path = false -> isfile w plugin_path = true.
Proof.
  unfold _find_ipam_plugin, bind, lift, raise.
  destruct (getitem (network_config self) "ipam") as [ipam| |]; try discriminate.
  destruct (getitem ipam "type") as [[]| |]; try discriminate.
  simpl. intros [= <-]. apply find_in_path_isfile.
Qed.

Lemma _call_ipam_plugin_ensures R `{!PreOrder R} self :
  (forall w path, isfile w path = true ->
                  R w (log (EvSpawn path (json_dumps (network_config self))) w)) ->
  ensures R (fun _ => True) (_call_ipam_plugin self).
Proof.
  intros Hs w. rewrite _call_ipam_plugin_cases.
  destruct ((_find_ipam_plugin self w).1) as [path|e|c] eqn:Ef; simpl;
    [|split; [reflexivity | exact I] ..].
  destruct (PyStr.is_empty path) eqn:Ee; simpl; [split; [reflexivity | exact I]|].
  pose proof (Hs w path (_find_ipam_plugin_isfile self w path Ef Ee)) as Hlog.
  destruct (fault w OpPopen); simpl; auto.
Qed.

Lemma execute_world self w : (execute self w).2 = (_execute self w).2.
Proof. unfold execute. now destruct (_execute self w) as [[a|e|c] w']. Qed.

Lemma replace_endpoint_length ep eps :
  (List.length eps <= List.length (replace_endpoint ep eps))%nat.
Proof.
  unfold replace_endpoint. destruct (existsb _ eps).
  - now rewrite List.length_map.
  - rewrite List.length_app. lia.
Qed.

(** *** ADD *)

Lemma add_event_ipam_result doc self w ev :
  add_event (set_ipam_result doc self) w ev -> add_event self w ev.
Proof. destruct ev; exact (fun x => x). Qed.

Lemma add_step_ipam_result doc self w w' :
  add_step (set_ipam_result doc self) w w' -> add_step self w w'.
Proof.
  destruct 1 as [ev Hev|eps Hlen|name].
  - apply add_call. exact (add_event_ipam_result doc self w ev Hev).
  - exact (add_store self w eps Hlen).
  - apply add_veth.
Qed.

Lemma add_logs self ev w : add_event self w ev -> rtc (add_step self) w (log ev w).
Proof. intros Hev. apply rtc_once. now apply add_call. Qed.

Lemma uses_host_networking_steps self :
  ensures (rtc (add_step self)) (fun _ => True)
    (uses_host_networking (container_engine self) (container_id self)).
Proof.
  destruct (container_engine self); simpl.
  - now apply ensures_ret.
  - apply ensures_call; [apply _ | intros w; now apply add_logs|].
    intros w. split; [reflexivity | exact I].
Qed.

Lemma _assign_ip_steps self :
  ensures (rtc (add_step self)) (fun r => exists doc, r.1 = set_ipam_result doc self)
    (_assign_ip self).
Proof.
  unfold _assign_ip.
  eapply ensures_bind; [apply _ | |intros r _].
  { apply _call_ipam_plugin_ensures; [apply _|].
    intros w path Hf. apply add_logs. now split. }
  destruct (negb _); [now apply ensures_sys_exit|].
  destruct (json_loads r.2) as [doc|]; [|now apply ensures_sys_exit].
  eapply ensures_bind with (Q := fun _ => True); [apply _ | |intros ip _].
  - apply ensures_try; [apply _ | now apply ensures_lift|].
    intros [] h [= <-]; now apply ensures_sys_exit.
  - apply ensures_ret; [apply _|]. now exists doc.
Qed.

Lemma _create_endpoint_steps self ip :
  ensures (rtc (add_step self))
    (fun ep => ep_key ep = own_key self)
    (_create_endpoint self ip).
Proof.
  unfold _create_endpoint, create_endpoint.
  apply ensures_try; [apply _ | |intros [] h [= <-]; now apply ensures_sys_exit].
  apply ensures_call; [apply _ | intros w; apply add_logs; now split|].
  intros w. split; [|reflexivity]. simpl.
  apply rtc_once. apply (add_store self w). rewrite List.length_app. fold (own_key self). lia.
Qed.

Lemma _provision_veth_steps self ep :
  ep_key ep = own_key self ->
  ensures (rtc (add_step self)) (fun _ => True) (_provision_veth self ep).
Proof.
  intros Hk w. unfold _provision_veth. cbv zeta.
  refine (ensures_bind _ (fun _ => True) _ _ _ _ _ w); [|intros mac _].
  - unfold provision_veth.
    apply ensures_call; [apply _ | intros w0; now apply add_logs|].
    intros w0. split; [|exact I]. simpl. apply rtc_once, add_veth.
  - eapply ensures_bind with (Q := fun _ => True);
      [apply _ | |intros _ _; now apply ensures_ret].
    unfold set_endpoint.
    apply ensures_call; [apply _ | intros w0; apply add_logs; simpl; eauto|].
    intros w0. split; [|exact I]. simpl.
    change (ep_key (set_mac mac ep)) with (ep_key ep). rewrite Hk.
    apply rtc_once, add_store, replace_endpoint_length.
Qed.

Lemma set_profile_steps self ep :
  ensures (rtc (add_step self)) (fun _ => True) (set_profile (policy_driver self) ep).
Proof.
  destruct (policy_driver self) as [name|] eqn:E; simpl; [|now apply ensures_ret].
  apply ensures_call; [apply _ | intros w; now apply add_logs|].
  now apply ensures_ret.
Qed.

Lemma add_steps_steps self ip :
  ensures (rtc (add_step self)) (fun _ => True) (add_steps self ip).
Proof.
  unfold add_steps.
  eapply ensures_bind; [apply _ | apply _create_endpoint_steps | intros ep Hep].
  eapply ensures_bind; [apply _ | now apply _provision_veth_steps | intros ep' _].
  eapply ensures_bind; [apply _ | apply set_profile_steps | intros _ _].
  intros w. split; [|exact I]. now apply add_logs.
Qed.

Lemma add_moves self : ensures (rtc (add_step self)) (fun _ => True) (add self).
Proof.
  unfold add.
  eapply ensures_bind; [apply _ | apply uses_host_networking_steps | intros host _].
  destruct host; [now apply ensures_sys_exit|].
  eapply ensures_bind; [apply _ | apply _assign_ip_steps | intros [self' ip] [doc Hd]].
  simpl in Hd. subst self'.
  apply (ensures_mono (rtc (add_step (set_ipam_result doc self))) _ (fun _ => True));
    [|auto|exact (add_steps_steps (set_ipam_result doc self) ip)].
  intros w w'. apply rtc_subrel. intros x y. apply add_step_ipam_result.
Qed.

(** *** DELETE *)

Lemma del_logs self ev w : del_event self w ev -> rtc (del_step self) w (log ev w).
Proof. intros Hev. apply rtc_once. now apply del_call. Qed.

Lemma delete_moves self : ensures (rtc (del_step self)) (fun _ => True) (delete self).
Proof.
  unfold delete, _release_ip.
  eapply ensures_bind with (Q := fun _ => True); [apply _ | |intros _ _].
  { eapply ensures_bind; [apply _ | |intros _ _; now apply ensures_ret].
    apply _call_ipam_plugin_ensures; [apply _|].
    intros w path Hf. apply del_logs. now split. }
  eapply ensures_bind with (Q := fun _ => True); [apply _ | |intros [ep|] _].
  - unfold _get_endpoint, get_endpoint.
    apply ensures_try; [apply _ | |intros [] h [= <-];
      (now apply ensures_ret) || (now apply ensures_sys_exit)].
    eapply ensures_bind with (Q := fun _ => True);
      [apply _ | |intros ? _; now apply ensures_ret].
    apply ensures_call; [apply _ | intros w; now apply del_logs|].
    intros w. split; [|now destruct (endpoints_under _ _) as [|? [|? ?]]].
    destruct (endpoints_under _ _) as [|? [|? ?]]; reflexivity.
  - eapply ensures_bind with (Q := fun _ => True); [apply _ | |intros _ _].
    { unfold remove_veth.
      apply ensures_call; [apply _ | intros w; now apply del_logs|].
      intros w. split; [|exact I]. simpl. apply rtc_once, del_veth. }
    eapply ensures_bind with (Q := fun _ => True); [apply _ | |intros _ _].
    { unfold _remove_endpoint, remove_workload.
      apply ensures_try; [apply _ | |intros [] h [= <-]; now apply ensures_ret].
      apply ensures_call; [apply _ | intros w; now apply del_logs|].
      intros w. split; [|now destruct (datastore w !! _)].
      destruct (datastore w !! _); simpl; [|reflexivity].
      apply rtc_once, del_forget. }
    destruct (policy_driver self) as [name|] eqn:E; simpl; [|now apply ensures_ret].
    apply ensures_call; [apply _ | intros w; now apply del_logs|].
    now apply ensures_ret.
  - now apply ensures_sys_exit.
Qed.

End HostSteps.

(** ** What an ADD may add and what a DELETE may remove *)

Section HostInvariants.
Context `{PyLib}.

Lemma add_step_same_host self w w' : add_step self w w' -> same_host w w'.
Proof. destruct 1; repeat split; reflexivity. Qed.

Lemma del_step_same_host self w w' : del_step self w w' -> same_host w w'.
Proof. destruct 1; repeat split; reflexivity. Qed.

Lemma same_host_isfile w w' : same_host w w' -> isfile w' = isfile w.
Proof. now intros (_ & Hf & _). Qed.

Lemma add_event_same_files self w w' ev :
  isfile w' = isfile w -> add_event self w' ev -> add_event self w ev.
Proof. intros Hf. destruct ev; simpl; rewrite ?Hf; auto. Qed.

Lemma del_event_same_files self w w' ev :
  isfile w' = isfile w -> del_event self w' ev -> del_event self w ev.
Proof. intros Hf. destruct ev; simpl; rewrite ?Hf; auto. Qed.

Lemma add_steps_events self w w' :
  rtc (add_step self) w w' ->
  exists evs, trace w' = trace w ++ evs /\ Forall (add_event self w) evs.
Proof.
  induction 1 as [w|w w1 w' Hstep _ (evs & Ht & Hevs)].
  { exists []. now rewrite app_nil_r. }
  pose proof (same_host_isfile _ _ (add_step_same_host _ _ _ Hstep)) as Hf.
  assert (Forall (add_event self w) evs) as Hevs'.
  { eapply Forall_impl; [exact Hevs|]. intros ev. now apply add_event_same_files. }
  destruct Hstep as [ev Hev|eps Hlen|name]; simpl in Ht.
  - exists (ev :: evs). rewrite Ht, <- app_assoc. split; [reflexivity|].
    now constructor.
  - now exists evs.
  - now exists evs.
Qed.

Lemma del_steps_events self w w' :
  rtc (del_step self) w w' ->
  exists evs, trace w' = trace w ++ evs /\ Forall (del_event self w) evs.
Proof.
  induction 1 as [w|w w1 w' Hstep _ (evs & Ht & Hevs)].
  { exists []. now rewrite app_nil_r. }
  pose proof (same_host_isfile _ _ (del_step_same_host _ _ _ Hstep)) as Hf.
  assert (Forall (del_event self w) evs) as Hevs'.
  { eapply Forall_impl; [exact Hevs|]. intros ev. now apply del_event_same_files. }
  destruct Hstep as [ev Hev| |name]; simpl in Ht.
  - exists (ev :: evs). rewrite Ht, <- app_assoc. split; [reflexivity|].
    now constructor.
  - now exists evs.
  - now exists evs.
Qed.

Lemma add_steps_state self w w' :
  rtc (add_step self) w w' ->
  (forall key, key <> own_key self -> datastore w' !! key = datastore w !! key)
  /\ (List.length (endpoints_under w (own_key self))
      <= List.length (endpoints_under w' (own_key self)))%nat
  /\ veths w ⊆ veths w'.
Proof.
  induction 1 as [w|w w1 w' Hstep _ (Hother & Hlen & Hveths)].
  { repeat split; auto. }
  destruct Hstep as [ev Hev|eps Hle|name].
  - repeat split; auto.
  - split; [|split; [|exact Hveths]].
    + intros key Hk. rewrite (Hother key Hk). simpl.
      now rewrite lookup_insert_ne.
    + etransitivity; [|exact Hlen]. unfold endpoints_under at 2. simpl.
      now rewrite lookup_insert_eq.
  - split; [exact Hother | split; [exact Hlen|]].
    etransitivity; [|exact Hveths]. simpl. apply union_subseteq_r.
Qed.

Lemma del_steps_state self w w' :
  rtc (del_step self) w w' ->
  (forall key, key <> own_key self -> datastore w' !! key = datastore w !! key)
  /\ (datastore w' !! own_key self = datastore w !! own_key self
      \/ datastore w' !! own_key self = None)
  /\ veths w' ⊆ veths w.
Proof.
  induction 1 as [w|w w1 w' Hstep _ (Hother & Hown & Hveths)].
  { repeat split; auto. }
  destruct Hstep as [ev Hev| |name].
  - repeat split; auto.
  - split; [|split; [|exact Hveths]].
    + intros key Hk. rewrite (Hother key Hk). simpl.
      now rewrite lookup_delete_ne.
    + right. destruct Hown as [-> | ->]; [|reflexivity].
      simpl. apply lookup_delete_eq.
  - split; [exact Hother | split; [exact Hown|]].
    etransitivity; [exact Hveths|]. simpl.
    intros x [Hx _]%elem_of_difference. exact Hx.
Qed.

Lemma del_events_stdout self w evs :
  Forall (del_event self w) evs -> stdout_of evs = "".
Proof.
  induction 1 as [|ev evs Hev _ IH]; [reflexivity|].
  destruct ev; simpl in *; auto; contradiction.
Qed.

(** X5.  An ADD only adds.  The calls it makes are the engine probe for its
    container, the IPAM child (a regular file, fed the network configuration),
    [create_endpoint] under the key of its workload, [provision_veth] for its
    interface, [set_endpoint] for an endpoint of its workload that has a MAC
    address, the policy driver and [print]; it never looks an endpoint up and
    never removes anything.  Other workloads of the datastore are untouched,
    the endpoints of its own workload never get fewer, and no veth
    disappears, however the ADD ends. *)
Theorem add_only_adds (self : CniPlugin) (w : World) :
  command self = CNI_CMD_ADD ->
  let w' := (execute self w).2 in
  (exists evs, trace w' = trace w ++ evs /\ Forall (add_event self w) evs)
  /\ (forall key, key <> own_key self -> datastore w' !! key = datastore w !! key)
  /\ (List.length (endpoints_under w (own_key self))
      <= List.length (endpoints_under w' (own_key self)))%nat
  /\ veths w ⊆ veths w'.
Proof.
  intros Hcmd w'.
  assert (rtc (add_step self) w w') as Hsteps.
  { subst w'. rewrite execute_world. unfold _execute. rewrite Hcmd. simpl.
    apply add_moves. }
  split; [now apply add_steps_events | now apply add_steps_state].
Qed.

(** X6.  A DELETE only removes.  The calls it makes are the IPAM child (a
    regular file, fed the network configuration), [get_endpoint] and
    [remove_workload] under the key of its workload, [remove_veth] and the
    policy driver; it never asks the engine probe, never creates or updates
    an endpoint, never provisions a veth and prints nothing.  Other workloads
    of the datastore are untouched, its own workload is left as it was or
    removed, and no veth appears, however the DELETE ends. *)
Theorem delete_only_removes (self : CniPlugin) (w : World) :
  command self = CNI_CMD_DELETE ->
  let w' := (execute self w).2 in
  (exists evs, trace w' = trace w ++ evs /\ Forall (del_event self w) evs)
  /\ stdout_of (trace w') = stdout_of (trace w)
  /\ (forall key, key <> own_key self -> datastore w' !! key = datastore w !! key)
  /\ (datastore w' !! own_key self = datastore w !! own_key self
      \/ datastore w' !! own_key self = None)
  /\ veths w' ⊆ veths w.
Proof.
  intros Hcmd w'.
  assert (rtc (del_step self) w w') as Hsteps.
  { subst w'. rewrite execute_world. unfold _execute. rewrite Hcmd. simpl.
    apply delete_moves. }
  destruct (del_steps_events self w w' Hsteps) as (evs & Ht & Hevs).
  split; [eauto|]. split; [|now apply del_steps_state].
  rewrite Ht, stdout_of_app, (del_events_stdout self w evs Hevs).
  apply append_nil_r.
Qed.

End HostInvariants.

(** ** What is printed, and the commands that are refused *)

Section Outcomes.
Context `{PyLib}.

Lemma silent_step_stdout w w' :
  silent_step w w' -> stdout_of (trace w') = stdout_of (trace w).
Proof.
  intros (evs & -> & Hs & _). rewrite stdout_of_app, Hs. apply append_nil_r.
Qed.

Lemma stdout_of_spawn w path stdin :
  stdout_of (trace (log (EvSpawn path stdin) w)) = stdout_of (trace w).
Proof. simpl. rewrite stdout_of_app. apply append_nil_r. Qed.

Lemma execute_invalid self w :
  command self <> CNI_CMD_ADD -> command self <> CNI_CMD_DELETE ->
  execute self w = (1%Z, w).
Proof.
  intros Ha%String.eqb_neq Hd%String.eqb_neq.
  unfold execute, _execute. now rewrite Ha, Hd.
Qed.

Lemma delete_stdout self w :
  stdout_of (trace (delete self w).2) = stdout_of (trace w).
Proof.
  destruct (delete_moves self w) as [Hsteps _].
  apply del_steps_events in Hsteps as (evs & -> & Hevs).
  rewrite stdout_of_app, (del_events_stdout self w evs Hevs).
  apply append_nil_r.
Qed.

(** An ADD that does not run to its end prints nothing. *)
Lemma add_stdout self w :
  match add self w with
  | (Ok _, _) => True
  | (Exit code, w') =>
      code = 0%Z \/ stdout_of (trace w') = stdout_of (trace w)
  | (Raise _, w') => stdout_of (trace w') = stdout_of (trace w)
  end.
Proof.
  unfold add, bind.
  pose proof (uses_host_networking_silent (container_engine self)
                (container_id self) w) as Hp.
  apply silent_step_stdout in Hp.
  destruct (uses_host_networking _ _ w) as [[[|]|e|c] w1]; simpl in *; auto.
  pose proof (_assign_ip_cases self w1) as Ha.
  destruct (_assign_ip self w1) as [[[self' ip]|e|c] w2]; simpl.
  - destruct Ha as (path & out & doc & _ & _ & _ & _ & _ & -> & ->).
    change (match add_steps (set_ipam_result doc self) ip
                    (log (EvSpawn path (json_dumps (network_config self))) w1)
            with
            | (Ok _, _) => True
            | (Raise _, w') => stdout_of (trace w') = stdout_of (trace w)
            | (Exit code, w') =>
                code = 0%Z \/ stdout_of (trace w') = stdout_of (trace w)
            end).
    rewrite add_steps_effects.
    pose proof (add_effects_silent (set_ipam_result doc self) ip
                  (log (EvSpawn path (json_dumps (network_config self))) w1)) as Hs.
    apply silent_step_stdout in Hs. rewrite stdout_of_spawn, Hp in Hs.
    destruct (add_effects _ _ _) as [[[]|e|c] w3]; simpl in *; auto.
  - destruct Ha as [-> | (path & _ & ->)]; [exact Hp|].
    now rewrite stdout_of_spawn.
  - right. destruct Ha as [_ [-> | (path & _ & ->)]]; [exact Hp|].
    now rewrite stdout_of_spawn.
Qed.

(** X7.  An invocation that returns a code other than zero has printed
    nothing, whatever the command; so has every DELETE. *)
Theorem failure_prints_nothing (self : CniPlugin) (w : World) :
  (execute self w).1 <> 0%Z \/ command self <> CNI_CMD_ADD ->
  stdout_of (trace (execute self w).2) = stdout_of (trace w).
Proof.
  intros Hfail. unfold execute, _execute in *.
  destruct (String.eqb_spec (command self) CNI_CMD_ADD) as [Hadd|Hadd].
  - destruct Hfail as [Hfail|Hfail]; [|contradiction].
    pose proof (add_stdout self w) as Hs.
    destruct (add self w) as [[[]|e|c] w']; simpl in *; [congruence | auto|].
    destruct Hs as [-> | Hs]; [congruence | exact Hs].
  - destruct (negb (String.eqb (command self) CNI_CMD_DELETE)); [reflexivity|].
    pose proof (delete_stdout self w) as Hs.
    now destruct (delete self w) as [[[]|e|c] w'].
Qed.

Lemma CniPlugin_init_command nc environ self :
  CniPlugin_init nc environ = Ok self ->
  environ !! CNI_COMMAND_ENV = Some (command self).
Proof.
  unfold CniPlugin_init. intros Hi.
  apply rbind_ok in Hi as (cmd & Hc%env_get_ok & Hi).
  do 7 apply rbind_ok in Hi as (? & _ & Hi).
  injection Hi as <-. exact Hc.
Qed.

(** X8.  A command other than ADD and DEL is refused: [execute] returns 1
    and [main] exits with 1, and the host is left as it was: no call is made
    and nothing is printed. *)
Theorem invalid_command_rejected (self : CniPlugin) (w : World)
    (stdin : string) (environ : gmap string string) (cmd : string) :
  cmd <> CNI_CMD_ADD -> cmd <> CNI_CMD_DELETE ->
  command self = cmd -> environ !! CNI_COMMAND_ENV = Some cmd ->
  execute self w = (1%Z, w) /\ main stdin environ w = (1%Z, w).
Proof.
  intros Ha Hd Hself Hcmd. split.
  - subst cmd. now apply execute_invalid.
  - unfold main.
    destruct (json_loads _) as [[| | | | | |items]|]; try reflexivity.
    destruct (CniPlugin_init (JDict items) environ) as [plugin|e|c] eqn:Ei.
    + apply CniPlugin_init_command in Ei.
      rewrite execute_invalid by congruence. reflexivity.
    + reflexivity.
    + apply CniPlugin_init_exit in Ei. now subst c.
Qed.

End Outcomes.

(** ** The steps of ADD and DELETE, one by one *)

Section Runs.
Context `{PyLib}.

Lemma _create_endpoint_run self net w :
  _create_endpoint self net w =
  let w1 := log (EvCreateEndpoint (own_key self) [net]) w in
  match fault w OpCreateEndpoint with
  | Some e =>
      (match e with
       | AddrFormatError | KeyError _ => Exit 1%Z
       | _ => Raise e
       end, w1)
  | None =>
      (Ok (created_endpoint self w net),
       set_datastore
         (<[own_key self := endpoints_under w (own_key self)
                            ++ [created_endpoint self w net]]> (datastore w)) w1)
  end.
Proof.
  unfold _create_endpoint, create_endpoint, try_except, call.
  cbn [fault log]. destruct (fault w OpCreateEndpoint) as [[]|]; reflexivity.
Qed.

Lemma _provision_veth_run self ep w :
  _provision_veth self ep w =
  let w1 := log (EvProvisionVeth (ep_name ep) (netns_path self w) (interface self)) w in
  match fault w OpProvisionVeth with
  | Some e => (Raise e, w1)
  | None =>
      let ep' := set_mac (new_mac w) ep in
      let w2 := log (EvSetEndpoint ep') (set_veths ({[ep_name ep]} ∪ veths w) w1) in
      match fault w OpSetEndpoint with
      | Some e => (Raise e, w2)
      | None =>
          (Ok ep',
           set_datastore
             (<[ep_key ep := replace_endpoint ep' (endpoints_under w (ep_key ep))]>
                (datastore w)) w2)
      end
  end.
Proof.
  unfold _provision_veth, provision_veth, set_endpoint, call, bind, ret.
  cbn [fault log]. destruct (fault w OpProvisionVeth); [reflexivity|].
  cbn [fault log set_veths]. destruct (fault w OpSetEndpoint); reflexivity.
Qed.

Lemma set_profile_run self ep w :
  set_profile (policy_driver self) ep w =
  match policy_driver self with
  | DefaultPolicyDriver name =>
      (match fault w OpSetProfile with Some e => Raise e | None => Ok tt end,
       log (EvSetProfile name ep) w)
  | KubernetesDefaultPolicyDriver => (Ok tt, w)
  end.
Proof.
  unfold set_profile, call, ret. destruct (policy_driver self); [|reflexivity].
  cbn [fault log]. destruct (fault w OpSetProfile); reflexivity.
Qed.

Lemma _get_endpoint_run self w :
  _get_endpoint self w =
  (match fault w OpGetEndpoint with
   | Some e =>
       match e with
       | KeyError _ => Ok None
       | MultipleEndpointsMatch => Exit 1%Z
       | _ => Raise e
       end
   | None =>
       match endpoints_under w (own_key self) with
       | [] => Ok None
       | [ep] => Ok (Some ep)
       | _ :: _ :: _ => Exit 1%Z
       end
   end, log (EvGetEndpoint (own_key self)) w).
Proof.
  unfold _get_endpoint, get_endpoint, try_except, call, bind, ret.
  cbn [fault log]. destruct (fault w OpGetEndpoint) as [[]|]; try reflexivity.
  change (endpoints_under (log _ w) ?k) with (endpoints_under w k).
  fold (own_key self).
  destruct (endpoints_under w (own_key self)) as [|ep [|ep' eps]]; reflexivity.
Qed.

Lemma remove_veth_run name w :
  remove_veth name w =
  let w1 := log (EvRemoveVeth name) w in
  match fault w OpRemoveVeth with
  | Some e => (Raise e, w1)
  | None => (Ok (bool_decide (name ∈ veths w)), set_veths (veths w ∖ {[name]}) w1)
  end.
Proof. unfold remove_veth, call. cbn [fault log]. reflexivity. Qed.

Lemma _remove_endpoint_run self w :
  _remove_endpoint self w =
  let w1 := log (EvRemoveWorkload (own_key self)) w in
  match fault w OpRemoveWorkload with
  | Some e => (match e with KeyError _ => Ok tt | _ => Raise e end, w1)
  | None =>
      (Ok tt,
       match datastore w !! own_key self with
       | None => w1
       | Some _ => set_datastore (base.delete (own_key self) (datastore w)) w1
       end)
  end.
Proof.
  unfold _remove_endpoint, remove_workload, try_except, call, ret.
  cbn [fault log]. destruct (fault w OpRemoveWorkload) as [[]|]; try reflexivity.
  cbn [datastore log]. fold (own_key self).
  destruct (datastore w !! own_key self); reflexivity.
Qed.

Lemma remove_profile_run self w :
  remove_profile (policy_driver self) w =
  match policy_driver self with
  | DefaultPolicyDriver name =>
      (match fault w OpRemoveProfile with Some e => Raise e | None => Ok tt end,
       log (EvRemoveProfile name) w)
  | KubernetesDefaultPolicyDriver => (Ok tt, w)
  end.
Proof.
  unfold remove_profile, call, ret. destruct (policy_driver self); [|reflexivity].
  cbn [fault log]. destruct (fault w OpRemoveProfile); reflexivity.
Qed.

End Runs.

(** ** What ADD and DELETE leave on the host *)

Section Effects.
Context `{PyLib}.

Lemma probe_false engine container_id w w1 :
  uses_host_networking engine container_id w = (Ok false, w1) ->
  w1 = w \/ w1 = log (EvDockerInspect container_id) w.
Proof.
  unfold uses_host_networking, call, ret. intros Hh.
  destruct engine; [left; congruence|].
  destruct (fault _ _); [discriminate|]. right. congruence.
Qed.

Lemma address_assigned_add self w w1 plugin_path doc net :
  address_assigned self w w1 plugin_path doc net ->
  (w1 = w \/ w1 = log (EvDockerInspect (container_id self)) w)
  /\ add self w
     = add_steps (set_ipam_result doc self) net
         (log (EvSpawn plugin_path (json_dumps (network_config self))) w1).
Proof.
  intros (Hcmd & Hh & Hf & He & Hpo & out & ip4 & ip & Hi & Hj & H4 & H5 & Hn).
  pose proof (probe_false _ _ _ _ Hh) as Hw1. split; [exact Hw1|].
  unfold add, bind. rewrite Hh.
  unfold _assign_ip, bind. rewrite _call_ipam_plugin_cases.
  assert ((_find_ipam_plugin self w1).1 = Ok plugin_path
          /\ fault w1 OpPopen = None
          /\ ipam_child w1 = ipam_child w) as (-> & -> & ->).
  { destruct Hw1 as [-> | ->]; [auto|].
    split; [|auto]. rewrite <- Hf. now apply _find_ipam_plugin_same_files. }
  rewrite He, Hi. cbn [fst snd negb Z.eqb]. rewrite Hj.
  unfold try_except, lift. cbn [ipam_result set_ipam_result].
  rewrite H4. cbn [rbind]. rewrite H5. cbn [rbind]. rewrite Hn. reflexivity.
Qed.

Lemma replace_endpoint_last ep eps ep0 :
  ep_name ep0 = ep_name ep ->
  replace_endpoint ep (eps ++ [ep0])
  = map (fun e => if String.eqb (ep_name e) (ep_name ep) then ep else e) eps ++ [ep].
Proof.
  intros Hn. unfold replace_endpoint.
  rewrite existsb_app. cbn [existsb]. rewrite Hn, String.eqb_refl.
  rewrite orb_true_r, map_app. simpl. now rewrite Hn, String.eqb_refl.
Qed.

Lemma add_steps_run self net w :
  fault w OpCreateEndpoint = None -> fault w OpProvisionVeth = None ->
  fault w OpSetEndpoint = None ->
  (forall name, policy_driver self = DefaultPolicyDriver name -> fault w OpSetProfile = None) ->
  let ep := added_endpoint self w net in
  exists w',
    add_steps self net w = (Ok tt, w')
    /\ same_host w w'
    /\ trace w'
       = trace w ++ [EvCreateEndpoint (own_key self) [net];
                     EvProvisionVeth (ep_name ep) (netns_path self w) (interface self);
                     EvSetEndpoint ep]
                 ++ profile_events self (fun name => EvSetProfile name ep)
                 ++ [EvStdout (json_dumps (ipam_result self))]
    /\ datastore w'
       = <[own_key self := replace_endpoint ep (endpoints_under w (own_key self)
                                                ++ [created_endpoint self w net])]>
           (datastore w)
    /\ veths w' = {[ep_name ep]} ∪ veths w.
Proof.
  intros Hc Hp Hs Hprof ep.
  unfold add_steps, bind. rewrite _create_endpoint_run, Hc. cbv beta iota zeta.
  rewrite _provision_veth_run. cbn [fault log set_datastore]. rewrite Hp, Hs.
  cbv beta iota zeta. rewrite set_profile_run. unfold print, profile_events.
  change (ep_key (created_endpoint self w net)) with (own_key self).
  change (set_mac (new_mac w) (created_endpoint self w net)) with ep.
  assert (forall d w0, endpoints_under
            (set_datastore (<[own_key self := d]> (datastore w)) w0) (own_key self) = d)
    as Hunder.
  { intros d w0. unfold endpoints_under. cbn [datastore set_datastore].
    now rewrite lookup_insert_eq. }
  rewrite Hunder.
  destruct (policy_driver self) as [name|] eqn:Ed.
  - cbn [fault log set_datastore set_veths]. rewrite (Hprof name eq_refl).
    eexists. split; [reflexivity|]. split; [repeat split|].
    split; [cbn; rewrite <- !app_assoc; reflexivity|].
    split; [|reflexivity].
    cbn. apply insert_insert_eq.
  - eexists. split; [reflexivity|]. split; [repeat split|].
    split; [cbn; rewrite <- !app_assoc; reflexivity|].
    split; [|reflexivity].
    cbn. apply insert_insert_eq.
Qed.

Lemma execute_add self w :
  command self = CNI_CMD_ADD ->
  execute self w =
  match add self w with
  | (Ok _, w') => (0%Z, w')
  | (Exit code, w') => (code, w')
  | (Raise _, w') => (1%Z, w')
  end.
Proof. intros Hcmd. unfold execute, _execute. now rewrite Hcmd. Qed.

Lemma execute_delete self w :
  command self = CNI_CMD_DELETE ->
  execute self w =
  match delete self w with
  | (Ok _, w') => (0%Z, w')
  | (Exit code, w') => (code, w')
  | (Raise _, w') => (1%Z, w')
  end.
Proof. intros Hcmd. unfold execute, _execute. now rewrite Hcmd. Qed.

Lemma probe_false_state w w1 c :
  w1 = w \/ w1 = log (EvDockerInspect c) w ->
  same_host w w1 /\ datastore w1 = datastore w /\ veths w1 = veths w.
Proof. intros [-> | ->]; repeat split. Qed.

Lemma same_host_fault w w' op : same_host w w' -> fault w' op = fault w op.
Proof. intros (_ & _ & _ & _ & _ & _ & ->). reflexivity. Qed.

Lemma add_success_run self w w1 plugin_path doc net :
  address_assigned self w w1 plugin_path doc net ->
  fault w OpCreateEndpoint = None -> fault w OpProvisionVeth = None ->
  fault w OpSetEndpoint = None -> fault w OpSetProfile = None ->
  let ep := added_endpoint self w net in
  exists w',
    execute self w = (0%Z, w')
    /\ same_host w w'
    /\ trace w'
       = trace w1 ++ [EvSpawn plugin_path (json_dumps (network_config self));
                      EvCreateEndpoint (own_key self) [net];
                      EvProvisionVeth (ep_name ep) (netns_path self w) (interface self);
                      EvSetEndpoint ep]
                  ++ profile_events self (fun name => EvSetProfile name ep)
                  ++ [EvStdout (json_dumps doc)]
    /\ datastore w'
       = <[own_key self :=
             map (fun e => if String.eqb (ep_name e) (ep_name ep) then ep else e)
               (endpoints_under w (own_key self)) ++ [ep]]> (datastore w)
    /\ veths w' = {[ep_name ep]} ∪ veths w.
Proof.
  intros Ha Hc Hp Hs Hpr ep.
  pose proof Ha as (Hcmd & _).
  destruct (address_assigned_add _ _ _ _ _ _ Ha) as [Hw1 Hadd].
  rewrite (execute_add self w Hcmd), Hadd.
  destruct (add_steps_run (set_ipam_result doc self) net
              (log (EvSpawn plugin_path (json_dumps (network_config self))) w1))
    as (w' & -> & Hsame & Ht & Hd & Hve);
    try (destruct Hw1 as [-> | ->]; now auto).
  assert (added_endpoint (set_ipam_result doc self)
            (log (EvSpawn plugin_path (json_dumps (network_config self))) w1) net = ep
          /\ created_endpoint (set_ipam_result doc self)
               (log (EvSpawn plugin_path (json_dumps (network_config self))) w1) net
             = created_endpoint self w net
          /\ netns_path (set_ipam_result doc self)
               (log (EvSpawn plugin_path (json_dumps (network_config self))) w1)
             = netns_path self w
          /\ datastore w1 = datastore w /\ veths w1 = veths w
          /\ same_host w w1)
    as (Hep & Hep0 & Hns & Hds & Hv & Hsame1)
    by (destruct Hw1 as [-> | ->]; repeat split).
  rewrite Hep, Hep0 in *. rewrite Hns in Ht. clear Hep Hep0 Hns.
  change (own_key (set_ipam_result doc self)) with (own_key self) in *.
  change (endpoints_under
            (log (EvSpawn plugin_path (json_dumps (network_config self))) w1)
            (own_key self))
    with (default [] (datastore w1 !! own_key self)) in Hd.
  cbn [datastore veths trace log] in Hd, Hve, Ht. rewrite Hds in Hd. rewrite Hv in Hve.
  rewrite replace_endpoint_last in Hd by reflexivity.
  exists w'. split; [reflexivity|]. split; [|split; [|split]].
  - destruct Hsame as (E1 & E2 & E3 & E4 & E5 & E6 & E7).
    destruct Hsame1 as (F1 & F2 & F3 & F4 & F5 & F6 & F7).
    cbn [cwd isfile ipam_child docker_host_mode new_endpoint_name new_mac fault log] in *.
    repeat split; congruence.
  - rewrite Ht, <- app_assoc. reflexivity.
  - exact Hd.
  - exact Hve.
Qed.

(** X9.  An ADD that meets no failure returns 0 after making, in this order,
    the calls: the IPAM child, [create_endpoint] with the assigned network,
    [provision_veth] with the absolute path of the network namespace and the
    interface of CNI_IFNAME, [set_endpoint] with the endpoint that carries
    the MAC address [provision_veth] returned, [set_profile] if the driver is
    the per-network one, and [print] with the document of the IPAM child.
    The datastore then holds one more endpoint under the key of the workload,
    the one with the MAC address, and the host one more veth, named after
    that endpoint. *)
Theorem add_success_effects (self : CniPlugin) (w w1 : World)
    (plugin_path : string) (doc : json) (net : IPNetwork) :
  address_assigned self w w1 plugin_path doc net ->
  fault w OpCreateEndpoint = None -> fault w OpProvisionVeth = None ->
  fault w OpSetEndpoint = None -> fault w OpSetProfile = None ->
  let ep := added_endpoint self w net in
  let w' := (execute self w).2 in
  (execute self w).1 = 0%Z
  /\ trace w'
     = trace w1 ++ [EvSpawn plugin_path (json_dumps (network_config self));
                    EvCreateEndpoint (own_key self) [net];
                    EvProvisionVeth (ep_name ep) (netns_path self w) (interface self);
                    EvSetEndpoint ep]
                ++ profile_events self (fun name => EvSetProfile name ep)
                ++ [EvStdout (json_dumps doc)]
  /\ (exists others,
        endpoints_under w' (own_key self) = others ++ [ep]
        /\ List.length others = List.length (endpoints_under w (own_key self)))
  /\ veths w' = {[ep_name ep]} ∪ veths w.
Proof.
  intros Ha Hc Hp Hs Hpr ep w'.
  destruct (add_success_run self w w1 plugin_path doc net Ha Hc Hp Hs Hpr)
    as (w2 & Hx & _ & Ht & Hd & Hv).
  subst w'. rewrite Hx. cbn [fst snd].
  split; [reflexivity|]. split; [exact Ht|]. split; [|exact Hv].
  eexists. split; [|apply List.length_map].
  unfold endpoints_under at 1. now rewrite Hd, lookup_insert_eq.
Qed.

Lemma endpoints_under_stored d m w key :
  endpoints_under (set_datastore (<[key := d]> m) w) key = d.
Proof. unfold endpoints_under. cbn [datastore set_datastore]. now rewrite lookup_insert_eq. Qed.

(** X10.  Nothing is rolled back when an ADD fails after the endpoint was
    created.  If [provision_veth] raises, the ADD returns 1 and the endpoint
    just created stays in the datastore, without MAC address and without
    veth; if [set_endpoint] raises, the veth stays as well; if the policy
    driver raises, the endpoint is stored with its MAC address and the veth
    stays, although the ADD returns 1. *)
Theorem add_failure_no_rollback (self : CniPlugin) (w w1 : World)
    (plugin_path : string) (doc : json) (net : IPNetwork) (e : pyerr) :
  address_assigned self w w1 plugin_path doc net ->
  fault w OpCreateEndpoint = None ->
  let key := own_key self in
  let created := created_endpoint self w net in
  let ep := added_endpoint self w net in
  let r := execute self w in
  (fault w OpProvisionVeth = Some e ->
   r.1 = 1%Z
   /\ endpoints_under r.2 key = endpoints_under w key ++ [created]
   /\ veths r.2 = veths w)
  /\ (fault w OpProvisionVeth = None -> fault w OpSetEndpoint = Some e ->
      r.1 = 1%Z
      /\ endpoints_under r.2 key = endpoints_under w key ++ [created]
      /\ veths r.2 = {[ep_name ep]} ∪ veths w)
  /\ (fault w OpProvisionVeth = None -> fault w OpSetEndpoint = None ->
      fault w OpSetProfile = Some e ->
      (exists name, policy_driver self = DefaultPolicyDriver name) ->
      r.1 = 1%Z
      /\ (exists others,
            endpoints_under r.2 key = others ++ [ep]
            /\ List.length others = List.length (endpoints_under w key))
      /\ veths r.2 = {[ep_name ep]} ∪ veths w).
Proof.
  intros Ha Hc key created ep r.
  pose proof Ha as (Hcmd & _).
  destruct (address_assigned_add _ _ _ _ _ _ Ha) as [Hw1 Hadd].
  subst r. rewrite (execute_add self w Hcmd), Hadd.
  unfold add_steps, bind. rewrite _create_endpoint_run.
  assert (forall op, fault w1 op = fault w op) as Hfault
    by (intros op; destruct Hw1 as [-> | ->]; reflexivity).
  cbn [fault log]. rewrite Hfault, Hc. cbv beta iota zeta.
  rewrite _provision_veth_run. cbn [fault log set_datastore]. rewrite !Hfault.
  split; [|split].
  - intros ->. cbn [fst snd]. split; [reflexivity|].
    destruct Hw1 as [-> | ->]; split; reflexivity || apply endpoints_under_stored.
  - intros -> ->. cbv beta iota zeta. cbn [fst snd]. split; [reflexivity|].
    destruct Hw1 as [-> | ->]; split; reflexivity || apply endpoints_under_stored.
  - intros -> -> Hpr [name Hd]. cbv beta iota zeta.
    rewrite set_profile_run. cbn [policy_driver set_ipam_result]. rewrite Hd.
    cbn [fault log set_datastore set_veths]. rewrite Hfault, Hpr.
    cbn [fst snd]. split; [reflexivity|].
    destruct Hw1 as [-> | ->]; (split; [|reflexivity]).
    all: eexists; split; [|apply List.length_map].
    all: unfold endpoints_under at 1; cbn [datastore log set_datastore set_veths];
      change (ep_key _) with key; rewrite lookup_insert_eq; cbn [default];
      rewrite endpoints_under_stored; now apply replace_endpoint_last.
Qed.

Lemma delete_released self w plugin_path :
  release_attempted self w plugin_path ->
  delete self w =
  (endpoint <- _get_endpoint self ;;
   match endpoint with
   | None => sys_exit 0
   | Some endpoint =>
       remove_veth (ep_name endpoint) ;;;
       _remove_endpoint self ;;;
       remove_profile (policy_driver self)
   end) (log (EvSpawn plugin_path (json_dumps (network_config self))) w).
Proof.
  intros (_ & Hf & He & Hpo). unfold delete, _release_ip.
  unfold bind at 1 2. now rewrite _call_ipam_plugin_cases, Hf, He, Hpo.
Qed.

Lemma delete_found_run self w plugin_path ep :
  release_attempted self w plugin_path ->
  fault w OpGetEndpoint = None ->
  endpoints_under w (own_key self) = [ep] ->
  delete self w =
  let w1 := log (EvRemoveVeth (ep_name ep))
              (log (EvGetEndpoint (own_key self))
                 (log (EvSpawn plugin_path (json_dumps (network_config self))) w)) in
  match fault w OpRemoveVeth with
  | Some e => (Raise e, w1)
  | None =>
      let w2 := log (EvRemoveWorkload (own_key self))
                  (set_veths (veths w ∖ {[ep_name ep]}) w1) in
      match fault w OpRemoveWorkload with
      | Some (KeyError _) => remove_profile (policy_driver self) w2
      | Some e => (Raise e, w2)
      | None =>
          remove_profile (policy_driver self)
            (set_datastore (base.delete (own_key self) (datastore w)) w2)
      end
  end.
Proof.
  intros Hr Hge Heps. rewrite (delete_released self w plugin_path Hr).
  unfold bind at 1. rewrite _get_endpoint_run. cbn [fault log]. rewrite Hge.
  change (endpoints_under (log _ w) ?k) with (endpoints_under w k). rewrite Heps.
  unfold bind at 1. rewrite remove_veth_run. cbn [fault log veths].
  destruct (fault w OpRemoveVeth); [reflexivity|]. cbv beta iota zeta.
  unfold bind. rewrite _remove_endpoint_run. cbn [fault log set_veths datastore].
  assert (datastore w !! own_key self = Some [ep]) as ->.
  { revert Heps. unfold endpoints_under.
    destruct (datastore w !! own_key self) as [l|]; simpl;
      [intros ->; reflexivity | discriminate]. }
  destruct (fault w OpRemoveWorkload) as [[]|]; reflexivity.
Qed.


(** X12.  A DELETE for a container without endpoint, whether the datastore
    holds none or the lookup raises KeyError, returns 0 right after the
    lookup: it has started the IPAM child and looked the endpoint up, and
    made no other call; no veth and no workload is removed, and the policy
    driver is not asked to remove the profile. *)
Theorem delete_unknown_container (self : CniPlugin) (w : World) (plugin_path : string) :
  release_attempted self w plugin_path ->
  (fault w OpGetEndpoint = None /\ endpoints_under w (own_key self) = [])
  \/ (exists k, fault w OpGetEndpoint = Some (KeyError k)) ->
  let r := execute self w in
  r.1 = 0%Z
  /\ trace r.2 = trace w ++ [EvSpawn plugin_path (json_dumps (network_config self));
                             EvGetEndpoint (own_key self)]
  /\ datastore r.2 = datastore w
  /\ veths r.2 = veths w.
Proof.
  intros Hr Hnone r. pose proof Hr as (Hcmd & _).
  subst r. rewrite (execute_delete self w Hcmd), (delete_released self w plugin_path Hr).
  unfold bind. rewrite _get_endpoint_run. cbn [fault log].
  change (endpoints_under (log _ w) ?k) with (endpoints_under w k).
  destruct Hnone as [[-> ->] | [k ->]]; cbn; rewrite <- app_assoc; auto.
Qed.

(** X13.  A DELETE that finds the one endpoint of its container and meets no
    failure returns 0 after making, in this order, the calls: the IPAM child,
    [get_endpoint], [remove_veth] with the name of the endpoint found,
    [remove_workload], and [remove_profile] if the driver is the per-network
    one.  The workload is then gone from the datastore and the veth of the
    endpoint from the host. *)
Theorem delete_success_effects (self : CniPlugin) (w : World) (plugin_path : string)
    (ep : Endpoint) :
  release_attempted self w plugin_path ->
  fault w OpGetEndpoint = None ->
  endpoints_under w (own_key self) = [ep] ->
  fault w OpRemoveVeth = None -> fault w OpRemoveWorkload = None ->
  fault w OpRemoveProfile = None ->
  let r := execute self w in
  r.1 = 0%Z
  /\ trace r.2 = trace w ++ [EvSpawn plugin_path (json_dumps (network_config self));
                             EvGetEndpoint (own_key self);
                             EvRemoveVeth (ep_name ep);
                             EvRemoveWorkload (own_key self)]
                         ++ profile_events self EvRemoveProfile
  /\ datastore r.2 = base.delete (own_key self) (datastore w)
  /\ veths r.2 = veths w ∖ {[ep_name ep]}.
Proof.
  intros Hr Hge Heps Hrv Hrw Hrp r. pose proof Hr as (Hcmd & _).
  subst r. rewrite (execute_delete self w Hcmd).
  rewrite (delete_found_run self w plugin_path ep Hr Hge Heps), Hrv, Hrw.
  cbv zeta. rewrite remove_profile_run. unfold profile_events.
  destruct (policy_driver self); cbn [fault log set_veths set_datastore];
    rewrite ?Hrp; cbn; rewrite <- !app_assoc; auto.
Qed.

(** X14.  A DELETE stops at the first call that raises, and undoes nothing.
    If [remove_veth] raises, it returns 1 with the veths and the datastore
    as they were.  If [remove_workload] raises anything but KeyError, it
    returns 1 with the veth removed and the endpoint still stored, and the
    policy driver is not called.  If [remove_profile] raises, it returns 1
    although the veth and the workload are gone. *)
Theorem delete_stops_at_first_failure (self : CniPlugin) (w : World)
    (plugin_path : string) (ep : Endpoint) (e : pyerr) :
  release_attempted self w plugin_path ->
  fault w OpGetEndpoint = None ->
  endpoints_under w (own_key self) = [ep] ->
  let r := execute self w in
  (fault w OpRemoveVeth = Some e ->
   r.1 = 1%Z /\ datastore r.2 = datastore w /\ veths r.2 = veths w)
  /\ (fault w OpRemoveVeth = None -> fault w OpRemoveWorkload = Some e ->
      (forall k, e <> KeyError k) ->
      r.1 = 1%Z /\ datastore r.2 = datastore w
      /\ veths r.2 = veths w ∖ {[ep_name ep]}
      /\ trace r.2 = trace w ++ [EvSpawn plugin_path (json_dumps (network_config self));
                                 EvGetEndpoint (own_key self);
                                 EvRemoveVeth (ep_name ep);
                                 EvRemoveWorkload (own_key self)])
  /\ (fault w OpRemoveVeth = None -> fault w OpRemoveWorkload = None ->
      fault w OpRemoveProfile = Some e ->
      (exists name, policy_driver self = DefaultPolicyDriver name) ->
      r.1 = 1%Z /\ datastore r.2 = base.delete (own_key self) (datastore w)
      /\ veths r.2 = veths w ∖ {[ep_name ep]}).
Proof.
  intros Hr Hge Heps r. pose proof Hr as (Hcmd & _).
  subst r. rewrite (execute_delete self w Hcmd).
  rewrite (delete_found_run self w plugin_path ep Hr Hge Heps).
  split; [|split].
  - intros ->. auto.
  - intros -> -> Hk. cbv zeta.
    destruct e; try (now destruct (Hk key)); cbn; rewrite <- !app_assoc; auto.
  - intros -> -> Hrp [name Hd]. cbv zeta.
    rewrite remove_profile_run, Hd. cbn [fault log set_veths set_datastore].
    rewrite Hrp. auto.
Qed.

(** X11.  ADD then DELETE is a round trip.  On a host where no call fails,
    for a container unknown to the datastore and whose veth does not exist
    yet, a successful ADD stores exactly one endpoint and creates its veth,
    and a DELETE for the same container then returns 0 and leaves the
    datastore and the veths of the host exactly as they were before the
    ADD. *)
Theorem add_then_delete_restores (adder deleter : CniPlugin) (w w1 : World)
    (plugin_path : string) (doc : json) (net : IPNetwork) (del_path : string) :
  address_assigned adder w w1 plugin_path doc net ->
  (forall op, fault w op = None) ->
  command deleter = CNI_CMD_DELETE ->
  container_id deleter = container_id adder ->
  (_find_ipam_plugin deleter w).1 = Ok del_path ->
  PyStr.is_empty del_path = false ->
  datastore w !! own_key adder = None ->
  new_endpoint_name w (container_id adder) ∉ veths w ->
  let w' := (execute adder w).2 in
  let w'' := (execute deleter w').2 in
  (execute adder w).1 = 0%Z
  /\ endpoints_under w' (own_key adder) = [added_endpoint adder w net]
  /\ new_endpoint_name w (container_id adder) ∈ veths w'
  /\ (execute deleter w').1 = 0%Z
  /\ datastore w'' = datastore w
  /\ veths w'' = veths w.
Proof.
  intros Ha Hfault Hcmd Hid Hf He Hnew Hveth w' w''.
  destruct (add_success_run adder w w1 plugin_path doc net Ha) as (w2 & Hx & Hsame & _ & Hd & Hv);
    auto.
  assert (endpoints_under w (own_key adder) = []) as Heps
    by (unfold endpoints_under; now rewrite Hnew).
  rewrite Heps in Hd. cbn [map app] in Hd.
  subst w' w''. rewrite Hx. cbn [fst snd].
  assert (own_key deleter = own_key adder) as Hkey
    by (unfold own_key; now rewrite Hid).
  assert (endpoints_under w2 (own_key deleter) = [added_endpoint adder w net]) as Heps2.
  { rewrite Hkey. unfold endpoints_under. now rewrite Hd, lookup_insert_eq. }
  assert (release_attempted deleter w2 del_path) as Hr.
  { split; [exact Hcmd|]. split; [|split; [exact He|]].
    - rewrite <- Hf. destruct Hsame as (E1 & E2 & _).
      now apply _find_ipam_plugin_same_files.
    - now rewrite (same_host_fault w w2). }
  split; [reflexivity|]. split; [now rewrite <- Hkey|].
  split; [rewrite Hv; apply elem_of_union_l; now apply elem_of_singleton|].
  rewrite (execute_delete deleter w2 Hcmd).
  rewrite (delete_found_run deleter w2 del_path (added_endpoint adder w net) Hr);
    [|now rewrite (same_host_fault w w2) | exact Heps2].
  rewrite !(same_host_fault w w2), !Hfault by assumption. cbv zeta.
  rewrite remove_profile_run.
  assert (base.delete (own_key deleter) (datastore w2) = datastore w) as Hd'.
  { rewrite Hkey, Hd. now apply delete_insert_id. }
  assert (veths w2 ∖ {[ep_name (added_endpoint adder w net)]} = veths w) as Hv'.
  { rewrite Hv. apply set_eq. intros x.
    rewrite elem_of_difference, elem_of_union, elem_of_singleton.
    split; [intros [[->|Hx'] Hn]; [now destruct Hn | exact Hx']|].
    intros Hx'. split; [now right|]. intros ->. contradiction. }
  destruct (policy_driver deleter); cbn [fault log set_veths set_datastore];
    rewrite ?(same_host_fault w w2), ?Hfault by assumption; cbn; auto.
Qed.

End Effects.

(** ** Paths, and the variables of the environment *)

Section PathsAndEnvironment.
Context `{PyLib}.

Lemma startswith_slash s :
  PyStr.startswith "/" s = true <-> exists s', s = String "/" s'.
Proof.
  unfold PyStr.startswith. destruct s as [|c s].
  - split; [discriminate | intros [? [=]]].
  - change (String.prefix "/" (String c s))
      with (if ascii_dec "/" c then String.prefix "" s else false).
    destruct (ascii_dec "/" c) as [Heq|Hne].
    + subst c. split; [eauto|]. intros _. now destruct s.
    + split; [discriminate|]. intros [s' [= Hc _]]. now subst c.
Qed.

Lemma join_isabs a b : OsPath.isabs a = true -> OsPath.isabs (OsPath.join a b) = true.
Proof.
  unfold OsPath.isabs, OsPath.join. intros Ha.
  destruct (PyStr.startswith "/" b) eqn:Eb; [exact Eb|].
  apply startswith_slash in Ha as [a' ->].
  destruct (_ || _); apply startswith_slash; simpl; eauto.
Qed.

Lemma normpath_isabs path :
  OsPath.isabs path = true -> OsPath.isabs (OsPath.normpath path) = true.
Proof.
  unfold OsPath.isabs, OsPath.normpath. intros Hp. rewrite Hp.
  pose proof Hp as [p' ->]%startswith_slash. cbn [PyStr.is_empty]. cbv zeta.
  destruct (_ && _); simpl;
    first [reflexivity
          | unfold PyStr.startswith;
            match goal with |- String.prefix "" ?x = true => now destruct x end].
Qed.

Lemma abspath_isabs cwd path :
  OsPath.isabs cwd = true -> OsPath.isabs (OsPath.abspath cwd path) = true.
Proof.
  intros Hc. unfold OsPath.abspath.
  destruct (OsPath.isabs path) eqn:Ep; apply normpath_isabs; [exact Ep|].
  now apply join_isabs.
Qed.

Lemma abspath_join cwd path :
  OsPath.isabs cwd = true ->
  OsPath.abspath cwd (OsPath.join cwd path) = OsPath.abspath cwd path.
Proof.
  intros Hc. unfold OsPath.abspath at 1. rewrite (join_isabs cwd path Hc).
  unfold OsPath.abspath. destruct (OsPath.isabs path) eqn:Ep; [|reflexivity].
  unfold OsPath.join. unfold OsPath.isabs in Ep. now rewrite Ep.
Qed.

Lemma find_in_path_absolute w plugin_type dirs :
  OsPath.isabs (cwd w) = true ->
  PyStr.is_empty (find_in_path w plugin_type dirs) = false ->
  OsPath.isabs (find_in_path w plugin_type dirs) = true.
Proof.
  intros Hc. induction dirs as [|dir dirs IH]; simpl; [discriminate|].
  destruct (isfile w (OsPath.abspath (cwd w) (OsPath.join dir plugin_type)));
    [intros _; now apply abspath_isabs | exact IH].
Qed.

(** X15.  With an absolute working directory, [_find_ipam_plugin] changes
    nothing on the host and returns either the empty string or an absolute
    path that is a regular file; and the only child [_call_ipam_plugin] ever
    starts is that file, with the network configuration written by
    [json.dumps] on its standard input. *)
Theorem find_ipam_plugin_absolute_file (self : CniPlugin) (w : World)
    (plugin_path : string) :
  OsPath.isabs (cwd w) = true ->
  (_find_ipam_plugin self w).1 = Ok plugin_path ->
  (_find_ipam_plugin self w).2 = w
  /\ (plugin_path = ""
      \/ OsPath.isabs plugin_path = true /\ isfile w plugin_path = true)
  /\ forall path stdin,
       EvSpawn path stdin ∈ trace (_call_ipam_plugin self w).2 ->
       EvSpawn path stdin ∈ trace w
       \/ path = plugin_path /\ OsPath.isabs path = true /\ isfile w path = true
          /\ stdin = json_dumps (network_config self).
Proof.
  intros Hc Hf. split; [apply _find_ipam_plugin_pure|].
  assert (PyStr.is_empty plugin_path = false ->
          OsPath.isabs plugin_path = true /\ isfile w plugin_path = true) as Hfound.
  { intros He. split; [|now apply (_find_ipam_plugin_isfile self)].
    revert Hf He. unfold _find_ipam_plugin, bind, lift, raise.
    destruct (getitem (network_config self) "ipam") as [ipam| |]; try discriminate.
    destruct (getitem ipam "type") as [[]| |]; try discriminate.
    simpl. intros [= <-]. now apply find_in_path_absolute. }
  split.
  - destruct plugin_path as [|c p]; [now left | right; now apply Hfound].
  - intros path stdin. rewrite _call_ipam_plugin_cases, Hf.
    destruct (PyStr.is_empty plugin_path) eqn:He; [now left|].
    destruct (Hfound eq_refl) as [Habs Hfile].
    assert (EvSpawn path stdin
              ∈ trace (log (EvSpawn plugin_path (json_dumps (network_config self))) w) ->
            EvSpawn path stdin ∈ trace w
            \/ path = plugin_path /\ OsPath.isabs path = true /\ isfile w path = true
               /\ stdin = json_dumps (network_config self)) as Hlog.
    { simpl. intros [Hin | Hin]%elem_of_app; [now left|].
      apply list_elem_of_singleton in Hin. injection Hin as -> ->. now right. }
    destruct (fault w OpPopen); exact Hlog.
Qed.

(** X16.  With an absolute working directory, the first thing
    [_provision_veth] does is to call [provision_veth] for the endpoint it
    was given, with the interface of CNI_IFNAME and a network namespace path
    that is absolute: it is [abspath] of CNI_NETNS, the explicit join with
    the working directory changing nothing. *)
Theorem provision_veth_netns_absolute (self : CniPlugin) (ep : Endpoint) (w : World) :
  OsPath.isabs (cwd w) = true ->
  let netns := OsPath.abspath (cwd w) (cni_netns self) in
  OsPath.isabs netns = true
  /\ exists evs,
       trace (_provision_veth self ep w).2
       = trace w ++ EvProvisionVeth (ep_name ep) netns (interface self) :: evs.
Proof.
  intros Hc netns. split; [now apply abspath_isabs|].
  rewrite _provision_veth_run. unfold netns_path. rewrite abspath_join by exact Hc.
  fold netns. cbv zeta.
  destruct (fault w OpProvisionVeth); [exists []; reflexivity|].
  destruct (fault w OpSetEndpoint); eexists; cbn; rewrite <- app_assoc; reflexivity.
Qed.

(** X17.  Construction reads CNI_COMMAND, CNI_CONTAINERID, CNI_NETNS,
    CNI_IFNAME, CNI_ARGS and CNI_PATH in this order and stops at the first
    that is not defined: it raises KeyError for that variable, whatever the
    later ones and whatever the network configuration. *)
Theorem CniPlugin_init_first_missing (nc : json) (environ : gmap string string)
    (before after : list string) (v : string) :
  required_env = before ++ v :: after ->
  Forall (fun x => is_Some (environ !! x)) before ->
  environ !! v = None ->
  CniPlugin_init nc environ = Raise (KeyError v).
Proof.
  unfold required_env, CniPlugin_init, env_get. intros Heq Hbefore Hv.
  repeat (destruct before as [|? before];
          [injection Heq as <- _; now rewrite Hv
          |injection Heq as <- Heq;
           apply Forall_cons in Hbefore as [[? ->] Hbefore]; cbn [rbind]]).
  now destruct before.
Qed.

End PathsAndEnvironment.

(** ** A network configuration without IPAM type *)

Section IpamType.
Context `{PyLib}.

Lemma _find_ipam_plugin_raise self w e :
  (_find_ipam_plugin self w).1 = Raise e ->
  forall w', _find_ipam_plugin self w' = (Raise e, w').
Proof.
  unfold _find_ipam_plugin, bind, lift, raise. intros Hf w'.
  destruct (getitem (network_config self) "ipam") as [ipam| |];
    [|simpl in Hf; congruence | discriminate].
  destruct (getitem ipam "type") as [[]| |]; simpl in Hf; congruence.
Qed.

(** X18.  The network configuration must name an IPAM type.  When
    [_find_ipam_plugin] raises, the configuration has no [ipam] member, or
    [ipam] has no [type], or [type] is not a string; a DELETE then returns 1
    without any call to the host, and an ADD returns 1 right after the
    engine probe: the IPAM child is not started and nothing is created. *)
Theorem ipam_type_required (self : CniPlugin) (w : World) (e : pyerr) :
  (_find_ipam_plugin self w).1 = Raise e ->
  (getitem (network_config self) "ipam" = Raise e
   \/ exists ipam,
        getitem (network_config self) "ipam" = Ok ipam
        /\ (getitem ipam "type" = Raise e
            \/ e = AttributeError
               /\ exists ty, getitem ipam "type" = Ok ty
                             /\ forall text, ty <> JString text))
  /\ (command self = CNI_CMD_DELETE -> execute self w = (1%Z, w))
  /\ (command self = CNI_CMD_ADD ->
      forall w1,
        uses_host_networking (container_engine self) (container_id self) w
        = (Ok false, w1) ->
        execute self w = (1%Z, w1)).
Proof.
  intros Hf. split; [|split].
  - revert Hf. unfold _find_ipam_plugin, bind, lift, raise.
    destruct (getitem (network_config self) "ipam") as [ipam| |] eqn:Ei;
      [|simpl; intros [= <-]; now left | discriminate].
    intros Hf. right. exists ipam. split; [reflexivity|].
    destruct (getitem ipam "type") as [ty| |] eqn:Et;
      [|simpl in Hf; left; congruence | discriminate].
    right. destruct ty; simpl in Hf; try discriminate;
      (split; [congruence|]); eexists; (split; [reflexivity | discriminate]).
  - intros Hcmd. rewrite (execute_delete self w Hcmd).
    unfold delete, _release_ip, _call_ipam_plugin. unfold bind at 1 2 3.
    now rewrite (_find_ipam_plugin_raise self w e Hf w).
  - intros Hcmd w1 Hh. rewrite (execute_add self w Hcmd).
    unfold add. unfold bind at 1. rewrite Hh.
    unfold _assign_ip, _call_ipam_plugin. unfold bind at 1 2 3.
    now rewrite (_find_ipam_plugin_raise self w e Hf w1).
Qed.

End IpamType.

(** ** The scenarios of the specification, run on the example host *)

Import Example.



(** Scenario 2 of the specification. *)
Lemma add_host_networking_witness :
  let self := Example.plugin "ADD" "K8S_POD_NAME=foo" in
  let w := Example.set_docker_host_mode (fun _ => true) (Example.host (0%Z, Example.ipam_text)) in
  let w1 := log (EvDockerInspect "abc") w in
  execute self w = (0%Z, w1)
  /\ trace w1 = trace w ++ [EvDockerInspect (container_id self)]
  /\ stdout_of (trace w1) = stdout_of (trace w)
  /\ spawn_count (trace w1) = spawn_count (trace w)
  /\ datastore w1 = datastore w /\ veths w1 = veths w.
Proof.
  intros self w w1. apply (add_host_networking self w w1); reflexivity.
Defined.


(** An ADD whose IPAM child answers with a document without address. *)
Lemma add_starts_ipam_once_witness :
  (spawn_count (trace (execute (plugin "ADD" "") (host (0%Z, "{}"))).2) <= 1)%nat.
Proof.
  apply (add_starts_ipam_once (plugin "ADD" "") (host (0%Z, "{}"))). reflexivity.
Defined.

(** Scenario 1 of the specification. *)
Lemma add_success_stdout_witness :
  let w := host (0%Z, ipam_text) in
  let w' := (execute (plugin "ADD" "") w).2 in
  (uses_host_networking DefaultEngine "abc" w = (Ok true, w')
   /\ stdout_of (trace w') = stdout_of (trace w))
  \/ exists w1 plugin_path out doc evs,
       uses_host_networking DefaultEngine "abc" w = (Ok false, w1)
       /\ (_find_ipam_plugin (plugin "ADD" "") w1).1 = Ok plugin_path
       /\ ipam_child w1 (environ "ADD" "") plugin_path (json_dumps config) = (0%Z, out)
       /\ json_loads out = Some doc
       /\ trace w' = trace w ++ evs ++ [EvStdout (json_dumps doc)]
       /\ stdout_of evs = ""
       /\ stdout_of (trace w')
          = stdout_of (trace w) +:+ json_dumps doc +:+ String PyStr.LF "".
Proof.
  intros w w'.
  apply (add_success_stdout (plugin "ADD" "") w w'); vm_compute; reflexivity.
Defined.

(** C3 as stated fails on scenario 1 of the specification: the plugin prints
    the document with the separators of [json.dumps] and a final newline, not
    the bytes the IPAM child produced. *)
Lemma add_stdout_not_verbatim :
  let r := main config_text (environ "ADD" "") (host (0%Z, ipam_text)) in
  ipam_text = PyJson.dq "{'ip4':{'ip':'10.0.0.5/24'}}"
  /\ r.1 = 0%Z
  /\ stdout_of (trace r.2)
     = PyJson.dq "{'ip4': {'ip': '10.0.0.5/24'}}" +:+ String PyStr.LF ""
  /\ stdout_of (trace r.2) <> ipam_text.
Proof.
  repeat split; try (vm_compute; reflexivity).
  vm_compute. discriminate.
Qed.

(** Scenario 5 of the specification, with an IPAM child that fails to
    release: the DELETE still returns 0 and removes veth and endpoint. *)
Lemma delete_tolerant_witness :
  let self := plugin "DEL" "" in
  let w := set_isfile (isfile (host (0%Z, ""))) networked_host in
  let w := {| cwd := cwd w; isfile := isfile w;
              ipam_child := fun _ _ _ => (3%Z, "");
              docker_host_mode := docker_host_mode w;
              new_endpoint_name := new_endpoint_name w; new_mac := new_mac w;
              fault := fault w; datastore := datastore w; veths := veths w;
              trace := trace w |} in
  let key := (HOSTNAME, ORCHESTRATOR_ID, "abc") in
  (List.length (endpoints_under w key) = 1%nat /\ "caliabc" ∈ veths w)
  /\ (execute self w).1 = 0%Z
  /\ spawn_count (trace (execute self w).2) = S (spawn_count (trace w))
  /\ stdout_of (trace (execute self w).2) = stdout_of (trace w)
  /\ (fault w OpGetEndpoint = None -> fault w OpRemoveWorkload = None ->
      endpoints_under (execute self w).2 key = []
      /\ forall ep, endpoints_under w key = [ep] ->
                    ep_name ep ∉ veths (execute self w).2).
Proof.
  intros self w0 w key. split.
  - split; vm_compute; reflexivity.
  - destruct (delete_tolerant self w "/opt/cni/host-local" eq_refl eq_refl)
      as [_ Hfound].
    destruct (Hfound eq_refl eq_refl) as (_ & Hdone & _).
    apply Hdone; try (vm_compute; reflexivity); exact I.
Defined.

(** C2 as stated fails: with no IPAM binary in CNI_PATH a DELETE returns 1
    although the endpoint lookup would not be ambiguous, the IPAM child is
    never started, and the endpoint and the veth of the container remain;
    when [remove_veth] raises, the DELETE returns 1 and leaves endpoint and
    veth behind; and after an ambiguous lookup the endpoints remain. *)
Lemma delete_not_always_clean :
  let self := plugin "DEL" "" in
  let key := (HOSTNAME, ORCHESTRATOR_ID, "abc") in
  let no_binary := set_isfile (fun _ => false) networked_host in
  let veth_error :=
    set_fault (fun op => match op with
                         | OpRemoveVeth => Some (OtherError "CalledProcessError")
                         | _ => None
                         end) networked_host in
  let ambiguous :=
    set_datastore (<[key := endpoints_under networked_host key
                            ++ endpoints_under networked_host key]>
                     (datastore networked_host)) networked_host in
  (List.length (endpoints_under no_binary key) = 1%nat
   /\ (execute self no_binary).1 = 1%Z
   /\ spawn_count (trace (execute self no_binary).2) = 0%nat
   /\ List.length (endpoints_under (execute self no_binary).2 key) = 1%nat
   /\ "caliabc" ∈ veths (execute self no_binary).2)
  /\ (List.length (endpoints_under veth_error key) = 1%nat
      /\ (execute self veth_error).1 = 1%Z
      /\ List.length (endpoints_under (execute self veth_error).2 key) = 1%nat
      /\ "caliabc" ∈ veths (execute self veth_error).2)
  /\ (List.length (endpoints_under ambiguous key) = 2%nat
      /\ (execute self ambiguous).1 = 1%Z
      /\ List.length (endpoints_under (execute self ambiguous).2 key) = 2%nat).
Proof.
  repeat split; vm_compute; reflexivity.
Qed.

(** C1 fails on the code: after the IPAM child has assigned an address
    (code 0), an ADD that fails at a later step returns 1 having started the
    IPAM child once only, for the assignment: nothing releases the address.
    The later steps are, in turn: output that is not JSON, a document without
    [ip4.ip], a malformed CIDR, and [create_endpoint] raising AddrFormatError
    or KeyError. *)
Theorem add_failure_leaves_allocation :
  let run ipam_stdout faults :=
    main config_text (environ "ADD" "") (set_fault faults (host (0%Z, ipam_stdout))) in
  let spawn := EvSpawn "/opt/cni/host-local" (json_dumps config) in
  let create := EvCreateEndpoint (HOSTNAME, ORCHESTRATOR_ID, "abc")
                  [{| ip_cidr := "10.0.0.5/24"; ip_version := 4 |}] in
  let no_fault := fun _ : Op => @None pyerr in
  let create_fails e :=
    fun op => match op with OpCreateEndpoint => Some e | _ => None end in
  ((run "pool" no_fault).1 = 1%Z /\ trace (run "pool" no_fault).2 = [spawn])
  /\ ((run "{}" no_fault).1 = 1%Z /\ trace (run "{}" no_fault).2 = [spawn])
  /\ ((run (PyJson.dq "{'ip4':{'ip':'not-an-ip'}}") no_fault).1 = 1%Z
      /\ trace (run (PyJson.dq "{'ip4':{'ip':'not-an-ip'}}") no_fault).2 = [spawn])
  /\ ((run ipam_text (create_fails AddrFormatError)).1 = 1%Z
      /\ trace (run ipam_text (create_fails AddrFormatError)).2 = [spawn; create])
  /\ ((run ipam_text (create_fails (KeyError "bgp"))).1 = 1%Z
      /\ trace (run ipam_text (create_fails (KeyError "bgp"))).2 = [spawn; create]).
Proof.
  repeat split; vm_compute; reflexivity.
Qed.

(** Construction in scenario 1 of the specification. *)
Lemma CniPlugin_init_env_witness :
  (forall v, v ∈ required_env ->
             CniPlugin_init config (environ "ADD" "") <> Raise (KeyError v))
  /\ (forall args name driver,
        environ "ADD" "" !! CNI_ARGS_ENV = Some args ->
        getitem config "name" = Ok name ->
        _get_policy_driver (parse_cni_args args) name = Ok driver ->
        exists self, CniPlugin_init config (environ "ADD" "") = Ok self
                     /\ environ "ADD" "" !! CNI_COMMAND_ENV = Some (command self)
                     /\ cni_args self = parse_cni_args args
                     /\ policy_driver self = driver).
Proof.
  apply (proj1 (CniPlugin_init_env config (environ "ADD" ""))).
  repeat constructor; vm_compute; eauto.
Defined.

(** C5 as stated fails: an ADD environment without CNI_ARGS, and a DEL
    environment without CNI_NETNS and CNI_IFNAME, both satisfy the EnvContract
    table, and construction raises KeyError on each. *)
Lemma CniPlugin_init_missing_optional :
  let no_args := base.delete CNI_ARGS_ENV (environ "ADD" "") in
  let no_netns :=
    base.delete CNI_NETNS_ENV (base.delete CNI_IFNAME_ENV (environ "DEL" "")) in
  (EnvContract no_args = true
   /\ CniPlugin_init config no_args = Raise (KeyError "CNI_ARGS"))
  /\ (EnvContract no_netns = true
      /\ CniPlugin_init config no_netns = Raise (KeyError "CNI_NETNS")).
Proof.
  repeat split; vm_compute; reflexivity.
Qed.

(** Construction with [K8S_POD_NAME=foo] in CNI_ARGS. *)
Lemma driver_and_engine_selection_witness :
  let self := plugin "ADD" "K8S_POD_NAME=foo" in
  (exists args, environ "ADD" "K8S_POD_NAME=foo" !! CNI_ARGS_ENV = Some args
                /\ cni_args self = parse_cni_args args)
  /\ (is_Some (cni_args self !! "K8S_POD_NAME") <->
      policy_driver self = KubernetesDefaultPolicyDriver
      /\ container_engine self = DockerEngine)
  /\ (cni_args self !! "K8S_POD_NAME" = None ->
      (exists name, network_name self = JString name
                    /\ policy_driver self = DefaultPolicyDriver name)
      /\ container_engine self = DefaultEngine).
Proof.
  intros self.
  apply (driver_and_engine_selection config (environ "ADD" "K8S_POD_NAME=foo") self).
  vm_compute. reflexivity.
Defined.



Example find_ipam_plugin_second_directory :
  _find_ipam_plugin (set_cni_path "/usr/lib/cni:/opt/cni/:/bin" (plugin "DEL" ""))
    (host (0%Z, ""))
  = (Ok "/opt/cni/host-local", host (0%Z, "")).
Proof. reflexivity. Qed.

(** ** Further properties, on the example host *)

(** Two fragments before the semicolon, two after; the key [A] is bound
    again after it. *)
Lemma cni_args_semicolon_compose_witness :
  CNI_ARGS_RE_findall ("A=1;junk" +:+ String ";" "B=2;A=3")
  = CNI_ARGS_RE_findall "A=1;junk" ++ CNI_ARGS_RE_findall "B=2;A=3"
  /\ parse_cni_args ("A=1;junk" +:+ String ";" "B=2;A=3")
     = parse_cni_args "B=2;A=3" ∪ parse_cni_args "A=1;junk".
Proof.
  apply (cni_args_semicolon_compose "A=1;junk" "B=2;A=3"). reflexivity.
Defined.

(** Scenario 1 of the specification: what the ADD did to the host. *)
Lemma add_only_adds_witness :
  let self := plugin "ADD" "" in
  let w := host (0%Z, ipam_text) in
  let w' := (execute self w).2 in
  (exists evs, trace w' = trace w ++ evs /\ Forall (add_event self w) evs)
  /\ (forall key, key <> own_key self -> datastore w' !! key = datastore w !! key)
  /\ (List.length (endpoints_under w (own_key self))
      <= List.length (endpoints_under w' (own_key self)))%nat
  /\ veths w ⊆ veths w'.
Proof.
  intros self w. apply (add_only_adds self w). reflexivity.
Defined.

(** Scenario 5 of the specification: what the DELETE did to the host. *)
Lemma delete_only_removes_witness :
  let self := plugin "DEL" "" in
  let w := networked_host in
  let w' := (execute self w).2 in
  (exists evs, trace w' = trace w ++ evs /\ Forall (del_event self w) evs)
  /\ stdout_of (trace w') = stdout_of (trace w)
  /\ (forall key, key <> own_key self -> datastore w' !! key = datastore w !! key)
  /\ (datastore w' !! own_key self = datastore w !! own_key self
      \/ datastore w' !! own_key self = None)
  /\ veths w' ⊆ veths w.
Proof.
  intros self w. apply (delete_only_removes self w). reflexivity.
Defined.

(** Scenario 4 of the specification: the IPAM child answers with text that is
    not JSON, the ADD returns 1 and prints nothing. *)
Lemma failure_prints_nothing_witness :
  let self := plugin "ADD" "" in
  let w := host (0%Z, "not json") in
  (execute self w).1 = 1%Z
  /\ stdout_of (trace (execute self w).2) = stdout_of (trace w).
Proof.
  intros self w. split; [vm_compute; reflexivity|].
  apply (failure_prints_nothing self w). left. vm_compute. discriminate.
Defined.

(** The command VERSION is refused. *)
Lemma invalid_command_rejected_witness :
  let w := host (0%Z, ipam_text) in
  execute (plugin "VERSION" "") w = (1%Z, w)
  /\ main config_text (environ "VERSION" "") w = (1%Z, w).
Proof.
  intros w.
  apply (invalid_command_rejected (plugin "VERSION" "") w config_text
           (environ "VERSION" "") "VERSION");
    discriminate || reflexivity.
Defined.

Lemma address_assigned_example :
  address_assigned (plugin "ADD" "") (host (0%Z, ipam_text)) (host (0%Z, ipam_text))
    "/opt/cni/host-local" ipam_doc ipam_net.
Proof.
  repeat split; try (vm_compute; reflexivity).
  exists ipam_text, (JDict [("ip", JString "10.0.0.5/24")]), (JString "10.0.0.5/24").
  repeat split; vm_compute; reflexivity.
Defined.

Lemma release_attempted_example w :
  isfile w = isfile (host (0%Z, "")) -> cwd w = "/var/lib/rkt" ->
  fault w OpPopen = None ->
  release_attempted (plugin "DEL" "") w "/opt/cni/host-local".
Proof.
  intros Hf Hc Hp. repeat split; auto.
  unfold _find_ipam_plugin, bind, lift. simpl. rewrite Hf, Hc. reflexivity.
Defined.

(** Scenario 1 of the specification, call by call. *)
Lemma add_success_effects_witness :
  let self := plugin "ADD" "" in
  let w := host (0%Z, ipam_text) in
  let ep := added_endpoint self w ipam_net in
  let w' := (execute self w).2 in
  (execute self w).1 = 0%Z
  /\ trace w'
     = trace w ++ [EvSpawn "/opt/cni/host-local" (json_dumps (network_config self));
                   EvCreateEndpoint (own_key self) [ipam_net];
                   EvProvisionVeth (ep_name ep) (netns_path self w) (interface self);
                   EvSetEndpoint ep]
               ++ profile_events self (fun name => EvSetProfile name ep)
               ++ [EvStdout (json_dumps ipam_doc)]
  /\ (exists others,
        endpoints_under w' (own_key self) = others ++ [ep]
        /\ List.length others = List.length (endpoints_under w (own_key self)))
  /\ veths w' = {[ep_name ep]} ∪ veths w.
Proof.
  intros self w.
  apply (add_success_effects self w w "/opt/cni/host-local" ipam_doc ipam_net
           address_assigned_example); reflexivity.
Defined.

(** Scenario 1 of the specification with a [provision_veth] that raises: the
    endpoint stays behind. *)
Lemma add_failure_no_rollback_witness :
  let self := plugin "ADD" "" in
  let w := set_fault (failing OpProvisionVeth (OtherError "CalledProcessError"))
             (host (0%Z, ipam_text)) in
  let r := execute self w in
  r.1 = 1%Z
  /\ endpoints_under r.2 (own_key self)
     = endpoints_under w (own_key self) ++ [created_endpoint self w ipam_net]
  /\ veths r.2 = veths w.
Proof.
  intros self w.
  assert (address_assigned self w w "/opt/cni/host-local" ipam_doc ipam_net) as Ha.
  { repeat split; try (vm_compute; reflexivity).
    exists ipam_text, (JDict [("ip", JString "10.0.0.5/24")]), (JString "10.0.0.5/24").
    repeat split; vm_compute; reflexivity. }
  destruct (add_failure_no_rollback self w w "/opt/cni/host-local" ipam_doc ipam_net
              (OtherError "CalledProcessError") Ha eq_refl) as [Hveth _].
  apply Hveth. reflexivity.
Defined.

(** Scenarios 1 and 5 of the specification, one after the other. *)
Lemma add_then_delete_restores_witness :
  let adder := plugin "ADD" "" in
  let deleter := plugin "DEL" "" in
  let w := host (0%Z, ipam_text) in
  let w' := (execute adder w).2 in
  let w'' := (execute deleter w').2 in
  (execute adder w).1 = 0%Z
  /\ endpoints_under w' (own_key adder) = [added_endpoint adder w ipam_net]
  /\ new_endpoint_name w (container_id adder) ∈ veths w'
  /\ (execute deleter w').1 = 0%Z
  /\ datastore w'' = datastore w
  /\ veths w'' = veths w.
Proof.
  intros adder deleter w.
  apply (add_then_delete_restores adder deleter w w "/opt/cni/host-local" ipam_doc
           ipam_net "/opt/cni/host-local" address_assigned_example);
    try reflexivity.
  apply not_elem_of_empty.
Defined.

(** A DELETE for a container the datastore does not know. *)
Lemma delete_unknown_container_witness :
  let self := plugin "DEL" "" in
  let w := host (0%Z, "") in
  let r := execute self w in
  r.1 = 0%Z
  /\ trace r.2 = trace w ++ [EvSpawn "/opt/cni/host-local" (json_dumps (network_config self));
                             EvGetEndpoint (own_key self)]
  /\ datastore r.2 = datastore w
  /\ veths r.2 = veths w.
Proof.
  intros self w.
  apply (delete_unknown_container self w "/opt/cni/host-local").
  - now apply release_attempted_example.
  - left. split; reflexivity.
Defined.

(** Scenario 5 of the specification, call by call. *)
Lemma delete_success_effects_witness :
  let self := plugin "DEL" "" in
  let w := networked_host in
  let ep := added_endpoint (plugin "ADD" "") (host (0%Z, ipam_text)) ipam_net in
  let r := execute self w in
  r.1 = 0%Z
  /\ trace r.2 = trace w ++ [EvSpawn "/opt/cni/host-local" (json_dumps (network_config self));
                             EvGetEndpoint (own_key self);
                             EvRemoveVeth (ep_name ep);
                             EvRemoveWorkload (own_key self)]
                         ++ profile_events self EvRemoveProfile
  /\ datastore r.2 = base.delete (own_key self) (datastore w)
  /\ veths r.2 = veths w ∖ {[ep_name ep]}.
Proof.
  intros self w ep.
  apply (delete_success_effects self w "/opt/cni/host-local" ep);
    reflexivity || now apply release_attempted_example.
Defined.

(** Scenario 5 of the specification with a [remove_workload] that raises:
    the veth is gone, the endpoint stays. *)
Lemma delete_stops_at_first_failure_witness :
  let self := plugin "DEL" "" in
  let w := set_fault (failing OpRemoveWorkload (OtherError "DataStoreError"))
             networked_host in
  let ep := added_endpoint (plugin "ADD" "") (host (0%Z, ipam_text)) ipam_net in
  let r := execute self w in
  r.1 = 1%Z /\ datastore r.2 = datastore w
  /\ veths r.2 = veths w ∖ {[ep_name ep]}
  /\ trace r.2 = trace w ++ [EvSpawn "/opt/cni/host-local" (json_dumps (network_config self));
                             EvGetEndpoint (own_key self);
                             EvRemoveVeth (ep_name ep);
                             EvRemoveWorkload (own_key self)].
Proof.
  intros self w ep.
  destruct (delete_stops_at_first_failure self w "/opt/cni/host-local" ep
              (OtherError "DataStoreError")) as (_ & Hworkload & _).
  - now apply release_attempted_example.
  - reflexivity.
  - vm_compute. reflexivity.
  - apply Hworkload; [reflexivity | reflexivity | discriminate].
Defined.

(** The search of scenario 1 of the specification. *)
Lemma find_ipam_plugin_absolute_file_witness :
  let self := plugin "ADD" "" in
  let w := host (0%Z, ipam_text) in
  (_find_ipam_plugin self w).2 = w
  /\ ("/opt/cni/host-local" = ""
      \/ OsPath.isabs "/opt/cni/host-local" = true
         /\ isfile w "/opt/cni/host-local" = true)
  /\ forall path stdin,
       EvSpawn path stdin ∈ trace (_call_ipam_plugin self w).2 ->
       EvSpawn path stdin ∈ trace w
       \/ path = "/opt/cni/host-local" /\ OsPath.isabs path = true
          /\ isfile w path = true
          /\ stdin = json_dumps (network_config self).
Proof.
  intros self w.
  apply (find_ipam_plugin_absolute_file self w "/opt/cni/host-local"); reflexivity.
Defined.

(** The namespace [./ns1] of scenario 1, seen from [/var/lib/rkt]. *)
Lemma provision_veth_netns_absolute_witness :
  let self := plugin "ADD" "" in
  let w := host (0%Z, ipam_text) in
  let ep := created_endpoint self w ipam_net in
  let netns := OsPath.abspath (cwd w) (cni_netns self) in
  netns = "/var/lib/rkt/ns1"
  /\ OsPath.isabs netns = true
  /\ exists evs,
       trace (_provision_veth self ep w).2
       = trace w ++ EvProvisionVeth (ep_name ep) netns (interface self) :: evs.
Proof.
  intros self w ep. split; [vm_compute; reflexivity|].
  apply (provision_veth_netns_absolute self ep w). reflexivity.
Defined.

(** An environment without CNI_NETNS and without CNI_PATH: the first of the
    two in reading order is reported. *)
Lemma CniPlugin_init_first_missing_witness :
  CniPlugin_init config
    (base.delete CNI_NETNS_ENV (base.delete CNI_PATH_ENV (environ "ADD" "")))
  = Raise (KeyError CNI_NETNS_ENV).
Proof.
  apply (CniPlugin_init_first_missing config _
           [CNI_COMMAND_ENV; CNI_CONTAINERID_ENV]
           [CNI_IFNAME_ENV; CNI_ARGS_ENV; CNI_PATH_ENV] CNI_NETNS_ENV).
  - reflexivity.
  - repeat constructor; vm_compute; eauto.
  - vm_compute. reflexivity.
Defined.

(** A network configuration that has a name and nothing else: the DELETE of
    scenario 5 returns 1 and leaves the endpoint and the veth in place. *)
Lemma ipam_type_required_witness :
  let nc := JDict [("name", JString "net1")] in
  let self := set_network_config nc (plugin "DEL" "") in
  getitem nc "ipam" = Raise (KeyError "ipam")
  /\ execute self networked_host = (1%Z, networked_host).
Proof.
  intros nc self.
  destruct (ipam_type_required self networked_host (KeyError "ipam") eq_refl)
    as (_ & Hdelete & _).
  split; [reflexivity | now apply Hdelete].
Defined.
